(** * vocab_app: the generation-and-deduplication pipeline

    A shallow embedding of [vocab_app.py]: the SQLite item store
    ([init_db], [insert_vocab_items], [get_random_items],
    [get_recent_items], [export_to_csv]), the two request functions
    ([call_gpt_for_vocab], [call_gpt_for_phrasal_verbs]), the two
    generation pages ([page_generate_vocab], [page_generate_phrasal_verbs])
    with the per-context history they keep in the Streamlit session state,
    the two reading pages ([page_review_quiz], [page_recent_and_export])
    and [main].

    Conventions of the embedding.
    - A Python [str] is a Rocq [string] holding its UTF-8 bytes.  Sorting by
      bytes is sorting by code point.  [str.strip] and [str.lower] are
      modelled on the ASCII range; bytes from 128 up are left alone.
    - Python exceptions are values of [exn]; a function that may raise
      returns [result].
    - The committed content of [vocab.db], the session state and a log of
      effects (connections, commits, requests sent) make up the [world]
      that every effectful function threads.
    - What the embedding leaves out: white space and capitals beyond
      ASCII, the two limits of [json.loads] (digits of an integer literal,
      depth of nesting), SQLite's own rendering of a float stored as text,
      the refusal of a str that UTF-8 cannot encode, the write lock of a
      connection a failed call left open, and what [open] does with a name
      other than a plain file name.  A statement either holds whatever
      these do, or names in a hypothesis the inputs it is about.
    - What the program cannot decide itself (the model's reply, the random
      seed, the clock, SQLite's RANDOM()) is read from an [oracle]. *)

From Stdlib Require Import ZArith Lia Ascii String.
From stdpp Require Import gmap strings list sorting pretty.

Local Open Scope Z_scope.
Set Warnings "-register-all".

(** ** Python strings *)

Module PyStr.

(** [str.isspace] on the ASCII range: TAB, LF, VT, FF, CR, FS, GS, RS, US
    and the space. *)
Definition is_space (c : ascii) : bool :=
  let n := nat_of_ascii c in
  ((9 <=? n)%nat && (n <=? 13)%nat) || ((28 <=? n)%nat && (n <=? 32)%nat).

Definition is_upper (c : ascii) : bool :=
  let n := nat_of_ascii c in (65 <=? n)%nat && (n <=? 90)%nat.

Definition lower_char (c : ascii) : ascii :=
  if is_upper c then ascii_of_nat (nat_of_ascii c + 32) else c.

Fixpoint lower (s : string) : string :=
  match s with
  | EmptyString => EmptyString
  | String c r => String (lower_char c) (lower r)
  end.

Fixpoint lstrip (s : string) : string :=
  match s with
  | EmptyString => EmptyString
  | String c r => if is_space c then lstrip r else s
  end.

Fixpoint rstrip (s : string) : string :=
  match s with
  | EmptyString => EmptyString
  | String c r =>
      match rstrip r with
      | EmptyString => if is_space c then EmptyString else String c EmptyString
      | r' => String c r'
      end
  end.

Definition strip (s : string) : string := rstrip (lstrip s).

(** Truth value of a [str]: the empty string is false. *)
Definition truthy (s : string) : bool :=
  match s with EmptyString => false | _ => true end.

(** [str(n)] for an [int]. *)
Definition of_int (n : Z) : string := pretty n.

(** [sep.join(l)]. *)
Definition join (sep : string) (l : list string) : string := String.concat sep l.

(** [sorted] on strings: ascending code points, which on UTF-8 is
    ascending bytes. *)
Definition sorted (l : list string) : list string := merge_sort String.le l.

Definition dquote : string := String "034"%char EmptyString.
Definition newline : string := String "010"%char EmptyString.

End PyStr.

(** ** JSON values and [json.loads] *)

Module Json.

(** A number literal with a fraction or an exponent, and the three
    constants [json.loads] accepts, become a Python [float].  The model
    keeps the literal: sign, integer digits, fraction digits, exponent. *)
Inductive float_lit : Type :=
| FNaN
| FInfinity (negative : bool)
| FDec (negative : bool) (int_digits frac_digits : string) (exponent : Z).

(** What [json.loads] returns: [None], [bool], [int], [float], [str],
    [list] and [dict] (keys unique, in insertion order). *)
Inductive json : Type :=
| JNull
| JBool (b : bool)
| JInt (n : Z)
| JFloat (f : float_lit)
| JStr (s : string)
| JArr (items : list json)
| JObj (members : list (string * json)).

(** [d.get(k)] as an option; [d[k] = v] keeps the place of a key that is
    already there. *)
Fixpoint dict_get (k : string) (d : list (string * json)) : option json :=
  match d with
  | [] => None
  | (k', v) :: d' => if decide (k = k') then Some v else dict_get k d'
  end.

Fixpoint dict_set (k : string) (v : json) (d : list (string * json))
  : list (string * json) :=
  match d with
  | [] => [(k, v)]
  | (k', v') :: d' =>
      if decide (k = k') then (k, v) :: d' else (k', v') :: dict_set k v d'
  end.

(** [dict(pairs)]. *)
Definition dict_of_pairs (pairs : list (string * json)) : list (string * json) :=
  fold_left (fun d kv => dict_set kv.1 kv.2 d) pairs [].

(** *** Lexical helpers *)

Definition is_ws (c : ascii) : bool :=
  let n := nat_of_ascii c in
  (n =? 32)%nat || (n =? 9)%nat || (n =? 10)%nat || (n =? 13)%nat.

Fixpoint skip_ws (s : string) : string :=
  match s with
  | String c r => if is_ws c then skip_ws r else s
  | EmptyString => EmptyString
  end.

Definition is_digit (c : ascii) : bool :=
  let n := nat_of_ascii c in (48 <=? n)%nat && (n <=? 57)%nat.

Definition digit_val (c : ascii) : Z := Z.of_nat (nat_of_ascii c) - 48.

(** The longest prefix of digits, and what follows it. *)
Fixpoint span_digits (s : string) : string * string :=
  match s with
  | String c r =>
      if is_digit c then let '(ds, r') := span_digits r in (String c ds, r')
      else (EmptyString, s)
  | EmptyString => (EmptyString, EmptyString)
  end.

Fixpoint digits_acc (acc : Z) (ds : string) : Z :=
  match ds with
  | EmptyString => acc
  | String c r => digits_acc (10 * acc + digit_val c) r
  end.

Definition digits_to_Z (ds : string) : Z := digits_acc 0 ds.

(** [s.startswith(p)], returning the rest. *)
Fixpoint strip_prefix (p s : string) : option string :=
  match p, s with
  | EmptyString, _ => Some s
  | String a p', String b s' => if decide (a = b) then strip_prefix p' s' else None
  | String _ _, EmptyString => None
  end.

(** *** Numbers: an optional minus, an integer part without leading
    zeros, an optional fraction, an optional exponent *)

Definition scan_int_part (s : string) : option (string * string) :=
  match s with
  | String c r =>
      if decide (c = "0"%char) then Some (String c EmptyString, r)
      else if is_digit c then Some (span_digits s)
      else None
  | EmptyString => None
  end.

Definition scan_frac_part (s : string) : option (string * string) :=
  match s with
  | String c r =>
      if decide (c = "."%char) then
        match span_digits r with
        | (EmptyString, _) => None
        | (ds, r') => Some (ds, r')
        end
      else None
  | EmptyString => None
  end.

Definition scan_exp_part (s : string) : option (Z * string) :=
  match s with
  | String c r =>
      if bool_decide (c = "e"%char) || bool_decide (c = "E"%char) then
        let '(neg, r1) :=
          match r with
          | String sg r' =>
              if decide (sg = "-"%char) then (true, r')
              else if decide (sg = "+"%char) then (false, r')
              else (false, r)
          | EmptyString => (false, r)
          end in
        match span_digits r1 with
        | (EmptyString, _) => None
        | (ds, r2) => Some (if neg then - digits_to_Z ds else digits_to_Z ds, r2)
        end
      else None
  | EmptyString => None
  end.

Definition scan_number (s : string) : option (json * string) :=
  let '(neg, s1) :=
    match s with
    | String c r => if decide (c = "-"%char) then (true, r) else (false, s)
    | EmptyString => (false, s)
    end in
  match scan_int_part s1 with
  | None => None
  | Some (ids, s2) =>
      let '(frac, s3) :=
        match scan_frac_part s2 with
        | Some (fds, r) => (Some fds, r)
        | None => (None, s2)
        end in
      let '(exp, s4) :=
        match scan_exp_part s3 with
        | Some (e, r) => (Some e, r)
        | None => (None, s3)
        end in
      match frac, exp with
      | None, None =>
          Some (JInt (if neg then - digits_to_Z ids else digits_to_Z ids), s4)
      | _, _ =>
          Some (JFloat (FDec neg ids (default EmptyString frac) (default 0 exp)), s4)
      end
  end.

(** *** Strings (strict mode) *)

Definition hex_val (c : ascii) : option N :=
  let n := N_of_ascii c in
  if ((48 <=? n) && (n <=? 57))%N then Some (n - 48)%N
  else if ((65 <=? n) && (n <=? 70))%N then Some (n - 55)%N
  else if ((97 <=? n) && (n <=? 102))%N then Some (n - 87)%N
  else None.

Definition hex4 (a b c d : ascii) : option N :=
  x1 ← hex_val a; x2 ← hex_val b; x3 ← hex_val c; x4 ← hex_val d;
  Some (((x1 * 16 + x2) * 16 + x3) * 16 + x4)%N.

Definition byte (n : N) : string := String (ascii_of_N n) EmptyString.

(** UTF-8 of a code point; a lone surrogate takes the three-byte form. *)
Definition utf8 (cp : N) : string :=
  (if cp <? 128 then byte cp
   else if cp <? 2048 then byte (192 + cp / 64) +:+ byte (128 + cp mod 64)
   else if cp <? 65536 then
     byte (224 + cp / 4096) +:+ byte (128 + (cp / 64) mod 64) +:+ byte (128 + cp mod 64)
   else
     byte (240 + cp / 262144) +:+ byte (128 + (cp / 4096) mod 64)
     +:+ byte (128 + (cp / 64) mod 64) +:+ byte (128 + cp mod 64))%N.

Definition simple_escape (c : ascii) : option string :=
  let n := nat_of_ascii c in
  if (n =? 34)%nat then Some (byte 34)
  else if (n =? 92)%nat then Some (byte 92)
  else if (n =? 47)%nat then Some (byte 47)
  else if (n =? 98)%nat then Some (byte 8)
  else if (n =? 102)%nat then Some (byte 12)
  else if (n =? 110)%nat then Some (byte 10)
  else if (n =? 114)%nat then Some (byte 13)
  else if (n =? 116)%nat then Some (byte 9)
  else None.

(** A low surrogate escape at the head of [s], with what follows it. *)
Definition low_surrogate (s : string) : option (N * string) :=
  match s with
  | String b (String u (String h1 (String h2 (String h3 (String h4 r))))) =>
      if bool_decide (b = "092"%char) && bool_decide (u = "u"%char) then
        match hex4 h1 h2 h3 h4 with
        | Some lo => if ((56320 <=? lo) && (lo <=? 57343))%N then Some (lo, r) else None
        | None => None
        end
      else None
  | _ => None
  end.

(** The text of a string literal from just after its opening quote, and
    what follows the closing quote. *)
Fixpoint scan_string (s : string) : option (string * string) :=
  match s with
  | EmptyString => None
  | String c r =>
      if decide (c = "034"%char) then Some (EmptyString, r)
      else if decide (c = "092"%char) then
        match r with
        | EmptyString => None
        | String e r1 =>
            match simple_escape e with
            | Some t =>
                match scan_string r1 with
                | Some (txt, rest) => Some (t +:+ txt, rest)
                | None => None
                end
            | None =>
                if decide (e = "u"%char) then
                  match r1 with
                  | String h1 (String h2 (String h3 (String h4 r2))) =>
                      match hex4 h1 h2 h3 h4 with
                      | None => None
                      | Some hi =>
                          if ((55296 <=? hi) && (hi <=? 56319))%N then
                            match r2 with
                            | String b (String u (String l1 (String l2 (String l3 (String l4 r3))))) =>
                                match low_surrogate r2 with
                                | Some (lo, _) =>
                                    match scan_string r3 with
                                    | Some (txt, rest) =>
                                        Some (utf8 (65536 + (hi - 55296) * 1024 + (lo - 56320))
                                                +:+ txt, rest)
                                    | None => None
                                    end
                                | None =>
                                    match scan_string r2 with
                                    | Some (txt, rest) => Some (utf8 hi +:+ txt, rest)
                                    | None => None
                                    end
                                end
                            | _ =>
                                match scan_string r2 with
                                | Some (txt, rest) => Some (utf8 hi +:+ txt, rest)
                                | None => None
                                end
                            end
                          else
                            match scan_string r2 with
                            | Some (txt, rest) => Some (utf8 hi +:+ txt, rest)
                            | None => None
                            end
                      end
                  | _ => None
                  end
                else None
            end
        end
      else if (nat_of_ascii c <? 32)%nat then None
      else
        match scan_string r with
        | Some (txt, rest) => Some (String c txt, rest)
        | None => None
        end
  end.

(** *** Values *)

(** One level of the scanner for a value, given the scanners for what an
    array and an object hold. *)
Definition value_body (arr : string → option (list json * string))
    (mem : string → option (list (string * json) * string)) (s : string)
  : option (json * string) :=
  match s with
  | EmptyString => None
  | String c r =>
      if decide (c = "034"%char) then
        '(txt, rest) ← scan_string r; Some (JStr txt, rest)
      else if decide (c = "{"%char) then
        match skip_ws r with
        | String c1 r1 =>
            if decide (c1 = "}"%char) then Some (JObj [], r1)
            else '(ms, rest) ← mem (String c1 r1);
                 Some (JObj (dict_of_pairs ms), rest)
        | EmptyString => None
        end
      else if decide (c = "["%char) then
        match skip_ws r with
        | String c1 r1 =>
            if decide (c1 = "]"%char) then Some (JArr [], r1)
            else '(vs, rest) ← arr (String c1 r1);
                 Some (JArr vs, rest)
        | EmptyString => None
        end
      else if decide (c = "n"%char) then
        rest ← strip_prefix "ull" r; Some (JNull, rest)
      else if decide (c = "t"%char) then
        rest ← strip_prefix "rue" r; Some (JBool true, rest)
      else if decide (c = "f"%char) then
        rest ← strip_prefix "alse" r; Some (JBool false, rest)
      else if decide (c = "N"%char) then
        rest ← strip_prefix "aN" r; Some (JFloat FNaN, rest)
      else if decide (c = "I"%char) then
        rest ← strip_prefix "nfinity" r; Some (JFloat (FInfinity false), rest)
      else if decide (c = "-"%char) then
        match strip_prefix "Infinity" r with
        | Some rest => Some (JFloat (FInfinity true), rest)
        | None => scan_number s
        end
      else scan_number s
  end.

(** The elements of an array, from the first character of an element to
    just after the closing bracket. *)
Definition array_body (val : string → option (json * string))
    (arr : string → option (list json * string)) (s : string)
  : option (list json * string) :=
  '(v, r) ← val s;
  match skip_ws r with
  | String c r1 =>
      if decide (c = "]"%char) then Some ([v], r1)
      else if decide (c = ","%char) then
        '(vs, rest) ← arr (skip_ws r1); Some (v :: vs, rest)
      else None
  | EmptyString => None
  end.

(** The members of an object, from the quote of a key to just after the
    closing brace. *)
Definition members_body (val : string → option (json * string))
    (mem : string → option (list (string * json) * string)) (s : string)
  : option (list (string * json) * string) :=
  match s with
  | String q r =>
      if decide (q = "034"%char) then
        '(k, r1) ← scan_string r;
        match skip_ws r1 with
        | String c r2 =>
            if decide (c = ":"%char) then
              '(v, r3) ← val (skip_ws r2);
              match skip_ws r3 with
              | String c' r4 =>
                  if decide (c' = "}"%char) then Some ([(k, v)], r4)
                  else if decide (c' = ","%char) then
                    '(ms, rest) ← mem (skip_ws r4);
                    Some ((k, v) :: ms, rest)
                  else None
              | EmptyString => None
              end
            else None
        | EmptyString => None
        end
      else None
  | EmptyString => None
  end.

(** The scanner, with fuel for the depth of the recursion. *)
Fixpoint scan_once (fuel : nat) (s : string) {struct fuel} : option (json * string) :=
  match fuel with
  | O => None
  | S fuel' => value_body (scan_array fuel') (scan_members fuel') s
  end
with scan_array (fuel : nat) (s : string) {struct fuel} : option (list json * string) :=
  match fuel with
  | O => None
  | S fuel' => array_body (scan_once fuel') (scan_array fuel') s
  end
with scan_members (fuel : nat) (s : string) {struct fuel}
  : option (list (string * json) * string) :=
  match fuel with
  | O => None
  | S fuel' => members_body (scan_once fuel') (scan_members fuel') s
  end.

(** [json.loads(s)]: one value between optional white space, nothing
    after it.  [None] stands for [json.JSONDecodeError].  The two limits of
    the interpreter are not modelled: [json.loads] raises [ValueError] for
    an integer literal of more digits than the interpreter converts (4300
    by default) and [RecursionError] for nesting beyond its recursion
    limit, where this decoder decodes.  The fuel is enough for every text:
    see [loads_fuel]. *)
Definition loads (s : string) : option json :=
  match scan_once (2 * String.length s + 2) (skip_ws s) with
  | Some (v, rest) =>
      match skip_ws rest with
      | EmptyString => Some v
      | _ => None
      end
  | None => None
  end.

End Json.

(** ** Exceptions *)

(** The exceptions the modelled code can raise.  [ClientError] stands for
    whatever [client.chat.completions.create] or the access to its reply
    raises (transport, authentication, rate limit, an empty reply). *)
Inductive exn : Type :=
| AttributeError
| TypeError
| KeyError (key : string)
| JSONDecodeError
| ClientError (msg : string)
| IntegrityError
| OperationalError
| ProgrammingError
| OverflowError.

Definition result (A : Type) : Type := exn + A.
Abbreviation Ok x := (inr x) (only parsing).
Abbreviation Raise e := (inl e) (only parsing).

#[global] Instance result_ret : MRet result := fun A x => inr x.
#[global] Instance result_bind : MBind result :=
  fun A B f m => match m with inl e => inl e | inr x => f x end.
#[global] Instance result_fmap : FMap result :=
  fun A B f m => match m with inl e => inl e | inr x => inr (f x) end.
#[global] Instance exn_eq_dec : EqDecision exn.
Proof. solve_decision. Defined.

(** ** SQLite *)

Module Sqlite.

(** A stored value.  The program stores no BLOB, and a Python [float] can
    only reach a TEXT column, where SQLite keeps its text. *)
Inductive sqlval : Type :=
| SqlNull
| SqlInt (n : Z)
| SqlText (s : string).

#[global] Instance sqlval_eq_dec : EqDecision sqlval.
Proof. solve_decision. Defined.

Inductive affinity : Type := INTEGER | TEXT.

Inductive coldefault : Type :=
| DefaultNull
| Autoincrement            (* INTEGER PRIMARY KEY AUTOINCREMENT *)
| CurrentTimestamp.        (* DEFAULT CURRENT_TIMESTAMP *)

Record column : Type := Column {
  col_name : string;
  col_affinity : affinity;
  col_notnull : bool;
  col_default : coldefault
}.

(** A table: its columns in declaration order, its rows in rowid order
    (each row holds one cell per column), and the largest rowid ever
    handed out (the table's entry in [sqlite_sequence]). *)
Record table : Type := Table {
  tbl_columns : list column;
  tbl_rows : list (list sqlval);
  tbl_seq : Z
}.

(** Column names are compared without regard to ASCII case. *)
Definition same_name (a b : string) : bool :=
  bool_decide (PyStr.lower a = PyStr.lower b).

Fixpoint col_index (name : string) (cols : list column) : option nat :=
  match cols with
  | [] => None
  | c :: cols' =>
      if same_name name (col_name c) then Some O
      else S <$> col_index name cols'
  end.

Definition has_column (name : string) (t : table) : bool :=
  bool_decide (is_Some (col_index name (tbl_columns t))).

(** The cell of [row] under column [name]. *)
Definition cell (cols : list column) (name : string) (row : list sqlval)
  : option sqlval :=
  i ← col_index name cols; row !! i.

(** *** Binding Python values *)

Definition in_int64 (n : Z) : bool :=
  (- 2 ^ 63 <=? n) && (n <? 2 ^ 63).

(** A value as it is bound to a [?]: storage class, before the column's
    affinity is applied. *)
Inductive param : Type :=
| PNull
| PInt (n : Z)
| PReal (f : Json.float_lit)
| PText (s : string).

(** The decimal text of a float literal.  SQLite would store its own
    rendering of the double (15 significant digits); the model keeps the
    digits of the literal in its place. *)
Definition float_text (f : Json.float_lit) : string :=
  match f with
  | Json.FNaN => "NaN"
  | Json.FInfinity neg => if neg then "-Inf" else "Inf"
  | Json.FDec neg i fr e =>
      (if neg then "-" else EmptyString) +:+ i +:+ "." +:+ fr +:+ "e" +:+ PyStr.of_int e
  end.

(** Python's [sqlite3] accepts [None], [int] (also [bool]), [float] and
    [str]; a [list] or [dict] is refused, and so is an [int] that does
    not fit 64 bits.  NaN is bound as NULL. *)
Definition bind_json (v : option Json.json) : result param :=
  match v with
  | None | Some Json.JNull => Ok PNull
  | Some (Json.JBool b) => Ok (PInt (if b then 1 else 0))
  | Some (Json.JInt n) => if in_int64 n then Ok (PInt n) else Raise OverflowError
  | Some (Json.JFloat Json.FNaN) => Ok PNull
  | Some (Json.JFloat f) => Ok (PReal f)
  | Some (Json.JStr s) => Ok (PText s)
  | Some (Json.JArr _) | Some (Json.JObj _) => Raise ProgrammingError
  end.

Definition bind_str (v : option string) : param :=
  match v with None => PNull | Some s => PText s end.

Definition bind_int (v : option Z) : result param :=
  match v with
  | None => Ok PNull
  | Some n => if in_int64 n then Ok (PInt n) else Raise OverflowError
  end.

(** The value stored for a bound parameter in a column of the given
    affinity.  TEXT turns numbers into their text.  To its one INTEGER
    column the program binds an [int] or [None] only, which INTEGER
    leaves as they are. *)
Definition store (a : affinity) (p : param) : sqlval :=
  match p, a with
  | PNull, _ => SqlNull
  | PInt n, TEXT => SqlText (PyStr.of_int n)
  | PInt n, INTEGER => SqlInt n
  | PReal f, _ => SqlText (float_text f)
  | PText s, _ => SqlText s
  end.

(** *** Statements *)

(** CREATE TABLE IF NOT EXISTS. *)
Definition create_table_if_not_exists (cols : list column) (db : option table)
  : table :=
  match db with
  | Some t => t
  | None => Table cols [] 0
  end.

(** ALTER TABLE ... ADD COLUMN: a duplicate column name is an
    [OperationalError]; otherwise the column is appended and reads NULL
    in every existing row. *)
Definition alter_table_add_column (c : column) (t : table) : result table :=
  if has_column (col_name c) t then Raise OperationalError
  else Ok (Table (tbl_columns t ++ [c])
                 ((fun row => row ++ [SqlNull]) <$> tbl_rows t)
                 (tbl_seq t)).

(** Preparing a statement fails when it names a column the table lacks. *)
Definition prepare (names : list string) (t : table) : result unit :=
  if forallb (fun n => has_column n t) names then Ok tt
  else Raise OperationalError.

Fixpoint lookup_param (name : string) (names : list string) (ps : list param)
  : option param :=
  match names, ps with
  | n :: names', p :: ps' =>
      if same_name name n then Some p else lookup_param name names' ps'
  | _, _ => None
  end.

Definition is_null (v : sqlval) : bool :=
  match v with SqlNull => true | _ => false end.

(** The row an INSERT builds: a named column takes its parameter under
    the column's affinity, any other column its default. *)
Definition new_row (names : list string) (ps : list param) (rowid : Z)
    (now : string) (cols : list column) : list sqlval :=
  (fun c =>
     match lookup_param (col_name c) names ps with
     | Some p => store (col_affinity c) p
     | None =>
         match col_default c with
         | DefaultNull => SqlNull
         | Autoincrement => SqlInt rowid
         | CurrentTimestamp => SqlText now
         end
     end) <$> cols.

Fixpoint violates_notnull (cols : list column) (row : list sqlval) : bool :=
  match cols, row with
  | c :: cols', v :: row' =>
      (col_notnull c && is_null v) || violates_notnull cols' row'
  | _, _ => false
  end.

(** Executing INSERT INTO vocab (names) VALUES (ps) at time [now]: the
    rowid is one more than the largest ever used (and must fit 63 bits),
    a NULL in a NOT NULL column is an [IntegrityError], and the row goes
    after all others. *)
Definition insert_into (names : list string) (ps : list param) (now : string)
    (t : table) : result table :=
  let rowid := tbl_seq t + 1 in
  if negb (rowid <? 2 ^ 63) then Raise OperationalError
  else
    let row := new_row names ps rowid now (tbl_columns t) in
    if violates_notnull (tbl_columns t) row then Raise IntegrityError
    else Ok (Table (tbl_columns t) (tbl_rows t ++ [row]) rowid).

(** The cell a SELECT reads; a column past the end of a row reads NULL. *)
Definition read (cols : list column) (row : list sqlval) (name : string)
  : sqlval :=
  default SqlNull (cell cols name row).

(** SELECT names FROM rows. *)
Definition project (names : list string) (cols : list column)
    (rows : list (list sqlval)) : list (list sqlval) :=
  (fun row => read cols row <$> names) <$> rows.

(** The key of ORDER BY id: [id] is INTEGER PRIMARY KEY, so every row
    holds an integer there. *)
Definition rowid_key (cols : list column) (row : list sqlval) : Z :=
  match read cols row "id" with
  | SqlInt n => n
  | _ => 0
  end.

Definition id_desc (cols : list column) : relation (list sqlval) :=
  fun r1 r2 => rowid_key cols r2 <= rowid_key cols r1.

#[global] Instance id_desc_dec cols : RelDecision (id_desc cols).
Proof. intros r1 r2. unfold id_desc. apply _. Defined.

(** ORDER BY id DESC. *)
Definition order_by_id_desc (cols : list column) (rows : list (list sqlval))
  : list (list sqlval) :=
  merge_sort (id_desc cols) rows.

Definition key_asc {A : Type} : relation (Z * A) :=
  fun a b => a.1 <= b.1.

#[global] Instance key_asc_dec {A : Type} : RelDecision (@key_asc A).
Proof. intros a b. unfold key_asc. apply _. Defined.

(** ORDER BY RANDOM(): the [i]-th row is sorted under the [i]-th value
    RANDOM() returns. *)
Definition order_by_random {A : Type} (random : nat -> Z) (rows : list A)
  : list A :=
  snd <$> merge_sort key_asc (zip (random <$> seq 0 (length rows)) rows).

(** LIMIT n: a negative [n] is no limit. *)
Definition limit {A : Type} (n : Z) (rows : list A) : list A :=
  if n <? 0 then rows else take (Z.to_nat n) rows.

(** WHERE difficulty = d, for an integer [d]: NULL and text never match. *)
Definition difficulty_is (cols : list column) (d : Z) (row : list sqlval)
  : Prop :=
  read cols row "difficulty" = SqlInt d.

#[global] Instance difficulty_is_dec cols d row : Decision (difficulty_is cols d row).
Proof. unfold difficulty_is. apply _. Defined.

End Sqlite.

(** ** Python operations on decoded JSON *)

Module Py.
Import Json.

(** [float(literal) == 0.0]: the literal has no non-zero digit, or its
    value is at most 2^-1075 and rounds to zero. *)
Definition float_is_zero (f : float_lit) : bool :=
  match f with
  | FNaN | FInfinity _ => false
  | FDec _ i fr e =>
      let m := digits_to_Z (i +:+ fr) in
      let k := e - Z.of_nat (String.length fr) in
      (m =? 0) || ((k <? 0) && (m * 2 ^ 1075 <=? 10 ^ (- k)))
  end.

(** [bool(v)]. *)
Definition truthy (v : json) : bool :=
  match v with
  | JNull => false
  | JBool b => b
  | JInt n => negb (n =? 0)
  | JFloat f => negb (float_is_zero f)
  | JStr s => PyStr.truthy s
  | JArr l => match l with [] => false | _ => true end
  | JObj d => match d with [] => false | _ => true end
  end.

Fixpoint chars (s : string) : list json :=
  match s with
  | EmptyString => []
  | String c r => JStr (String c EmptyString) :: chars r
  end.

(** [for it in v]: a list gives its elements, a dict its keys, a str its
    characters (one per byte here); nothing else can be iterated. *)
Definition iter (v : json) : result (list json) :=
  match v with
  | JArr l => Ok l
  | JObj d => Ok ((fun kv => JStr kv.1) <$> d)
  | JStr s => Ok (chars s)
  | _ => Raise TypeError
  end.

(** [len(v)]. *)
Definition len (v : json) : result nat := length <$> iter v.

(** [v.get(k)], which only a dict has; [None] is Python's [None]. *)
Definition get (v : json) (k : string) : result (option json) :=
  match v with
  | JObj d => Ok (dict_get k d)
  | _ => Raise AttributeError
  end.

(** [v[k]] for a str [k]. *)
Definition subscript (v : json) (k : string) : result json :=
  match v with
  | JObj d =>
      match dict_get k d with
      | Some x => Ok x
      | None => Raise (KeyError k)
      end
  | _ => Raise TypeError
  end.

(** [(x or "").strip().lower()] for [x = v.get(k)]: a false [x] gives the
    empty string, a true [x] must be a str to have [strip]. *)
Definition normalized_or_empty (x : option json) : result string :=
  match x with
  | None => Ok EmptyString
  | Some v =>
      if truthy v then
        match v with
        | JStr s => Ok (PyStr.lower (PyStr.strip s))
        | _ => Raise AttributeError
        end
      else Ok EmptyString
  end.

End Py.

(** ** The world the program runs in *)

(** [st.session_state]: each key is absent ([None]) or holds a value. *)
Record session_state : Type := SessionState {
  vocab_history : option (gmap string (gset string));
  phrasal_history : option (gmap Z (gset string));
  last_vocab_items : option Json.json;
  last_vocab_topic : option string;
  last_vocab_difficulty : option Z;
  last_phrasal_items : option Json.json;
  last_phrasal_difficulty : option Z
}.

Definition empty_session : session_state :=
  SessionState None None None None None None None.

Inductive event : Type :=
| EvConnect                     (* sqlite3.connect(DB_PATH) *)
| EvCommit                      (* conn.commit() *)
| EvClose                       (* conn.close() *)
| EvRequest (model temperature prompt : string).
                                (* client.chat.completions.create(...) *)

(** The committed content of [vocab.db] ([None]: no [vocab] table), the
    session state, and the effects so far, latest first. *)
Record world : Type := World {
  db : option Sqlite.table;
  session : session_state;
  log : list event
}.

Definition emit (e : event) (w : world) : world :=
  World (db w) (session w) (e :: log w).

Definition with_db (t : Sqlite.table) (w : world) : world :=
  World (Some t) (session w) (log w).

Definition with_session (s : session_state) (w : world) : world :=
  World (db w) s (log w).

(** What the program reads from outside. *)
Record oracle : Type := Oracle {
  getenv_api_key : option string;   (* os.getenv("OPENAI_API_KEY") *)
  randint : Z -> Z -> Z;            (* random.randint(a, b) *)
  reply : string -> result string;  (* the content of the model's reply to a prompt *)
  clock : nat -> string;            (* CURRENT_TIMESTAMP at the i-th INSERT of a call *)
  sql_random : nat -> Z             (* RANDOM() for the i-th row of a query *)
}.

(** ** Database functions *)

Import Sqlite.

(** The columns of CREATE TABLE IF NOT EXISTS vocab. *)
Definition vocab_columns : list column :=
  [ Column "id" INTEGER false Autoincrement;
    Column "word" TEXT true DefaultNull;
    Column "meaning_en" TEXT false DefaultNull;
    Column "meaning_zh" TEXT false DefaultNull;
    Column "example" TEXT false DefaultNull;
    Column "topic" TEXT false DefaultNull;
    Column "tag" TEXT false DefaultNull;
    Column "difficulty" INTEGER false DefaultNull;
    Column "created_at" TEXT false CurrentTimestamp ].

(** The column of ALTER TABLE vocab ADD COLUMN difficulty INTEGER. *)
Definition difficulty_column : column :=
  Column "difficulty" INTEGER false DefaultNull.

Definition init_db (w : world) : result unit * world :=
  let w1 := emit EvConnect w in
  let t := create_table_if_not_exists vocab_columns (db w1) in
  match alter_table_add_column difficulty_column t with
  | Ok t' => (Ok tt, emit EvClose (emit EvCommit (with_db t' w1)))
  | Raise OperationalError => (Ok tt, emit EvClose (emit EvCommit (with_db t w1)))
  | Raise e => (Raise e, with_db t w1)
  end.

Definition insert_columns : list string :=
  ["word"; "meaning_en"; "meaning_zh"; "example"; "topic"; "tag"; "difficulty"].

(** One [c.execute(INSERT ...)]: the arguments are evaluated, the
    statement is prepared, the parameters are bound in order, the row is
    inserted. *)
Definition execute_insert (it : Json.json) (topic tag : option string)
    (difficulty : option Z) (now : string) (conn : option table) : result table :=
  word ← Py.get it "word";
  meaning_en ← Py.get it "meaning_en";
  meaning_zh ← Py.get it "meaning_zh";
  example ← Py.get it "example";
  t ← match conn with Some t => Ok t | None => Raise OperationalError end;
  _ ← prepare insert_columns t;
  p1 ← bind_json word;
  p2 ← bind_json meaning_en;
  p3 ← bind_json meaning_zh;
  p4 ← bind_json example;
  p7 ← bind_int difficulty;
  insert_into insert_columns [p1; p2; p3; p4; bind_str topic; bind_str tag; p7] now t.

(** The [for it in items] loop, on the connection's uncommitted view of
    the table; [i] counts the statements executed so far. *)
Fixpoint insert_loop (clk : nat -> string) (topic tag : option string)
    (difficulty : option Z) (items : list Json.json) (i : nat)
    (conn : option table) : result (option table) :=
  match items with
  | [] => Ok conn
  | it :: items' =>
      t ← execute_insert it topic tag difficulty (clk i) conn;
      insert_loop clk topic tag difficulty items' (S i) (Some t)
  end.

(** An exception leaves the function before [conn.commit()]: what the
    connection inserted is rolled back with it, and [vocab.db] keeps its
    committed content.  The connection itself stays open, which the log
    shows as a connect without a close; the write lock it keeps until
    Python collects it is not modelled. *)
Definition insert_vocab_items (o : oracle) (items : Json.json)
    (topic tag : option string) (difficulty : option Z) (w : world)
    : result unit * world :=
  if negb (Py.truthy items) then (Ok tt, w)
  else
    let w1 := emit EvConnect w in
    match l ← Py.iter items; insert_loop (clock o) topic tag difficulty l O (db w1) with
    | Raise e => (Raise e, w1)
    | Ok conn =>
        (Ok tt, emit EvClose (emit EvCommit (World conn (session w1) (log w1))))
    end.

Definition select_columns : list string :=
  ["id"; "word"; "meaning_en"; "meaning_zh"; "example"; "topic"; "tag";
   "difficulty"; "created_at"].

Definition get_random_items (o : oracle) (lim : Z) (difficulty : option Z)
    (w : world) : result (list (list sqlval)) * world :=
  let w1 := emit EvConnect w in
  match
    t ← match db w1 with Some t => Ok t | None => Raise OperationalError end;
    _ ← prepare select_columns t;
    match difficulty with
    | None =>
        _ ← bind_int (Some lim);
        Ok (project select_columns (tbl_columns t)
              (limit lim (order_by_random (sql_random o) (tbl_rows t))))
    | Some d =>
        _ ← bind_int (Some d);
        _ ← bind_int (Some lim);
        Ok (project select_columns (tbl_columns t)
              (limit lim (order_by_random (sql_random o)
                            (filter (difficulty_is (tbl_columns t) d) (tbl_rows t)))))
    end
  with
  | Raise e => (Raise e, w1)
  | Ok rows => (Ok rows, emit EvClose w1)
  end.

Definition get_recent_items (lim : Z) (w : world)
    : result (list (list sqlval)) * world :=
  let w1 := emit EvConnect w in
  match
    t ← match db w1 with Some t => Ok t | None => Raise OperationalError end;
    _ ← prepare select_columns t;
    _ ← bind_int (Some lim);
    Ok (project select_columns (tbl_columns t)
          (limit lim (order_by_id_desc (tbl_columns t) (tbl_rows t))))
  with
  | Raise e => (Raise e, w1)
  | Ok rows => (Ok rows, emit EvClose w1)
  end.

(** ** Request functions *)

Definition lines (l : list string) : string := PyStr.join PyStr.newline l.

(** [sorted({w.strip() for w in forbidden_words if w})]. *)
Definition unique_forbidden (forbidden_words : list string) : list string :=
  PyStr.sorted
    (elements (list_to_set (PyStr.strip <$> filter (fun w => PyStr.truthy w = true)
                                              forbidden_words) : gset string)).

(** [", ".join(unique[:200])]. *)
Definition joined_forbidden (unique : list string) : string :=
  PyStr.join ", " (take 200 unique).

Definition vocab_forbidden_clause (joined : string) : string :=
  lines
    [ EmptyString;
      "Important:";
      "- Do NOT include any of these previously generated words or phrases (avoid exact matches):";
      "  " +:+ joined;
      "- Prefer new vocabulary rather than repeating the same items.";
      EmptyString ].

Definition vocab_forbidden_block (forbidden_words : list string) : string :=
  match forbidden_words with
  | [] => EmptyString
  | _ =>
      match unique_forbidden forbidden_words with
      | [] => EmptyString
      | unique => vocab_forbidden_clause (joined_forbidden unique)
      end
  end.

Definition vocab_prompt (topic : string) (num_items difficulty : Z)
    (forbidden_block : string) (random_seed : Z) : string :=
  lines
    [ EmptyString;
      "You are an English tutor for a Chinese ESL student in the United States.";
      EmptyString;
      "Generate " +:+ PyStr.of_int num_items +:+ " daily-life English words or short phrases";
      "for the topic " +:+ PyStr.dquote +:+ topic +:+ PyStr.dquote
        +:+ ", with rarity level " +:+ PyStr.of_int difficulty +:+ " on a 1–5 scale:";
      EmptyString;
      "1 = very common, basic, used every day";
      "2 = common but slightly more specific";
      "3 = moderately uncommon but useful";
      "4 = uncommon but natural in real conversations";
      "5 = rare/advanced but practical and expressive";
      EmptyString;
      forbidden_block;
      EmptyString;
      "Additional instructions:";
      "- Every time this request is called, you MUST generate a NEW and DIFFERENT";
      "  set of vocabulary, even if the topic and difficulty are the same.";
      "- Use the random seed below to diversify your choice.";
      "- Avoid only the most obvious textbook examples; explore more natural daily language.";
      EmptyString;
      "Random seed for this generation: " +:+ PyStr.of_int random_seed;
      EmptyString;
      "Return ONLY valid JSON in this exact format (no explanation, no markdown):";
      EmptyString;
      "[";
      "  {";
      "    " +:+ PyStr.dquote +:+ "word" +:+ PyStr.dquote +:+ ": "
        +:+ PyStr.dquote +:+ "checkup" +:+ PyStr.dquote +:+ ",";
      "    " +:+ PyStr.dquote +:+ "meaning_en" +:+ PyStr.dquote +:+ ": "
        +:+ PyStr.dquote +:+ "a medical examination to see if you are healthy"
        +:+ PyStr.dquote +:+ ",";
      "    " +:+ PyStr.dquote +:+ "meaning_zh" +:+ PyStr.dquote +:+ ": "
        +:+ PyStr.dquote +:+ "体检；检查身体" +:+ PyStr.dquote +:+ ",";
      "    " +:+ PyStr.dquote +:+ "example" +:+ PyStr.dquote +:+ ": "
        +:+ PyStr.dquote +:+ "I scheduled a checkup with my doctor for next week."
        +:+ PyStr.dquote;
      "  }";
      "]";
      EmptyString ].

(** The decoding both request functions end with:
    [json.loads(resp.choices[0].message.content.strip())]. *)
Definition decode_reply (content : string) : result Json.json :=
  match Json.loads (PyStr.strip content) with
  | Some v => Ok v
  | None => Raise JSONDecodeError
  end.

Definition call_gpt_for_vocab (o : oracle) (topic : string)
    (num_items difficulty : Z) (forbidden_words : list string) (w : world)
    : result Json.json * world :=
  let random_seed := randint o 1 1000000 in
  let forbidden_block := vocab_forbidden_block forbidden_words in
  let prompt := vocab_prompt topic num_items difficulty forbidden_block random_seed in
  let w1 := emit (EvRequest "gpt-4.1" "0.8" prompt) w in
  (content ← reply o prompt; decode_reply content, w1).

Definition phrasal_forbidden_clause (joined : string) : string :=
  lines
    [ EmptyString;
      "Important:";
      "- Do NOT include any of these previously generated phrasal verbs (avoid exact matches):";
      "  " +:+ joined;
      "- Prefer new phrasal verbs rather than repeating the same items.";
      EmptyString ].

Definition phrasal_forbidden_block (forbidden_words : list string) : string :=
  match forbidden_words with
  | [] => EmptyString
  | _ =>
      match unique_forbidden forbidden_words with
      | [] => EmptyString
      | unique => phrasal_forbidden_clause (joined_forbidden unique)
      end
  end.

Definition phrasal_prompt (num_items difficulty : Z) (forbidden_block : string)
    (random_seed : Z) : string :=
  lines
    [ EmptyString;
      "Generate " +:+ PyStr.of_int num_items +:+ " useful English phrasal verbs used in daily life,";
      "with rarity level " +:+ PyStr.of_int difficulty +:+ " (1 = common/basic, 5 = rare/advanced).";
      EmptyString;
      "Definitions:";
      "1 = very common and basic (used every day)";
      "2 = common but slightly more advanced";
      "3 = moderately uncommon but helpful for fluency";
      "4 = uncommon but expressive, more nuanced";
      "5 = rare, advanced but still practical phrasal verbs";
      EmptyString;
      forbidden_block;
      EmptyString;
      "Additional instructions:";
      "- Every time this request is called, you MUST generate a NEW and DIFFERENT";
      "  set of phrasal verbs, even with the same difficulty level.";
      "- Use the random seed below to diversify your choice.";
      "- Avoid only textbook-style examples; focus on natural spoken English.";
      EmptyString;
      "Random seed for this generation: " +:+ PyStr.of_int random_seed;
      EmptyString;
      "Return ONLY valid JSON in this exact format (no explanation, no markdown):";
      EmptyString;
      "[";
      "  {";
      "    " +:+ PyStr.dquote +:+ "word" +:+ PyStr.dquote +:+ ": "
        +:+ PyStr.dquote +:+ "dress up" +:+ PyStr.dquote +:+ ",";
      "    " +:+ PyStr.dquote +:+ "meaning_en" +:+ PyStr.dquote +:+ ": "
        +:+ PyStr.dquote +:+ "to put on nice or formal clothes" +:+ PyStr.dquote +:+ ",";
      "    " +:+ PyStr.dquote +:+ "meaning_zh" +:+ PyStr.dquote +:+ ": "
        +:+ PyStr.dquote +:+ "盛装打扮" +:+ PyStr.dquote +:+ ",";
      "    " +:+ PyStr.dquote +:+ "example" +:+ PyStr.dquote +:+ ": "
        +:+ PyStr.dquote +:+ "We have to dress up for the wedding this weekend."
        +:+ PyStr.dquote;
      "  }";
      "]";
      EmptyString ].

Definition call_gpt_for_phrasal_verbs (o : oracle) (num_items difficulty : Z)
    (forbidden_words : list string) (w : world) : result Json.json * world :=
  let random_seed := randint o 1 1000000 in
  let forbidden_block := phrasal_forbidden_block forbidden_words in
  let prompt := phrasal_prompt num_items difficulty forbidden_block random_seed in
  let w1 := emit (EvRequest "gpt-4.1" "0.7" prompt) w in
  (content ← reply o prompt; decode_reply content, w1).

(** ** The history kept per dedup context *)

Section History.
Context `{Countable K}.

(** [sorted(history.get(key, set()))]: the forbidden list of a context. *)
Definition forbidden_words_of (history : gmap K (gset string)) (key : K)
  : list string :=
  PyStr.sorted (elements (default ∅ (history !! key))).

(** The loop [for it in items: w = (it.get("word") or "").strip().lower();
    if w: hist_set.add(w)] on the elements of [items].  It returns the set
    as the loop leaves it, and the exception that ended it, if any. *)
Fixpoint absorb (items : list Json.json) (hist_set : gset string)
  : gset string * option exn :=
  match items with
  | [] => (hist_set, None)
  | it :: items' =>
      match x ← Py.get it "word"; Py.normalized_or_empty x with
      | Raise e => (hist_set, Some e)
      | Ok w =>
          absorb items' (if PyStr.truthy w then {[w]} ∪ hist_set else hist_set)
      end
  end.

(** [hist_set = history.get(key, set())], the loop, then
    [history[key] = hist_set].  The set of a key that is present is the
    object the loop adds to, so what was added before an exception stays
    in [history]; a fresh set is lost with the exception. *)
Definition update_history (key : K) (items : Json.json)
    (history : gmap K (gset string)) : gmap K (gset string) * option exn :=
  match Py.iter items with
  | Raise e => (history, Some e)
  | Ok l =>
      match absorb l (default ∅ (history !! key)) with
      | (hist_set, None) => (<[key := hist_set]> history, None)
      | (hist_set, Some e) =>
          (match history !! key with
           | Some _ => <[key := hist_set]> history
           | None => history
           end, Some e)
      end
  end.

End History.

(** ** Pages *)

(** How a run of a page ends: at its last statement, at a [return] after
    [st.error], or with an uncaught exception. *)
Inductive outcome : Type :=
| Finished
| Stopped
| Raised (e : exn).

(** The widgets of a generation page as the run reads them: the text input
    (vocabulary page only), the two sliders, the generate button, the
    save-all button and the add button of the [i]-th item. *)
Record widgets : Type := Widgets {
  ui_topic : string;
  ui_num_items : Z;
  ui_difficulty : Z;
  ui_generate : bool;
  ui_save_all : bool;
  ui_add : nat -> bool
}.


Definition set_vocab_history (h : gmap string (gset string)) (s : session_state)
  : session_state :=
  SessionState (Some h) (phrasal_history s) (last_vocab_items s)
    (last_vocab_topic s) (last_vocab_difficulty s) (last_phrasal_items s)
    (last_phrasal_difficulty s).

Definition set_phrasal_history (h : gmap Z (gset string)) (s : session_state)
  : session_state :=
  SessionState (vocab_history s) (Some h) (last_vocab_items s)
    (last_vocab_topic s) (last_vocab_difficulty s) (last_phrasal_items s)
    (last_phrasal_difficulty s).

Definition set_last_vocab (items : Json.json) (topic : string) (difficulty : Z)
    (s : session_state) : session_state :=
  SessionState (vocab_history s) (phrasal_history s) (Some items) (Some topic)
    (Some difficulty) (last_phrasal_items s) (last_phrasal_difficulty s).

Definition set_last_phrasal (items : Json.json) (difficulty : Z)
    (s : session_state) : session_state :=
  SessionState (vocab_history s) (phrasal_history s) (last_vocab_items s)
    (last_vocab_topic s) (last_vocab_difficulty s) (Some items) (Some difficulty).

(** The body of the display loop for one item: the four fields are read,
    and a clicked add button saves the item alone. *)
Definition show_item (o : oracle) (topic tag : string) (difficulty : Z)
    (clicked : bool) (it : Json.json) (w : world) : result unit * world :=
  match
    _ ← Py.subscript it "word";
    _ ← Py.subscript it "meaning_en";
    _ ← Py.subscript it "meaning_zh";
    _ ← Py.subscript it "example";
    Ok tt
  with
  | Raise e => (Raise e, w)
  | Ok _ =>
      if clicked then
        insert_vocab_items o (Json.JArr [it]) (Some topic) (Some tag)
          (Some difficulty) w
      else (Ok tt, w)
  end.

(** [for i, it in enumerate(items, start=1)]. *)
Fixpoint show_items (o : oracle) (topic tag : string) (difficulty : Z)
    (add : nat -> bool) (items : list Json.json) (i : nat) (w : world)
    : result unit * world :=
  match items with
  | [] => (Ok tt, w)
  | it :: items' =>
      match show_item o topic tag difficulty (add i) it w with
      | (Raise e, w') => (Raise e, w')
      | (Ok _, w') => show_items o topic tag difficulty add items' (S i) w'
      end
  end.

(** What both pages do with the last generated batch: show it, save single
    items, save all. *)
Definition show_batch (o : oracle) (ui : widgets) (items : Json.json)
    (topic tag : string) (difficulty : Z) (w : world) : outcome * world :=
  match Py.len items with
  | Raise e => (Raised e, w)
  | Ok _ =>
      match
        match Py.iter items with
        | Raise e => (Raise e, w)
        | Ok l => show_items o topic tag difficulty (ui_add ui) l 1 w
        end
      with
      | (Raise e, w') => (Raised e, w')
      | (Ok _, w') =>
          if ui_save_all ui then
            match insert_vocab_items o items (Some topic) (Some tag)
                    (Some difficulty) w' with
            | (Raise e, w'') => (Raised e, w'')
            | (Ok _, w'') => (Finished, w'')
            end
          else (Finished, w')
      end
  end.

Definition show_vocab (o : oracle) (ui : widgets) (w : world) : outcome * world :=
  match last_vocab_items (session w) with
  | None => (Finished, w)
  | Some items =>
      if Py.truthy items then
        let topic := default (ui_topic ui) (last_vocab_topic (session w)) in
        let difficulty := default (ui_difficulty ui) (last_vocab_difficulty (session w)) in
        show_batch o ui items topic ("daily_vocab_" +:+ PyStr.of_int difficulty)
          difficulty w
      else (Finished, w)
  end.

Definition api_key_set (o : oracle) : bool :=
  match getenv_api_key o with
  | Some k => PyStr.truthy k
  | None => false
  end.

Definition page_generate_vocab (o : oracle) (ui : widgets) (w : world)
    : outcome * world :=
  let topic := ui_topic ui in
  let normalized_topic := PyStr.lower (PyStr.strip topic) in
  let history := default ∅ (vocab_history (session w)) in
  let w0 := with_session (set_vocab_history history (session w)) w in
  let forbidden_words := forbidden_words_of history normalized_topic in
  if ui_generate ui then
    if negb (api_key_set o) then (Stopped, w0)
    else
      match call_gpt_for_vocab o topic (ui_num_items ui) (ui_difficulty ui)
              forbidden_words w0 with
      | (Raise e, w1) => (Stopped, w1)
      | (Ok items, w1) =>
          let w2 := with_session
                      (set_last_vocab items topic (ui_difficulty ui) (session w1)) w1 in
          match update_history normalized_topic items history with
          | (history', Some e) =>
              (Raised e, with_session (set_vocab_history history' (session w2)) w2)
          | (history', None) =>
              show_vocab o ui
                (with_session (set_vocab_history history' (session w2)) w2)
          end
      end
  else show_vocab o ui w0.

Definition show_phrasal (o : oracle) (ui : widgets) (w : world) : outcome * world :=
  match last_phrasal_items (session w) with
  | None => (Finished, w)
  | Some items =>
      if Py.truthy items then
        let difficulty := default (ui_difficulty ui) (last_phrasal_difficulty (session w)) in
        show_batch o ui items "phrasal_verbs" ("phrasal_" +:+ PyStr.of_int difficulty)
          difficulty w
      else (Finished, w)
  end.

Definition page_generate_phrasal_verbs (o : oracle) (ui : widgets) (w : world)
    : outcome * world :=
  let difficulty := ui_difficulty ui in
  let history := default ∅ (phrasal_history (session w)) in
  let w0 := with_session (set_phrasal_history history (session w)) w in
  let forbidden_words := forbidden_words_of history difficulty in
  if ui_generate ui then
    if negb (api_key_set o) then (Stopped, w0)
    else
      match call_gpt_for_phrasal_verbs o (ui_num_items ui) difficulty
              forbidden_words w0 with
      | (Raise e, w1) => (Stopped, w1)
      | (Ok items, w1) =>
          let w2 := with_session (set_last_phrasal items difficulty (session w1)) w1 in
          match update_history difficulty items history with
          | (history', Some e) =>
              (Raised e, with_session (set_phrasal_history history' (session w2)) w2)
          | (history', None) =>
              show_phrasal o ui
                (with_session (set_phrasal_history history' (session w2)) w2)
          end
      end
  else show_phrasal o ui w0.

(** ** Export and the remaining pages *)

(** The program's view of the machine: the [world] and the files of the
    working directory, each under its plain name (a name without a
    directory part, so that two names are two files) with its content. *)
Record app_state : Type := AppState {
  app_world : world;
  app_files : gmap string string
}.

Definition with_world (w : world) (a : app_state) : app_state :=
  AppState w (app_files a).

(** The key of ORDER BY id, ascending. *)
Definition id_asc (cols : list column) : relation (list sqlval) :=
  fun r1 r2 => rowid_key cols r1 <= rowid_key cols r2.

#[global] Instance id_asc_dec cols : RelDecision (id_asc cols).
Proof. intros r1 r2. unfold id_asc. apply _. Defined.

(** ORDER BY id. *)
Definition order_by_id (cols : list column) (rows : list (list sqlval))
  : list (list sqlval) :=
  merge_sort (id_asc cols) rows.

(** What [csv.writer] makes of a cell: [None] is the empty text, an [int]
    its decimal text. *)
Definition csv_text (v : sqlval) : string :=
  match v with
  | SqlNull => EmptyString
  | SqlInt n => PyStr.of_int n
  | SqlText s => s
  end.

(** The characters that make the writer quote a field: the delimiter, the
    quote character, CR and LF. *)
Definition csv_special (c : ascii) : bool :=
  let n := nat_of_ascii c in
  (n =? 44)%nat || (n =? 34)%nat || (n =? 13)%nat || (n =? 10)%nat.

Fixpoint csv_needs_quotes (s : string) : bool :=
  match s with
  | EmptyString => false
  | String c r => csv_special c || csv_needs_quotes r
  end.

(** Every quote character is written twice. *)
Fixpoint csv_double_quotes (s : string) : string :=
  match s with
  | EmptyString => EmptyString
  | String c r =>
      if (nat_of_ascii c =? 34)%nat then String c (String c (csv_double_quotes r))
      else String c (csv_double_quotes r)
  end.

(** A field under QUOTE_MINIMAL. *)
Definition csv_field (s : string) : string :=
  if csv_needs_quotes s then PyStr.dquote +:+ csv_double_quotes s +:+ PyStr.dquote
  else s.

Definition crlf : string := String "013"%char (String "010"%char EmptyString).

(** [writer.writerow(fields)] in the excel dialect: the fields between
    commas, CR LF at the end; a row of one empty field is a pair of quotes. *)
Definition csv_row (fields : list string) : string :=
  match fields with
  | [EmptyString] => PyStr.dquote +:+ PyStr.dquote +:+ crlf
  | _ => PyStr.join "," (csv_field <$> fields) +:+ crlf
  end.

Definition export_columns : list string :=
  ["word"; "meaning_en"; "meaning_zh"; "example"; "topic"; "tag"; "difficulty";
   "created_at"].

Definition export_headers : list string :=
  ["word"; "meaning_en"; "meaning_zh"; "example"; "topic"; "tag"; "difficulty";
   "created_at"].

(** The text [export_to_csv] writes for the rows it selected. *)
Definition csv_file (rows : list (list sqlval)) : string :=
  csv_row export_headers
  +:+ PyStr.join EmptyString ((fun row => csv_row (csv_text <$> row)) <$> rows).

(** The query runs and the connection is closed before the file is opened:
    an exception of the query leaves the files alone.  [open] is modelled
    for the plain name of a file that can be written in the working
    directory, which is what the program's one call, with the default name,
    passes; a name that [open] refuses, or that reaches a file by another
    path, is outside the model. *)
Definition export_to_csv (filename : string) (a : app_state)
    : result string * app_state :=
  let w1 := emit EvConnect (app_world a) in
  match
    t ← match db w1 with Some t => Ok t | None => Raise OperationalError end;
    _ ← prepare ("id" :: export_columns) t;
    Ok (project export_columns (tbl_columns t)
          (order_by_id (tbl_columns t) (tbl_rows t)))
  with
  | Raise e => (Raise e, with_world w1 a)
  | Ok rows =>
      (Ok filename,
       AppState (emit EvClose w1) (<[filename := csv_file rows]> (app_files a)))
  end.

(** The widgets of the review page: the slider, the text the selectbox
    returns, the button. *)
Record review_widgets : Type := ReviewWidgets {
  rv_num_items : Z;
  rv_difficulty_choice : string;
  rv_start : bool
}.

Definition review_options : list string := ["全部"; "1"; "2"; "3"; "4"; "5"].

(** [int(difficulty_choice)] on a text of decimal digits, which is what the
    selectbox returns when it does not return "全部". *)
Definition int_of_choice (choice : string) : Z := Json.digits_to_Z choice.

(** The loop over the fetched rows unpacks each row into nine names and
    displays them; a row of the nine selected columns always unpacks, so the
    loop has no effect on the state and raises nothing. *)
Definition page_review_quiz (o : oracle) (ui : review_widgets) (w : world)
    : outcome * world :=
  if rv_start ui then
    let diff :=
      if decide (rv_difficulty_choice ui = "全部") then None
      else Some (int_of_choice (rv_difficulty_choice ui)) in
    match get_random_items o (rv_num_items ui) diff w with
    | (Raise e, w1) => (Raised e, w1)
    | (Ok rows, w1) =>
        match rows with
        | [] => (Stopped, w1)
        | _ => (Finished, w1)
        end
    end
  else (Finished, w).

(** The widgets of the recent-and-export page: the slider and the export
    button. *)
Record recent_widgets : Type := RecentWidgets {
  rc_limit : Z;
  rc_export : bool
}.

Definition page_recent_and_export (ui : recent_widgets) (a : app_state)
    : outcome * app_state :=
  match get_recent_items (rc_limit ui) (app_world a) with
  | (Raise e, w1) => (Raised e, with_world w1 a)
  | (Ok rows, w1) =>
      if rc_export ui then
        match export_to_csv "vocab_export.csv" (with_world w1 a) with
        | (Raise e, a') => (Raised e, a')
        | (Ok _, a') => (Finished, a')
        end
      else (Finished, with_world w1 a)
  end.

(** The widgets of a run of the app: the page the sidebar radio returns and
    the widgets of the pages. *)
Record app_widgets : Type := AppWidgets {
  aw_page : string;
  aw_generate : widgets;
  aw_review : review_widgets;
  aw_recent : recent_widgets
}.

Definition lift_page (r : outcome * world) (a : app_state) : outcome * app_state :=
  (r.1, with_world r.2 a).

Definition main (o : oracle) (ui : app_widgets) (a : app_state)
    : outcome * app_state :=
  match init_db (app_world a) with
  | (Raise e, w1) => (Raised e, with_world w1 a)
  | (Ok _, w1) =>
      let page := aw_page ui in
      if decide (page = "生成生活场景词汇") then
        lift_page (page_generate_vocab o (aw_generate ui) w1) a
      else if decide (page = "生成动词短语") then
        lift_page (page_generate_phrasal_verbs o (aw_generate ui) w1) a
      else if decide (page = "复习 / 小测验") then
        lift_page (page_review_quiz o (aw_review ui) w1) a
      else if decide (page = "查看最近 & 导出 CSV") then
        page_recent_and_export (aw_recent ui) (with_world w1 a)
      else (Finished, with_world w1 a)
  end.

(** ** Notions used to state the properties *)

(** The migration step of [init_db] on an existing table. *)
Definition migrate (t : table) : table :=
  match alter_table_add_column difficulty_column t with
  | Ok t' => t'
  | Raise _ => t
  end.

(** The rows of the store, in the order they were inserted. *)
Definition store_rows (w : world) : list (list sqlval) :=
  match db w with
  | Some t => tbl_rows t
  | None => []
  end.

(** The stored entries with difficulty [d], in insertion order. *)
Definition matching_rows (d : Z) (t : table) : list (list sqlval) :=
  filter (difficulty_is (tbl_columns t) d) (tbl_rows t).

(** The id of an entry as a SELECT returns it: its first column. *)
Definition entry_id (row : list sqlval) : Z :=
  match row !! 0%nat with
  | Some (SqlInt n) => n
  | _ => 0
  end.

(** Strictly descending ids. *)
Definition id_gt : relation (list sqlval) :=
  fun r1 r2 => entry_id r2 < entry_id r1.

(** The cell stored for field [k] of an item that was inserted. *)
Definition stored_cell (it : Json.json) (k : string) : sqlval :=
  match Py.get it k with
  | Ok x => match bind_json x with Ok p => store TEXT p | Raise _ => SqlNull end
  | Raise _ => SqlNull
  end.

(** The entry of an item inserted under [id] at time [now]. *)
Definition stored_row (id : Z) (it : Json.json) (topic tag : option string)
    (difficulty : option Z) (now : string) : list sqlval :=
  [ SqlInt id;
    stored_cell it "word"; stored_cell it "meaning_en";
    stored_cell it "meaning_zh"; stored_cell it "example";
    store TEXT (bind_str topic); store TEXT (bind_str tag);
    match difficulty with Some n => SqlInt n | None => SqlNull end;
    SqlText now ].

(** The entries of a batch inserted after [total] others. *)
Definition stored_rows (o : oracle) (total : nat) (l : list Json.json)
    (topic tag : option string) (difficulty : option Z) : list (list sqlval) :=
  imap (fun j it => stored_row (Z.of_nat total + Z.of_nat j + 1) it topic tag
                      difficulty (clock o j)) l.

(** Rows of nine cells whose ids count up from [n]. *)
Fixpoint numbered (n : Z) (rows : list (list sqlval)) : Prop :=
  match rows with
  | [] => True
  | row :: rows' =>
      length row = 9%nat ∧ row !! 0%nat = Some (SqlInt n) ∧ numbered (n + 1) rows'
  end.

(** A store that [init_db] created and that only [insert_vocab_items] has
    written to. *)
Definition store_ok (t : table) : Prop :=
  tbl_columns t = vocab_columns ∧
  numbered 1 (tbl_rows t) ∧
  tbl_seq t = Z.of_nat (length (tbl_rows t)).

(** One call of [insert_vocab_items], and a sequence of calls. *)
Record insert_call : Type := InsertCall {
  call_oracle : oracle;
  call_items : Json.json;
  call_topic : option string;
  call_tag : option string;
  call_difficulty : option Z
}.

Definition run_insert (w : world) (c : insert_call) : world :=
  (insert_vocab_items (call_oracle c) (call_items c) (call_topic c) (call_tag c)
     (call_difficulty c) w).2.

Definition run_inserts (calls : list insert_call) (w : world) : world :=
  foldl run_insert w calls.



Definition item_fields : list string :=
  ["word"; "meaning_en"; "meaning_zh"; "example"].

(** The item is a dict whose four fields, where present, hold values that
    SQLite can bind. *)
Definition storable (it : Json.json) : Prop :=
  match it with
  | Json.JObj d => Forall (fun k => ∃ p, bind_json (Json.dict_get k d) = Ok p) item_fields
  | _ => False
  end.

(** The forbidden list the vocabulary page reads for a topic, and the one
    the phrasal-verb page reads for a difficulty. *)
Definition vocab_forbidden (topic : string) (w : world) : list string :=
  forbidden_words_of (default ∅ (vocab_history (session w)))
    (PyStr.lower (PyStr.strip topic)).

Definition phrasal_forbidden (difficulty : Z) (w : world) : list string :=
  forbidden_words_of (default ∅ (phrasal_history (session w))) difficulty.

(** Nothing of a batch has reached the store or the history: the rows, the
    forbidden list of every context and the last shown batches are those
    of [w]. *)
Definition nothing_merged (w w' : world) : Prop :=
  db w' = db w ∧
  (∀ topic, vocab_forbidden topic w' = vocab_forbidden topic w) ∧
  (∀ difficulty, phrasal_forbidden difficulty w' = phrasal_forbidden difficulty w) ∧
  last_vocab_items (session w') = last_vocab_items (session w) ∧
  last_phrasal_items (session w') = last_phrasal_items (session w).

(** The body of the history loop reads the item without raising. *)
Definition absorbable (it : Json.json) : Prop :=
  ∃ w, (x ← Py.get it "word"; Py.normalized_or_empty x) = Ok w.

(** Strictly ascending order on strings. *)
Definition string_lt : relation string := strict String.le.

(** A word as the history stores it: not empty, stripped, lower case. *)
Definition normalized_word (w : string) : Prop :=
  w ≠ EmptyString ∧ PyStr.strip w = w ∧ PyStr.lower w = w.

(** A history that holds normalized words only. *)
Definition normalized_history `{Countable K} (history : gmap K (gset string)) : Prop :=
  ∀ key X w, history !! key = Some X → w ∈ X → normalized_word w.

(** [part in text]. *)
Definition contains (text part : string) : Prop :=
  ∃ before after, text = before +:+ part +:+ after.


(** What the spec calls a sequence of well-formed items: a list whose
    every element is a dict that supplies [word]. *)
Definition well_formed_items (v : Json.json) : Prop :=
  ∃ l, v = Json.JArr l ∧
       Forall (fun it => ∃ d x, it = Json.JObj d ∧ Json.dict_get "word" d = Some x) l.

(** A scanner that, when it succeeds, leaves less text than it was given. *)
Definition consumes {A : Type} (R : string → option (A * string)) : Prop :=
  ∀ s x r, R s = Some (x, r) → (String.length r < String.length s)%nat.

(** The item supplies a [word] that SQLite stores as something other than
    NULL. *)
Definition word_supplied (it : Json.json) : Prop :=
  ∃ x p, Py.get it "word" = Ok x ∧ bind_json x = Ok p ∧ p ≠ PNull.

(** The display loop can read the four fields of the item. *)
Definition displayable (it : Json.json) : Prop :=
  Forall (fun k => ∃ x, Py.subscript it k = Ok x) item_fields.

(** The items whose add button was clicked, [i] being the number of the
    first item. *)
Fixpoint clicked (add : nat → bool) (i : nat) (l : list Json.json)
  : list Json.json :=
  match l with
  | [] => []
  | it :: l' => if add i then it :: clicked add (S i) l' else clicked add (S i) l'
  end.


(** The prompts of the requests in a log, the latest first, and the number
    of connections to the store. *)
Definition requests (l : list event) : list string :=
  omap (fun e => match e with EvRequest _ _ prompt => Some prompt | _ => None end) l.

Definition connections (l : list event) : nat :=
  length (omap (fun e => match e with EvConnect => Some tt | _ => None end) l).

(** The store can serve the queries once [init_db] has run: there is no
    table yet, or the table has the eight columns other than
    [difficulty]. *)
Definition usable_store (d : option table) : Prop :=
  match d with
  | None => True
  | Some t =>
      ∀ name, name ∈ select_columns → name ≠ "difficulty" →
              has_column name t = true
  end.

(** Both histories of the session hold normalized words only. *)
Definition session_normalized (w : world) : Prop :=
  normalized_history (default ∅ (vocab_history (session w))) ∧
  normalized_history (default ∅ (phrasal_history (session w))).

(** What every run of [main] keeps: a table, if there is one, that only
    inserts have written to, and normalized histories. *)
Definition app_ok (w : world) : Prop :=
  match db w with
  | None => True
  | Some t => store_ok t
  end ∧ session_normalized w.

(** Streamlit reruns [main] on every interaction, each run with its own
    widget values and its own replies from outside; the state a run leaves,
    also a run that raised, is the state the next run starts from. *)
Definition run_app (steps : list (oracle * app_widgets)) (a : app_state)
  : app_state :=
  foldl (fun a s => (main s.1 s.2 a).2) a steps.

(** The characters a JSON value can begin with. *)
Definition json_start (c : ascii) : bool :=
  bool_decide (c ∈ ["034"%char; "{"%char; "["%char; "n"%char; "t"%char; "f"%char;
                    "N"%char; "I"%char; "-"%char])
  || Json.is_digit c.

(** The connections of a log that were closed, and a log in which every
    connection was.  A call that raises leaves its connection open, and an
    open connection that has written keeps SQLite's write lock until
    Python collects it; the model has no lock, so what is stated of a
    write that succeeds is stated of a world without an open connection. *)
Definition closes (l : list event) : nat :=
  length (omap (fun e => match e with EvClose => Some tt | _ => None end) l).

Definition no_open_connection (l : list event) : Prop :=
  connections l = closes l.

(** A str that [sqlite3] can bind: one that UTF-8 can encode.  A lone
    surrogate, which [json.loads] makes of an escape and which the model
    writes in the three-byte form (ED, then A0 to BF), cannot be encoded. *)
Fixpoint encodable (s : string) : bool :=
  match s with
  | EmptyString => true
  | String c r =>
      match r with
      | String c' _ =>
          negb ((nat_of_ascii c =? 237)%nat && (160 <=? nat_of_ascii c')%nat)
          && encodable r
      | EmptyString => true
      end
  end.

Definition encodable_opt (v : option string) : Prop :=
  match v with
  | None => True
  | Some s => encodable s = true
  end.

(** A field in the format of the prompt: absent, [None], or a str that can
    be bound. *)
Definition text_field (x : option Json.json) : Prop :=
  match x with
  | None | Some Json.JNull => True
  | Some (Json.JStr s) => encodable s = true
  | Some _ => False
  end.

(** An item in the format of the prompt: a dict whose [word] is a str and
    whose other three fields are text fields. *)
Definition text_item (it : Json.json) : Prop :=
  match it with
  | Json.JObj d =>
      (∃ s, Json.dict_get "word" d = Some (Json.JStr s) ∧ encodable s = true) ∧
      Forall (fun k => text_field (Json.dict_get k d)) item_fields
  | _ => False
  end.

(** ** Example data *)

Definition empty_world : world := World None empty_session [].

(** The store as [init_db] leaves it on first use. *)
Definition fresh_world : world := (init_db (World None empty_session [])).2.

(** An oracle for the examples: the key is set, the seed is 42, the model
    replies [content], the clock stands still and RANDOM() counts down. *)
Definition example_oracle (content : string) : oracle :=
  Oracle (Some "sk-test") (fun _ _ => 42) (fun _ => Ok content)
         (fun _ => "2024-05-01 09:30:00") (fun i => - Z.of_nat i).

(** A table of the time before [difficulty] was added, holding one row. *)
Definition legacy_table : table :=
  Table
    [ Column "id" INTEGER false Autoincrement;
      Column "word" TEXT true DefaultNull;
      Column "meaning_en" TEXT false DefaultNull;
      Column "meaning_zh" TEXT false DefaultNull;
      Column "example" TEXT false DefaultNull;
      Column "topic" TEXT false DefaultNull;
      Column "tag" TEXT false DefaultNull;
      Column "created_at" TEXT false CurrentTimestamp ]
    [ [ SqlInt 1; SqlText "checkup"; SqlText "a medical examination";
        SqlText "体检"; SqlText "I scheduled a checkup."; SqlText "doctor visit";
        SqlNull; SqlText "2024-05-01 09:30:00" ] ]
    1.

Definition legacy_world : world := World (Some legacy_table) empty_session [].

Definition quoted (s : string) : string := PyStr.dquote +:+ s +:+ PyStr.dquote.

(** The text of a JSON object with the four fields. *)
Definition item_text (word meaning_en meaning_zh example : string) : string :=
  "{" +:+ quoted "word" +:+ ": " +:+ quoted word +:+ ", "
      +:+ quoted "meaning_en" +:+ ": " +:+ quoted meaning_en +:+ ", "
      +:+ quoted "meaning_zh" +:+ ": " +:+ quoted meaning_zh +:+ ", "
      +:+ quoted "example" +:+ ": " +:+ quoted example +:+ "}".

(** A dict with the four fields of the prompt's format. *)
Definition vocab_item (word meaning_en meaning_zh example : string) : Json.json :=
  Json.JObj [ ("word", Json.JStr word); ("meaning_en", Json.JStr meaning_en);
              ("meaning_zh", Json.JStr meaning_zh); ("example", Json.JStr example) ].

(** The batch [reply_two_items] decodes to. *)
Definition two_items : list Json.json :=
  [ vocab_item " Checkup " "a medical examination" "体检" "I scheduled a checkup.";
    vocab_item "triage" "sorting patients by urgency" "分诊" "Triage took an hour." ].

(** A reply in the format the prompt asks for, with two items. *)
Definition reply_two_items : string :=
  "[" +:+ item_text " Checkup " "a medical examination" "体检" "I scheduled a checkup."
      +:+ ", "
      +:+ item_text "triage" "sorting patients by urgency" "分诊" "Triage took an hour."
      +:+ "]".

(** Two replies that are valid JSON but not in the format of the prompt: an
    array with a bare string, and an array with a dict that has no [word]. *)
Definition reply_bare_string : string := "[" +:+ quoted "bare" +:+ "]".

Definition reply_without_word : string :=
  "[{" +:+ quoted "meaning_en" +:+ ": " +:+ quoted "no word here" +:+ "}]".

(** A reply whose second element is a bare string. *)
Definition reply_item_then_bare : string :=
  "[" +:+ item_text "gown" "a loose garment for patients" "病号服" "Put on this gown."
      +:+ ", " +:+ quoted "bare" +:+ "]".

(** A batch of two items, the second without [word]. *)
Definition batch_without_word : list Json.json :=
  [ vocab_item "checkup" "a medical examination" "体检" "I scheduled a checkup.";
    Json.JObj [ ("meaning_en", Json.JStr "no word here") ] ].

(** The widgets of a run in which the generate button was clicked. *)
Definition generate_click (topic : string) (num_items difficulty : Z) : widgets :=
  Widgets topic num_items difficulty true false (fun _ => false).

(** The widgets of a run in which no button was clicked. *)
Definition no_click (topic : string) (num_items difficulty : Z) : widgets :=
  Widgets topic num_items difficulty false false (fun _ => false).

(** A session in which a batch was generated for a topic and then saved:
    the store holds two rows and the topic has two forbidden words. *)
Definition session_world : world :=
  let generated :=
    (page_generate_vocab (example_oracle reply_two_items)
       (generate_click "Doctor visit" 5 2) fresh_world).2 in
  (page_generate_vocab (example_oracle reply_two_items)
     (Widgets "Doctor visit" 5 2 false true (fun _ => false)) generated).2.

(** A forbidden list with a duplicate, an empty word, a word to strip and
    an upper-case word. *)
Definition mixed_forbidden : list string := ["triage"; " a"; EmptyString; "B"; "a"].

(** The decimal texts of 1000, 1001, ..., 1200: 201 words in ascending
    order. *)
Definition many_forbidden : list string :=
  (fun i => PyStr.of_int (1000 + Z.of_nat i)) <$> seq 0 201.

(** The spec's second scenario: five entries with difficulties 1, 1, 2, 3
    and 3. *)
Definition five_entries_world : world :=
  let save word d w :=
    (insert_vocab_items (example_oracle EmptyString)
       (Json.JArr [vocab_item word "meaning" "释义" "example"])
       (Some "topic") (Some ("daily_vocab_" +:+ PyStr.of_int d)) (Some d) w).2 in
  save "e" 3 (save "d" 3 (save "c" 2 (save "b" 1 (save "a" 1 fresh_world)))).

Definition five_entries_table : table :=
  default (Table [] [] 0) (db five_entries_world).

(** The spec's first scenario: one batch of three items, "checkup" last,
    saved for the topic "doctor visit" at difficulty 2. *)
Definition doctor_visit_calls : list insert_call :=
  [ InsertCall (example_oracle EmptyString)
      (Json.JArr
         [ vocab_item "gown" "a loose garment for patients" "病号服" "Put on this gown.";
           vocab_item "triage" "sorting patients by urgency" "分诊" "Triage took an hour.";
           vocab_item "checkup" "a medical examination" "体检" "I scheduled a checkup." ])
      (Some "doctor visit") (Some "daily_vocab_2") (Some 2) ].



(** A world whose last batch has an item without [word]. *)
Definition incomplete_batch_world : world :=
  World (Some (Table vocab_columns [] 0))
        (set_last_vocab (Json.JArr batch_without_word) "doctor visit" 2 empty_session)
        [].

(** A store with two entries, the first with a comma in its word. *)
Definition two_entries_state : app_state :=
  AppState
    (insert_vocab_items (example_oracle EmptyString)
       (Json.JArr [ vocab_item "check-up, annual" "a yearly examination" "年度体检"
                      "Book your check-up.";
                    vocab_item "triage" "sorting patients by urgency" "分诊"
                      "Triage took an hour." ])
       (Some "doctor visit") (Some "daily_vocab_2") (Some 2) fresh_world).2
    (<["notes.txt" := "keep"]> ∅).

(** A reply wrapped in a markdown fence. *)
Definition fenced_reply : string :=
  PyStr.newline +:+ "```json" +:+ PyStr.newline +:+ reply_two_items
    +:+ PyStr.newline +:+ "```".

(** A run of the recent-and-export page with a click on export. *)
Definition export_click : app_widgets :=
  AppWidgets "查看最近 & 导出 CSV" (no_click EmptyString 12 2)
    (ReviewWidgets 10 "全部" false) (RecentWidgets 100 true).

(** * Properties *)

(** ** The fuel of the JSON scanner *)

Section JsonFuel.
Import Json.

Lemma skip_ws_length s : (String.length (skip_ws s) <= String.length s)%nat.
Proof.
  induction s as [|c s IH]; simpl; [done|].
  destruct (is_ws c); simpl; lia.
Qed.

Lemma strip_prefix_length p s r :
  strip_prefix p s = Some r → (String.length r <= String.length s)%nat.
Proof.
  revert s. induction p as [|a p IH]; intros s; simpl.
  { by intros [= ->]. }
  destruct s as [|b s]; [done|]. destruct (decide (a = b)); [|done].
  intros Hr. apply IH in Hr. simpl. lia.
Qed.

Lemma span_digits_length s ds r :
  span_digits s = (ds, r) → (String.length r <= String.length s)%nat.
Proof.
  revert ds r. induction s as [|c s IH]; intros ds r; simpl.
  { by intros [= _ <-]. }
  destruct (is_digit c).
  - destruct (span_digits s) as [ds' r'] eqn:E. intros [= _ <-].
    specialize (IH _ _ eq_refl). lia.
  - intros [= _ <-]. simpl. lia.
Qed.

Lemma scan_number_length s v r :
  scan_number s = Some (v, r) → (String.length r < String.length s)%nat.
Proof.
  unfold scan_number.
  set (p := match s with
            | String c r0 => if decide (c = "-"%char) then (true, r0) else (false, s)
            | EmptyString => (false, s)
            end).
  assert (String.length p.2 <= String.length s)%nat as Hp.
  { unfold p. destruct s as [|c r0]; simpl; [lia|].
    destruct (decide (c = "-"%char)); simpl; lia. }
  destruct p as [neg s1]. simpl in Hp.
  destruct (scan_int_part s1) as [[ids s2]|] eqn:Hint; [|done].
  assert (String.length s2 < String.length s1)%nat as H2.
  { unfold scan_int_part in Hint. destruct s1 as [|c r0]; [done|].
    destruct (decide (c = "0"%char)); [by simplify_eq/=; lia|].
    destruct (is_digit c) eqn:Hc; [|done]. injection Hint as Hint.
    simpl in Hint. rewrite Hc in Hint.
    destruct (span_digits r0) as [ds' r'] eqn:E. injection Hint as _ <-.
    apply span_digits_length in E. simpl. lia. }
  set (q := match scan_frac_part s2 with
            | Some (fds, r0) => (Some fds, r0)
            | None => (None, s2)
            end).
  assert (String.length q.2 <= String.length s2)%nat as Hq.
  { unfold q. destruct (scan_frac_part s2) as [[fds r0]|] eqn:E; simpl; [|lia].
    unfold scan_frac_part in E. destruct s2 as [|c r1]; [done|].
    destruct (decide (c = "."%char)); [|done].
    destruct (span_digits r1) as [ds' r'] eqn:E'.
    apply span_digits_length in E'. destruct ds'; simplify_eq/=. lia. }
  destruct q as [frac s3]. simpl in Hq.
  set (u := match scan_exp_part s3 with
            | Some (e, r0) => (Some e, r0)
            | None => (None, s3)
            end).
  assert (String.length u.2 <= String.length s3)%nat as Hu.
  { unfold u. destruct (scan_exp_part s3) as [[e r0]|] eqn:E; simpl; [|lia].
    unfold scan_exp_part in E. destruct s3 as [|c r1]; [done|].
    destruct (bool_decide (c = "e"%char) || bool_decide (c = "E"%char)); [|done].
    set (sg := match r1 with
               | String sg r' =>
                   if decide (sg = "-"%char) then (true, r')
                   else if decide (sg = "+"%char) then (false, r')
                   else (false, r1)
               | EmptyString => (false, r1)
               end) in E.
    assert (String.length sg.2 <= String.length r1)%nat as Hsg.
    { unfold sg. destruct r1 as [|x r']; simpl; [lia|].
      destruct (decide (x = "-"%char)); simpl; [lia|].
      destruct (decide (x = "+"%char)); simpl; lia. }
    destruct sg as [ng r2]. simpl in Hsg.
    destruct (span_digits r2) as [ds' r'] eqn:E'.
    apply span_digits_length in E'. destruct ds'; simplify_eq/=. lia. }
  destruct u as [ex s4]. simpl in Hu.
  destruct frac, ex; intros [= _ <-]; lia.
Qed.

Lemma scan_string_length_aux n :
  ∀ s t r, (String.length s <= n)%nat → scan_string s = Some (t, r) →
           (String.length r < String.length s)%nat.
Proof.
  induction n as [|n IH]; intros s t r Hn Hs.
  { destruct s; [done|simpl in Hn; lia]. }
  destruct s as [|c r0]; [done|]. cbn [scan_string] in Hs.
  cbn [String.length] in Hn.
  repeat (case_match; simplify_eq; try done);
    cbn [String.length] in *;
    repeat match goal with
      | H : scan_string ?x = Some (_, _) |- _ =>
          apply IH in H; [|cbn [String.length] in *; lia]
      end;
    cbn [String.length] in *; lia.
Qed.

Lemma scan_string_length s t r :
  scan_string s = Some (t, r) → (String.length r < String.length s)%nat.
Proof. by apply (scan_string_length_aux (String.length s)). Qed.

(** Splits a hypothesis that a scanner body returned a result into the
    results of the scanners it called. *)
Ltac split_scan H :=
  repeat first
    [ progress simplify_eq
    | match type of H with
      | mbind _ _ = Some _ => apply bind_Some in H as (? & ? & H)
      | (let '(_, _) := ?p in _) = Some _ => destruct p
      | (if ?b then _ else _) = Some _ => destruct b
      | match ?x with _ => _ end = Some _ => destruct x eqn:?
      end
    | done ].

Lemma value_body_consumes arr mem :
  consumes arr → consumes mem → consumes (value_body arr mem).
Proof.
  intros Ha Hm s x r H. unfold value_body in H.
  destruct s as [|c r0]; [done|]. cbn [String.length].
  split_scan H;
    repeat match goal with
      | E : scan_string _ = Some _ |- _ => apply scan_string_length in E
      | E : scan_number _ = Some _ |- _ => apply scan_number_length in E
      | E : strip_prefix _ _ = Some _ |- _ => apply strip_prefix_length in E
      | E : arr _ = Some _ |- _ => apply Ha in E
      | E : mem _ = Some _ |- _ => apply Hm in E
      | E : skip_ws ?r = _ |- _ =>
          pose proof (skip_ws_length r); rewrite E in *; clear E
      end;
    cbn [String.length] in *; lia.
Qed.

Lemma array_body_consumes val arr :
  consumes val → consumes arr → consumes (array_body val arr).
Proof.
  intros Hv Ha s x r H. unfold array_body in H.
  split_scan H;
    repeat match goal with
      | E : val _ = Some _ |- _ => apply Hv in E
      | E : arr _ = Some _ |- _ => apply Ha in E
      end;
    repeat match goal with
      | |- context [skip_ws ?r] => pose proof (skip_ws_length r); generalize dependent (skip_ws r); intros
      | E : context [skip_ws ?r] |- _ => pose proof (skip_ws_length r); generalize dependent (skip_ws r); intros
      end;
    simplify_eq; cbn [String.length] in *; lia.
Qed.

Lemma members_body_consumes val mem :
  consumes val → consumes mem → consumes (members_body val mem).
Proof.
  intros Hv Hm s x r H. unfold members_body in H.
  destruct s as [|c r0]; [done|]. cbn [String.length].
  split_scan H;
    repeat match goal with
      | E : val _ = Some _ |- _ => apply Hv in E
      | E : mem _ = Some _ |- _ => apply Hm in E
      | E : scan_string _ = Some _ |- _ => apply scan_string_length in E
      end;
    repeat match goal with
      | |- context [skip_ws ?r] => pose proof (skip_ws_length r); generalize dependent (skip_ws r); intros
      | E : context [skip_ws ?r] |- _ => pose proof (skip_ws_length r); generalize dependent (skip_ws r); intros
      end;
    simplify_eq; cbn [String.length] in *; lia.
Qed.

Lemma scan_consumes fuel :
  consumes (scan_once fuel) ∧ consumes (scan_array fuel) ∧ consumes (scan_members fuel).
Proof.
  induction fuel as [|fuel (IH1 & IH2 & IH3)]; [by repeat split; intros ???|].
  split; [|split]; simpl.
  - by apply value_body_consumes.
  - by apply array_body_consumes.
  - by apply members_body_consumes.
Qed.

Lemma value_body_local arr arr' mem mem' s x :
  (∀ s' y, (String.length s' < String.length s)%nat → arr s' = Some y → arr' s' = Some y) →
  (∀ s' y, (String.length s' < String.length s)%nat → mem s' = Some y → mem' s' = Some y) →
  value_body arr mem s = Some x → value_body arr' mem' s = Some x.
Proof.
  intros Ha Hm H. unfold value_body in *.
  destruct s as [|c r0]; [done|].
  destruct (decide (c = "034"%char)); [done|].
  pose proof (skip_ws_length r0) as Hws.
  destruct (decide (c = "{"%char)).
  { destruct (skip_ws r0) as [|c1 r1] eqn:E; [done|].
    destruct (decide (c1 = "}"%char)); [done|].
    apply bind_Some in H as ([ms rest] & Hmem & H).
    apply Hm in Hmem; [|cbn [String.length] in *; lia].
    by rewrite Hmem. }
  destruct (decide (c = "["%char)); [|done].
  destruct (skip_ws r0) as [|c1 r1] eqn:E; [done|].
  destruct (decide (c1 = "]"%char)); [done|].
  apply bind_Some in H as ([vs rest] & Harr & H).
  apply Ha in Harr; [|cbn [String.length] in *; lia].
  by rewrite Harr.
Qed.

Lemma array_body_local val val' arr arr' s x :
  consumes val →
  (∀ y, val s = Some y → val' s = Some y) →
  (∀ s' y, (String.length s' < String.length s)%nat → arr s' = Some y → arr' s' = Some y) →
  array_body val arr s = Some x → array_body val' arr' s = Some x.
Proof.
  intros Hc Hv Ha H. unfold array_body in *.
  apply bind_Some in H as ([v r] & Hval & H).
  rewrite (Hv _ Hval). cbn [mbind option_bind]. apply Hc in Hval.
  pose proof (skip_ws_length r) as Hws.
  destruct (skip_ws r) as [|c r1]; [done|].
  destruct (decide (c = "]"%char)); [done|].
  destruct (decide (c = ","%char)); [|done].
  apply bind_Some in H as ([vs rest] & Harr & H).
  pose proof (skip_ws_length r1) as Hws1.
  apply Ha in Harr; [|cbn [String.length] in *; lia].
  by rewrite Harr.
Qed.

Lemma members_body_local val val' mem mem' s x :
  consumes val →
  (∀ s' y, (String.length s' < String.length s)%nat → val s' = Some y → val' s' = Some y) →
  (∀ s' y, (String.length s' < String.length s)%nat → mem s' = Some y → mem' s' = Some y) →
  members_body val mem s = Some x → members_body val' mem' s = Some x.
Proof.
  intros Hc Hv Hm H. unfold members_body in *.
  destruct s as [|q r]; [done|].
  destruct (decide (q = "034"%char)); [|done].
  apply bind_Some in H as ([k r1] & Hk & H). rewrite Hk. cbn [mbind option_bind].
  apply scan_string_length in Hk.
  pose proof (skip_ws_length r1) as Hws1.
  destruct (skip_ws r1) as [|c r2]; [done|].
  destruct (decide (c = ":"%char)); [|done].
  apply bind_Some in H as ([v r3] & Hval & H).
  pose proof (skip_ws_length r2) as Hws2.
  pose proof (Hc _ _ _ Hval) as Hlen.
  apply Hv in Hval; [|cbn [String.length] in *; lia].
  rewrite Hval. cbn [mbind option_bind].
  pose proof (skip_ws_length r3) as Hws3.
  destruct (skip_ws r3) as [|c' r4]; [done|].
  destruct (decide (c' = "}"%char)); [done|].
  destruct (decide (c' = ","%char)); [|done].
  apply bind_Some in H as ([ms rest] & Hmem & H).
  pose proof (skip_ws_length r4) as Hws4.
  apply Hm in Hmem; [|cbn [String.length] in *; lia].
  by rewrite Hmem.
Qed.

Lemma scan_once_S fuel s :
  scan_once (S fuel) s = value_body (scan_array fuel) (scan_members fuel) s.
Proof. done. Qed.

Lemma scan_array_S fuel s :
  scan_array (S fuel) s = array_body (scan_once fuel) (scan_array fuel) s.
Proof. done. Qed.

Lemma scan_members_S fuel s :
  scan_members (S fuel) s = members_body (scan_once fuel) (scan_members fuel) s.
Proof. done. Qed.

(** More fuel finds what less fuel found. *)
Lemma scan_mono fuel :
  ∀ fuel', (fuel <= fuel')%nat →
    (∀ s x, scan_once fuel s = Some x → scan_once fuel' s = Some x) ∧
    (∀ s x, scan_array fuel s = Some x → scan_array fuel' s = Some x) ∧
    (∀ s x, scan_members fuel s = Some x → scan_members fuel' s = Some x).
Proof.
  induction fuel as [|fuel IH]; intros fuel' Hle; [by repeat split|].
  destruct fuel' as [|fuel']; [lia|].
  destruct (IH fuel' ltac:(lia)) as (IH1 & IH2 & IH3).
  destruct (scan_consumes fuel) as (Hc & _).
  split; [|split]; intros s x.
  - rewrite !scan_once_S. apply value_body_local; auto.
  - rewrite !scan_array_S. apply array_body_local; auto.
  - rewrite !scan_members_S. apply members_body_local; auto.
Qed.

Lemma scan_once_mono fuel fuel' s x :
  (fuel <= fuel')%nat → scan_once fuel s = Some x → scan_once fuel' s = Some x.
Proof. intros Hle. by apply (scan_mono fuel fuel' Hle). Qed.

Lemma scan_array_mono fuel fuel' s x :
  (fuel <= fuel')%nat → scan_array fuel s = Some x → scan_array fuel' s = Some x.
Proof. intros Hle. by apply (scan_mono fuel fuel' Hle). Qed.

Lemma scan_members_mono fuel fuel' s x :
  (fuel <= fuel')%nat → scan_members fuel s = Some x → scan_members fuel' s = Some x.
Proof. intros Hle. by apply (scan_mono fuel fuel' Hle). Qed.

(** Twice the length of the text, and one or two more, is fuel enough. *)
Lemma scan_fuel_enough n :
  ∀ s, (String.length s <= n)%nat →
    (∀ fuel x, scan_once fuel s = Some x → scan_once (2 * n + 1) s = Some x) ∧
    (∀ fuel x, scan_array fuel s = Some x → scan_array (2 * n + 2) s = Some x) ∧
    (∀ fuel x, scan_members fuel s = Some x → scan_members (2 * n + 2) s = Some x).
Proof.
  induction n as [|n IH]; intros s Hs.
  { destruct s; [|cbn [String.length] in Hs; lia].
    split; [|split]; intros [|fuel] x; try done.
    rewrite scan_array_S. unfold array_body. by destruct fuel. }
  assert (∀ fuel x, scan_once fuel s = Some x → scan_once (2 * S n + 1) s = Some x)
    as Hvalue.
  { intros [|fuel] x; [done|].
    replace (2 * S n + 1)%nat with (S (2 * n + 2)) by lia.
    rewrite !scan_once_S. apply value_body_local.
    - intros s' y Hs'. by apply (IH s' ltac:(lia)).
    - intros s' y Hs'. by apply (IH s' ltac:(lia)). }
  split; [done|]. split.
  - intros [|fuel] x; [done|].
    replace (2 * S n + 2)%nat with (S (2 * S n + 1)) by lia.
    rewrite !scan_array_S. apply array_body_local.
    + apply scan_consumes.
    + apply Hvalue.
    + intros s' y Hs' Hy.
      apply (scan_array_mono (2 * n + 2)); [lia|]. by apply (IH s' ltac:(lia)) in Hy.
  - intros [|fuel] x; [done|].
    replace (2 * S n + 2)%nat with (S (2 * S n + 1)) by lia.
    rewrite !scan_members_S. apply members_body_local.
    + apply scan_consumes.
    + intros s' y Hs' Hy.
      apply (scan_once_mono (2 * n + 1)); [lia|]. by apply (IH s' ltac:(lia)) in Hy.
    + intros s' y Hs' Hy.
      apply (scan_members_mono (2 * n + 2)); [lia|]. by apply (IH s' ltac:(lia)) in Hy.
Qed.

(** [loads] finds the value whenever some amount of fuel does: it never
    fails for lack of fuel. *)
Theorem loads_fuel s v :
  loads s = Some v ↔
  ∃ fuel rest, scan_once fuel (skip_ws s) = Some (v, rest) ∧ skip_ws rest = EmptyString.
Proof.
  unfold loads. split.
  - destruct (scan_once _ (skip_ws s)) as [[v' rest]|] eqn:E; [|done].
    destruct (skip_ws rest) eqn:E'; [|done]. intros [= ->]. eauto.
  - intros (fuel & rest & Hscan & Hrest).
    pose proof (skip_ws_length s) as Hws.
    destruct (scan_fuel_enough (String.length s) (skip_ws s) Hws) as (Hv & _).
    apply Hv in Hscan.
    apply (scan_once_mono _ (2 * String.length s + 2)) in Hscan; [|lia].
    by rewrite Hscan, Hrest.
Qed.

End JsonFuel.

(** ** Opening the store *)

Section InitDb.

Lemma col_index_lt name cols i :
  col_index name cols = Some i → (i < length cols)%nat.
Proof.
  revert i. induction cols as [|c cols IH]; intros i; simpl; [done|].
  destruct (same_name name (col_name c)).
  - intros [= <-]. lia.
  - destruct (col_index name cols) as [j|] eqn:E; simpl; [|done].
    intros [= <-]. specialize (IH j eq_refl). lia.
Qed.

Lemma col_index_app_l name cols extra i :
  col_index name cols = Some i → col_index name (cols ++ extra) = Some i.
Proof.
  revert i. induction cols as [|c cols IH]; intros i; simpl; [done|].
  destruct (same_name name (col_name c)); [done|].
  destruct (col_index name cols) as [j|] eqn:E; simpl; [|done].
  intros [= <-]. by rewrite (IH j eq_refl).
Qed.

Lemma col_index_app_new name cols c :
  col_index name cols = None → same_name name (col_name c) = true →
  col_index name (cols ++ [c]) = Some (length cols).
Proof.
  intros Hnone Hc. induction cols as [|c0 cols IH]; simpl in *.
  - by rewrite Hc.
  - destruct (same_name name (col_name c0)); [done|].
    destruct (col_index name cols); [done|]. by rewrite IH.
Qed.

Lemma has_column_true name t :
  has_column name t = true ↔ is_Some (col_index name (tbl_columns t)).
Proof. unfold has_column. by rewrite bool_decide_eq_true. Qed.

Lemma has_column_false name t :
  has_column name t = false ↔ col_index name (tbl_columns t) = None.
Proof.
  unfold has_column. rewrite bool_decide_eq_false.
  by rewrite <- eq_None_not_Some.
Qed.

(** A cell that was there before the column was added reads the same. *)
Lemma read_after_add_column cols c row name :
  is_Some (col_index name cols) →
  read (cols ++ [c]) (row ++ [SqlNull]) name = read cols row name.
Proof.
  intros [i Hi]. unfold read, cell.
  rewrite (col_index_app_l _ _ _ _ Hi), Hi. simpl.
  destruct (decide (i < length row)%nat) as [Hlt|Hge].
  - by rewrite lookup_app_l.
  - rewrite (proj2 (lookup_ge_None row i)) by lia. simpl.
    destruct (decide (i = length row)) as [->|Hne].
    + by rewrite list_lookup_middle.
    + rewrite (proj2 (lookup_ge_None (row ++ [SqlNull]) i)); [done|].
      rewrite length_app. simpl. lia.
Qed.

Lemma migrate_has_difficulty t : has_column "difficulty" (migrate t) = true.
Proof.
  unfold migrate, alter_table_add_column.
  destruct (has_column (col_name difficulty_column) t) eqn:E; [done|].
  apply has_column_false in E. apply has_column_true. simpl in *.
  rewrite (col_index_app_new _ _ _ E); [by eexists|done].
Qed.

Lemma migrate_idempotent t : migrate (migrate t) = migrate t.
Proof.
  pose proof (migrate_has_difficulty t) as Hd.
  unfold migrate at 1. unfold alter_table_add_column.
  simpl col_name. by rewrite Hd.
Qed.

(** [init_db] never raises; it leaves the migrated table, created first
    if there was none. *)
Lemma init_db_spec w :
  (init_db w).1 = Ok tt ∧
  db (init_db w).2 = Some (migrate (create_table_if_not_exists vocab_columns (db w))) ∧
  session (init_db w).2 = session w.
Proof.
  unfold init_db, migrate. simpl db.
  set (t := create_table_if_not_exists vocab_columns (db w)).
  unfold alter_table_add_column.
  destruct (has_column (col_name difficulty_column) t); simpl; done.
Qed.

End InitDb.

Lemma init_db_idempotent w :
  db (init_db (init_db w).2).2 = db (init_db w).2.
Proof.
  destruct (init_db_spec (init_db w).2) as (_ & -> & _).
  destruct (init_db_spec w) as (_ & -> & _).
  simpl. by rewrite migrate_idempotent.
Qed.

(** C8.  Opening the store twice in a row, first on a table that lacks the
    [difficulty] column and then on the table that results, raises nothing
    either time; the first opening adds the column and keeps every row, in
    place, with every cell it had (the new cell is NULL); the second opening
    changes nothing. *)
Theorem init_db_twice_preserves_rows (w : world) (t : table) :
  db w = Some t →
  has_column "difficulty" t = false →
  let w1 := (init_db w).2 in
  let w2 := (init_db w1).2 in
  (init_db w).1 = Ok tt ∧
  (init_db w1).1 = Ok tt ∧
  ∃ t1,
    db w1 = Some t1 ∧
    has_column "difficulty" t1 = true ∧
    tbl_rows t1 = (fun row => row ++ [SqlNull]) <$> tbl_rows t ∧
    length (tbl_rows t1) = length (tbl_rows t) ∧
    (∀ i row, tbl_rows t !! i = Some row →
       ∃ row1, tbl_rows t1 !! i = Some row1 ∧
         ∀ name, has_column name t = true →
           read (tbl_columns t1) row1 name = read (tbl_columns t) row name) ∧
    db w2 = Some t1.
Proof.
  intros Hdb Hlacks w1 w2.
  destruct (init_db_spec w) as (Hok1 & Hdb1 & _).
  destruct (init_db_spec w1) as (Hok2 & _).
  split; [done|]. split; [done|].
  rewrite Hdb in Hdb1. simpl in Hdb1.
  exists (migrate t). split; [done|].
  split; [apply migrate_has_difficulty|].
  assert (migrate t = Table (tbl_columns t ++ [difficulty_column])
                        ((fun row => row ++ [SqlNull]) <$> tbl_rows t) (tbl_seq t)) as Hm.
  { unfold migrate, alter_table_add_column. simpl col_name. by rewrite Hlacks. }
  split; [by rewrite Hm|].
  split; [by rewrite Hm; simpl; rewrite length_fmap|].
  split.
  - intros i row Hrow. exists (row ++ [SqlNull]). rewrite Hm. simpl.
    split; [by rewrite list_lookup_fmap, Hrow|].
    intros name Hname. apply read_after_add_column.
    by apply has_column_true.
  - unfold w2, w1. rewrite init_db_idempotent. exact Hdb1.
Qed.

Lemma init_db_twice_preserves_rows_witness :
  db legacy_world = Some legacy_table ∧
  has_column "difficulty" legacy_table = false ∧
  (init_db legacy_world).1 = Ok tt ∧
  (init_db (init_db legacy_world).2).1 = Ok tt ∧
  store_rows (init_db (init_db legacy_world).2).2 =
    [ [ SqlInt 1; SqlText "checkup"; SqlText "a medical examination";
        SqlText "体检"; SqlText "I scheduled a checkup."; SqlText "doctor visit";
        SqlNull; SqlText "2024-05-01 09:30:00"; SqlNull ] ].
Proof.
  destruct (init_db_twice_preserves_rows legacy_world legacy_table eq_refl eq_refl)
    as (H1 & H2 & t1 & Hdb1 & _ & Hrows & _ & _ & Hdb2).
  split; [reflexivity|]. split; [reflexivity|].
  split; [exact H1|]. split; [exact H2|].
  unfold store_rows. rewrite Hdb2, Hrows. reflexivity.
Defined.

(** ** Inserting *)









(** C10.  Inserting an empty list returns at once: no connection is opened,
    nothing is raised, and the world (store, session and effect log alike)
    is the one the call found. *)
Theorem insert_vocab_items_empty_noop (o : oracle) (topic tag : option string)
    (difficulty : option Z) (w : world) :
  insert_vocab_items o (Json.JArr []) topic tag difficulty w = (Ok tt, w)
  ∧ log (insert_vocab_items o (Json.JArr []) topic tag difficulty w).2 = log w
  ∧ db (insert_vocab_items o (Json.JArr []) topic tag difficulty w).2 = db w.
Proof. done. Qed.



(** ** Generation rounds that fail *)

Lemma call_gpt_for_vocab_world o topic n d fw w :
  ∃ prompt, (call_gpt_for_vocab o topic n d fw w).2
            = emit (EvRequest "gpt-4.1" "0.8" prompt) w.
Proof. by eexists. Qed.

Lemma call_gpt_for_vocab_result o topic n d fw w w' :
  (call_gpt_for_vocab o topic n d fw w).1 = (call_gpt_for_vocab o topic n d fw w').1.
Proof. done. Qed.

Lemma call_gpt_for_phrasal_verbs_world o n d fw w :
  ∃ prompt, (call_gpt_for_phrasal_verbs o n d fw w).2
            = emit (EvRequest "gpt-4.1" "0.7" prompt) w.
Proof. by eexists. Qed.

Lemma call_gpt_for_phrasal_verbs_result o n d fw w w' :
  (call_gpt_for_phrasal_verbs o n d fw w).1 = (call_gpt_for_phrasal_verbs o n d fw w').1.
Proof. done. Qed.

(** The request fails exactly when the client raises or its reply does not
    decode. *)
Lemma call_gpt_for_vocab_fails o topic n d fw w e :
  (call_gpt_for_vocab o topic n d fw w).1 = Raise e ↔
  ∃ prompt, (call_gpt_for_vocab o topic n d fw w).2
              = emit (EvRequest "gpt-4.1" "0.8" prompt) w ∧
    (reply o prompt = Raise e ∨
     ∃ content, reply o prompt = Ok content ∧
                Json.loads (PyStr.strip content) = None ∧ e = JSONDecodeError).
Proof.
  unfold call_gpt_for_vocab. simpl.
  set (prompt := vocab_prompt _ _ _ _ _).
  split.
  - intros Hres. exists prompt. split; [done|].
    destruct (reply o prompt) as [e'|content]; simpl in Hres.
    + left. by simplify_eq.
    + right. exists content. unfold decode_reply in Hres.
      destruct (Json.loads (PyStr.strip content)); by simplify_eq.
  - intros (p & Hp & Hcase). injection Hp as <-.
    destruct Hcase as [-> | (content & -> & Hl & ->)]; simpl; [done|].
    unfold decode_reply. by rewrite Hl.
Qed.

Lemma setdefault_vocab_history_nothing_merged w :
  nothing_merged w
    (with_session (set_vocab_history (default ∅ (vocab_history (session w)))
                     (session w)) w).
Proof. done. Qed.

Lemma setdefault_phrasal_history_nothing_merged w :
  nothing_merged w
    (with_session (set_phrasal_history (default ∅ (phrasal_history (session w)))
                     (session w)) w).
Proof. done. Qed.

Lemma emit_nothing_merged ev w w' :
  nothing_merged w w' → nothing_merged w (emit ev w').
Proof. done. Qed.

(** C1.  In a run where the generate button is clicked and the request of
    the page fails (the client raises, or its reply does not decode), the
    page reports the error and stops; the rows of the store, the forbidden
    list of every context and the last shown batch are what they were before
    the run.  This holds for the vocabulary page and for the phrasal-verb
    page. *)
Theorem failed_generation_merges_nothing (o : oracle) (ui : widgets) (w : world)
    (e : exn) :
  ui_generate ui = true →
  ((call_gpt_for_vocab o (ui_topic ui) (ui_num_items ui) (ui_difficulty ui)
      (vocab_forbidden (ui_topic ui) w) w).1 = Raise e →
   (page_generate_vocab o ui w).1 = Stopped ∧
   nothing_merged w (page_generate_vocab o ui w).2) ∧
  ((call_gpt_for_phrasal_verbs o (ui_num_items ui) (ui_difficulty ui)
      (phrasal_forbidden (ui_difficulty ui) w) w).1 = Raise e →
   (page_generate_phrasal_verbs o ui w).1 = Stopped ∧
   nothing_merged w (page_generate_phrasal_verbs o ui w).2).
Proof.
  intros Hgen. split; intros Hfail.
  - unfold page_generate_vocab. rewrite Hgen.
    set (w0 := with_session _ w).
    destruct (negb (api_key_set o)).
    { split; [done|]. apply setdefault_vocab_history_nothing_merged. }
    fold (vocab_forbidden (ui_topic ui) w).
    rewrite (call_gpt_for_vocab_result _ _ _ _ _ w w0) in Hfail.
    destruct (call_gpt_for_vocab_world o (ui_topic ui) (ui_num_items ui)
                (ui_difficulty ui) (vocab_forbidden (ui_topic ui) w) w0) as [p Hw].
    destruct (call_gpt_for_vocab _ _ _ _ _ w0) as [[e'|items] w1]; simpl in *;
      [|done].
    split; [done|]. subst w1.
    apply emit_nothing_merged, setdefault_vocab_history_nothing_merged.
  - unfold page_generate_phrasal_verbs. rewrite Hgen.
    set (w0 := with_session _ w).
    destruct (negb (api_key_set o)).
    { split; [done|]. apply setdefault_phrasal_history_nothing_merged. }
    fold (phrasal_forbidden (ui_difficulty ui) w).
    rewrite (call_gpt_for_phrasal_verbs_result _ _ _ _ w w0) in Hfail.
    destruct (call_gpt_for_phrasal_verbs_world o (ui_num_items ui)
                (ui_difficulty ui) (phrasal_forbidden (ui_difficulty ui) w) w0) as [p Hw].
    destruct (call_gpt_for_phrasal_verbs _ _ _ _ w0) as [[e'|items] w1]; simpl in *;
      [|done].
    split; [done|]. subst w1.
    apply emit_nothing_merged, setdefault_phrasal_history_nothing_merged.
Qed.

Lemma failed_generation_merges_nothing_witness :
  ui_generate (generate_click "Doctor visit" 5 2) = true ∧
  (call_gpt_for_vocab (example_oracle "not json") "Doctor visit" 5 2
     (vocab_forbidden "Doctor visit" session_world) session_world).1
    = Raise JSONDecodeError ∧
  (page_generate_vocab (example_oracle "not json")
     (generate_click "Doctor visit" 5 2) session_world).1 = Stopped ∧
  length (store_rows (page_generate_vocab (example_oracle "not json")
     (generate_click "Doctor visit" 5 2) session_world).2) = 2%nat ∧
  vocab_forbidden "Doctor visit"
    (page_generate_vocab (example_oracle "not json")
       (generate_click "Doctor visit" 5 2) session_world).2
    = ["checkup"; "triage"] ∧
  (page_generate_phrasal_verbs (example_oracle "not json")
     (generate_click "Doctor visit" 5 2) session_world).1 = Stopped.
Proof.
  destruct (failed_generation_merges_nothing (example_oracle "not json")
              (generate_click "Doctor visit" 5 2) session_world JSONDecodeError
              eq_refl) as [Hvocab Hphrasal].
  assert ((call_gpt_for_vocab (example_oracle "not json") "Doctor visit" 5 2
             (vocab_forbidden "Doctor visit" session_world) session_world).1
          = Raise JSONDecodeError) as Hcall by (vm_compute; reflexivity).
  destruct (Hvocab Hcall) as (Hstop & Hdb & Hforb & _).
  destruct (Hphrasal ltac:(vm_compute; reflexivity)) as (Hstop' & _).
  split; [reflexivity|]. split; [exact Hcall|]. split; [exact Hstop|].
  split.
  { unfold store_rows. rewrite Hdb. vm_compute. reflexivity. }
  split; [|exact Hstop'].
  rewrite Hforb. vm_compute. reflexivity.
Defined.

(** ** Requests are built from whatever count and difficulty they get *)

Lemma string_app_cons (x : ascii) (a b : string) :
  String x a +:+ b = String x (a +:+ b).
Proof. done. Qed.

Lemma string_app_assoc (a b c : string) : (a +:+ b) +:+ c = a +:+ b +:+ c.
Proof.
  induction a as [|x a IH]; [done|].
  rewrite !string_app_cons. by f_equal.
Qed.

Lemma string_app_nil_r (a : string) : a +:+ EmptyString = a.
Proof.
  induction a as [|x a IH]; [done|].
  rewrite string_app_cons. by f_equal.
Qed.

Lemma lines_cons x y l :
  lines (x :: y :: l) = x +:+ PyStr.newline +:+ lines (y :: l).
Proof. done. Qed.

(** Every line of a text is part of it. *)
Lemma lines_contains pre x post : contains (lines (pre ++ x :: post)) x.
Proof.
  induction pre as [|a pre IH].
  - destruct post as [|y post].
    + exists EmptyString, EmptyString. simpl. by rewrite string_app_nil_r.
    + exists EmptyString, (PyStr.newline +:+ lines (y :: post)). done.
  - destruct IH as (before & after & IH).
    exists (a +:+ PyStr.newline +:+ before), after.
    destruct pre as [|b pre]; simpl app in *.
    + rewrite lines_cons, IH. by rewrite !string_app_assoc.
    + rewrite lines_cons, IH. by rewrite !string_app_assoc.
Qed.


(** ** Replies are decoded, not validated *)

(** C3, as the code has it.  The parse of a reply is [json.loads] of the
    stripped text and nothing more: when the text decodes, the decoded value
    is returned as it is, whatever its shape; when it does not, the parse
    raises and the call raises with it, nothing being repaired.  Both
    request functions return exactly this for the reply the client gave.
    The statement does not depend on which exception the decoder raises:
    [json.loads] has [JSONDecodeError] for a text that is not JSON, and
    besides, which the model leaves out, [ValueError] for an integer
    literal beyond the interpreter's digit limit and [RecursionError] for
    nesting beyond its recursion limit. *)
Theorem reply_is_decoded_not_validated (content : string) :
  (∀ v, Json.loads (PyStr.strip content) = Some v ↔ decode_reply content = Ok v) ∧
  (Json.loads (PyStr.strip content) = None ↔ ∃ e, decode_reply content = Raise e) ∧
  (∀ o topic num_items difficulty forbidden_words w,
     reply o (vocab_prompt topic num_items difficulty
                (vocab_forbidden_block forbidden_words) (randint o 1 1000000))
       = Ok content →
     (call_gpt_for_vocab o topic num_items difficulty forbidden_words w).1
       = decode_reply content ∧
     (∀ v, (call_gpt_for_vocab o topic num_items difficulty forbidden_words w).1
             = Ok v ↔ Json.loads (PyStr.strip content) = Some v)) ∧
  (∀ o num_items difficulty forbidden_words w,
     reply o (phrasal_prompt num_items difficulty
                (phrasal_forbidden_block forbidden_words) (randint o 1 1000000))
       = Ok content →
     (call_gpt_for_phrasal_verbs o num_items difficulty forbidden_words w).1
       = decode_reply content ∧
     (∀ v, (call_gpt_for_phrasal_verbs o num_items difficulty forbidden_words w).1
             = Ok v ↔ Json.loads (PyStr.strip content) = Some v)).
Proof.
  assert (∀ v, Json.loads (PyStr.strip content) = Some v ↔
               decode_reply content = Ok v) as Hsome.
  { intros v. unfold decode_reply.
    destruct (Json.loads (PyStr.strip content)); split; congruence. }
  split; [exact Hsome|]. split.
  { unfold decode_reply. destruct (Json.loads (PyStr.strip content)); split.
    - discriminate.
    - intros [e He]. discriminate He.
    - intros _. by eexists.
    - done. }
  split.
  - intros o topic n d fw w Hr.
    assert ((call_gpt_for_vocab o topic n d fw w).1 = decode_reply content) as ->.
    { unfold call_gpt_for_vocab. cbv zeta. cbn [fst]. by rewrite Hr. }
    split; [reflexivity|]. intros v. by rewrite Hsome.
  - intros o n d fw w Hr.
    assert ((call_gpt_for_phrasal_verbs o n d fw w).1 = decode_reply content) as ->.
    { unfold call_gpt_for_phrasal_verbs. cbv zeta. cbn [fst]. by rewrite Hr. }
    split; [reflexivity|]. intros v. by rewrite Hsome.
Qed.

Lemma reply_is_decoded_not_validated_witness :
  reply (example_oracle reply_two_items)
    (vocab_prompt "Doctor visit" 5 2 (vocab_forbidden_block [])
       (randint (example_oracle reply_two_items) 1 1000000)) = Ok reply_two_items ∧
  (call_gpt_for_vocab (example_oracle reply_two_items) "Doctor visit" 5 2 []
     empty_world).1
  = Ok (Json.JArr
          [ vocab_item " Checkup " "a medical examination" "体检" "I scheduled a checkup.";
            vocab_item "triage" "sorting patients by urgency" "分诊" "Triage took an hour." ]) ∧
  ∃ e, decode_reply "not json" = Raise e.
Proof.
  destruct (reply_is_decoded_not_validated reply_two_items)
    as (_ & _ & Hvocab & _).
  destruct (reply_is_decoded_not_validated "not json") as (_ & Hnone & _).
  split; [reflexivity|]. split.
  - apply (proj2 (Hvocab (example_oracle reply_two_items) "Doctor visit" 5 2 []
                    empty_world eq_refl)).
    vm_compute. reflexivity.
  - apply Hnone. vm_compute. reflexivity.
Defined.

(** C3 fails as stated: an array that holds a bare string, and an array
    whose element has no [word], are valid JSON; the parse returns them as
    they are, although neither is a sequence of well-formed items. *)
Lemma malformed_items_pass_the_parse :
  (call_gpt_for_vocab (example_oracle reply_bare_string) "doctor visit" 5 2 []
     empty_world).1 = Ok (Json.JArr [Json.JStr "bare"]) ∧
  ¬ well_formed_items (Json.JArr [Json.JStr "bare"]) ∧
  (call_gpt_for_phrasal_verbs (example_oracle reply_without_word) 5 2 []
     empty_world).1
    = Ok (Json.JArr [Json.JObj [("meaning_en", Json.JStr "no word here")]]) ∧
  ¬ well_formed_items
      (Json.JArr [Json.JObj [("meaning_en", Json.JStr "no word here")]]).
Proof.
  split; [vm_compute; reflexivity|]. split.
  { intros (l & [= <-] & Hall). apply Forall_cons in Hall as [(d & x & Hd & _) _].
    discriminate. }
  split; [vm_compute; reflexivity|].
  intros (l & [= <-] & Hall). apply Forall_cons in Hall as [(d & x & [= <-] & Hx) _].
  vm_compute in Hx. discriminate.
Qed.

(** ** Strings *)

Lemma is_space_lower_char c : PyStr.is_space (PyStr.lower_char c) = PyStr.is_space c.
Proof. destruct c as [[] [] [] [] [] [] [] []]; reflexivity. Qed.

Lemma lstrip_lower s : PyStr.lstrip (PyStr.lower s) = PyStr.lower (PyStr.lstrip s).
Proof.
  induction s as [|c s IH]; simpl; [done|].
  rewrite is_space_lower_char. by destruct (PyStr.is_space c).
Qed.

Lemma rstrip_lower s : PyStr.rstrip (PyStr.lower s) = PyStr.lower (PyStr.rstrip s).
Proof.
  induction s as [|c s IH]; simpl; [done|].
  rewrite IH, is_space_lower_char.
  destruct (PyStr.rstrip s); simpl; [|done].
  by destruct (PyStr.is_space c).
Qed.

(** Lower-casing and stripping commute. *)
Lemma strip_lower s : PyStr.strip (PyStr.lower s) = PyStr.lower (PyStr.strip s).
Proof. unfold PyStr.strip. by rewrite lstrip_lower, rstrip_lower. Qed.

Lemma rstrip_idempotent s : PyStr.rstrip (PyStr.rstrip s) = PyStr.rstrip s.
Proof.
  induction s as [|c s IH]; simpl; [done|].
  destruct (PyStr.rstrip s) as [|c' s'] eqn:E.
  - destruct (PyStr.is_space c) eqn:Hc; simpl; [done|]. by rewrite Hc.
  - change (PyStr.rstrip (String c (String c' s')) = String c (String c' s')).
    simpl PyStr.rstrip at 1. fold PyStr.rstrip.
    change (match PyStr.rstrip (String c' s') with
            | EmptyString => if PyStr.is_space c then EmptyString else String c EmptyString
            | String a r => String c (String a r)
            end = String c (String c' s')).
    by rewrite IH.
Qed.

(** What [rstrip] leaves starts as its argument did. *)
Lemma lstrip_rstrip_lstrip s :
  PyStr.lstrip (PyStr.rstrip (PyStr.lstrip s)) = PyStr.rstrip (PyStr.lstrip s).
Proof.
  induction s as [|c s IH]; simpl; [done|].
  destruct (PyStr.is_space c) eqn:Hc; [done|].
  simpl. destruct (PyStr.rstrip s); simpl; rewrite ?Hc; simpl; by rewrite ?Hc.
Qed.

Lemma strip_idempotent s : PyStr.strip (PyStr.strip s) = PyStr.strip s.
Proof. unfold PyStr.strip. by rewrite lstrip_rstrip_lstrip, rstrip_idempotent. Qed.

(** A word as the history stores it is fixed by [strip] and by [lower]. *)
Lemma strip_normalized s :
  PyStr.strip (PyStr.lower (PyStr.strip s)) = PyStr.lower (PyStr.strip s).
Proof. by rewrite strip_lower, strip_idempotent. Qed.

Lemma truthy_nonempty s : PyStr.truthy s = true ↔ s ≠ EmptyString.
Proof. destruct s; simpl; split; congruence. Qed.

(** ** Sorted lists of strings *)

Lemma sorted_permutation l : PyStr.sorted l ≡ₚ l.
Proof. apply merge_sort_Permutation. Qed.

Lemma sorted_strongly_sorted l : StronglySorted String.le (PyStr.sorted l).
Proof. apply StronglySorted_merge_sort; apply _. Qed.

Lemma elem_of_sorted x l : x ∈ PyStr.sorted l ↔ x ∈ l.
Proof. by rewrite sorted_permutation. Qed.

(** A sorted list without duplicates is strictly ascending, and back. *)
Lemma strongly_sorted_strict l :
  StronglySorted String.le l → NoDup l → StronglySorted string_lt l.
Proof.
  induction 1 as [|x l Hl IH Hx]; intros Hnd; [constructor|].
  apply NoDup_cons in Hnd as [Hnin Hnd].
  constructor; [by apply IH|].
  rewrite Forall_forall in Hx |- *. intros y Hy. split; [by apply Hx|].
  intros Hyx. assert (x = y) as -> by (apply (anti_symm String.le); auto).
  done.
Qed.

Lemma strict_strongly_sorted l :
  StronglySorted string_lt l → StronglySorted String.le l ∧ NoDup l.
Proof.
  induction 1 as [|x l Hl [IH1 IH2] Hx]; [split; constructor|].
  rewrite Forall_forall in Hx. split.
  - constructor; [done|]. apply Forall_forall. intros y Hy. by apply Hx.
  - apply NoDup_cons. split; [|done]. intros Hin.
    destruct (Hx x Hin) as [H1 H2]. done.
Qed.

(** Sorting a set gives a strictly ascending list. *)
Lemma sorted_elements_strict (X : gset string) :
  StronglySorted string_lt (PyStr.sorted (elements X)).
Proof.
  apply strongly_sorted_strict; [apply sorted_strongly_sorted|].
  rewrite sorted_permutation. apply NoDup_elements.
Qed.

(** A strictly ascending list is the sorted list of its set. *)
Lemma sorted_elements_of_sorted l :
  StronglySorted string_lt l →
  PyStr.sorted (elements (list_to_set l : gset string)) = l.
Proof.
  intros Hl. apply strict_strongly_sorted in Hl as [Hs Hnd].
  apply (StronglySorted_unique String.le); [apply sorted_strongly_sorted|done|].
  rewrite sorted_permutation. by apply elements_list_to_set.
Qed.

(** ** The forbidden clause *)

Lemma elem_of_unique_forbidden x fw :
  x ∈ unique_forbidden fw ↔
  ∃ w, w ∈ fw ∧ w ≠ EmptyString ∧ x = PyStr.strip w.
Proof.
  unfold unique_forbidden.
  rewrite elem_of_sorted, elem_of_elements, elem_of_list_to_set, list_elem_of_fmap.
  split.
  - intros (w & -> & Hw). apply list_elem_of_filter in Hw as [Ht Hw].
    exists w. by rewrite <- truthy_nonempty.
  - intros (w & Hw & Hne & ->). exists w. split; [done|].
    apply list_elem_of_filter. by rewrite truthy_nonempty.
Qed.

Lemma unique_forbidden_strict fw : StronglySorted string_lt (unique_forbidden fw).
Proof. apply sorted_elements_strict. Qed.

(** On words that are not empty and already stripped, nothing is dropped
    and nothing is changed. *)
Lemma unique_forbidden_stripped fw :
  Forall (fun w => w ≠ EmptyString ∧ PyStr.strip w = w) fw →
  unique_forbidden fw = PyStr.sorted (elements (list_to_set fw : gset string)).
Proof.
  intros Hfw. unfold unique_forbidden. do 3 f_equal.
  induction Hfw as [|w fw [Hne Hst] Hfw IH]; [done|].
  rewrite filter_cons_True by (by apply truthy_nonempty).
  csimpl. by rewrite Hst, IH.
Qed.

Lemma clause_contains_joined joined :
  contains (vocab_forbidden_clause joined) ("  " +:+ joined) ∧
  contains (phrasal_forbidden_clause joined) ("  " +:+ joined).
Proof. split; apply (lines_contains [_; _; _]). Qed.

(** C7.  For a forbidden list that is not empty, the terms of the
    do-not-reuse clause are [take 200 unique], joined by a comma and a
    space, where [unique] holds the non-empty words of the list, stripped,
    each once, in strictly ascending order; at most 200 terms are rendered,
    the first ones in that order.  No letter changes case: on words that are
    not empty and stripped, as the history gives them, [unique] holds the
    very words of the list, and a list that is already strictly ascending,
    as the history gives it, is rendered as it is up to the 200th word.  When
    no word is left, no clause is rendered.  Both request functions render
    the same terms. *)
Theorem forbidden_clause_terms (forbidden_words : list string) :
  forbidden_words ≠ [] →
  let unique := unique_forbidden forbidden_words in
  let joined := PyStr.join ", " (take 200 unique) in
  (unique ≠ [] →
     vocab_forbidden_block forbidden_words = vocab_forbidden_clause joined ∧
     phrasal_forbidden_block forbidden_words = phrasal_forbidden_clause joined ∧
     contains (vocab_forbidden_block forbidden_words) ("  " +:+ joined) ∧
     contains (phrasal_forbidden_block forbidden_words) ("  " +:+ joined)) ∧
  (unique = [] →
     vocab_forbidden_block forbidden_words = EmptyString ∧
     phrasal_forbidden_block forbidden_words = EmptyString) ∧
  StronglySorted string_lt unique ∧
  NoDup unique ∧
  (∀ x, x ∈ unique ↔
        ∃ w, w ∈ forbidden_words ∧ w ≠ EmptyString ∧ x = PyStr.strip w) ∧
  (length (take 200 unique) ≤ 200)%nat ∧
  take 200 unique `prefix_of` unique ∧
  (Forall (fun w => w ≠ EmptyString ∧ PyStr.strip w = w) forbidden_words →
     ∀ x, x ∈ unique ↔ x ∈ forbidden_words) ∧
  (Forall (fun w => w ≠ EmptyString ∧ PyStr.strip w = w) forbidden_words →
     StronglySorted string_lt forbidden_words →
     unique = forbidden_words).
Proof.
  intros Hne unique joined.
  assert (StronglySorted string_lt unique) as Hstrict
    by apply unique_forbidden_strict.
  split.
  { intros Hu. unfold vocab_forbidden_block, phrasal_forbidden_block.
    fold unique. destruct forbidden_words as [|w0 fw]; [done|].
    destruct unique as [|u us] eqn:E; [done|].
    split; [done|]. split; [done|]. apply clause_contains_joined. }
  split.
  { intros Hu. unfold vocab_forbidden_block, phrasal_forbidden_block.
    fold unique. rewrite Hu. by destruct forbidden_words. }
  split; [done|].
  split; [by apply strict_strongly_sorted in Hstrict as [_ ?]|].
  split; [intros x; apply elem_of_unique_forbidden|].
  split; [rewrite length_take; lia|].
  split; [apply prefix_take|].
  split.
  - intros Hfw x. unfold unique. rewrite elem_of_unique_forbidden.
    rewrite Forall_forall in Hfw. split.
    + intros (w & Hw & _ & ->). destruct (Hfw w Hw) as [_ ->]. done.
    + intros Hx. exists x. destruct (Hfw x Hx) as [? ->]. done.
  - intros Hfw Hsorted. unfold unique.
    rewrite unique_forbidden_stripped by done.
    by apply sorted_elements_of_sorted.
Qed.

Lemma forbidden_clause_terms_witness :
  mixed_forbidden ≠ [] ∧
  vocab_forbidden_block mixed_forbidden = vocab_forbidden_clause "B, a, triage" ∧
  phrasal_forbidden_block mixed_forbidden = phrasal_forbidden_clause "B, a, triage".
Proof.
  assert (mixed_forbidden ≠ []) as Hne by discriminate.
  destruct (forbidden_clause_terms mixed_forbidden Hne) as (Hblock & _).
  destruct Hblock as (Hv & Hp & _); [vm_compute; discriminate|].
  split; [exact Hne|]. split.
  - rewrite Hv. vm_compute. reflexivity.
  - rewrite Hp. vm_compute. reflexivity.
Defined.

(** Of 201 forbidden words, the 200 first in ascending order are rendered
    and the last one is left out. *)
Example forbidden_clause_truncates :
  length (unique_forbidden many_forbidden) = 201%nat ∧
  take 200 (unique_forbidden many_forbidden) = take 200 many_forbidden ∧
  "1200" ∈ unique_forbidden many_forbidden ∧
  "1200" ∉ take 200 (unique_forbidden many_forbidden).
Proof.
  split; [vm_compute; reflexivity|].
  split; [vm_compute; reflexivity|].
  split.
  - apply (bool_decide_unpack ("1200" ∈ unique_forbidden many_forbidden)).
    vm_compute. exact I.
  - apply (bool_decide_unpack ("1200" ∉ take 200 (unique_forbidden many_forbidden))).
    vm_compute. exact I.
Qed.

(** ** The history loop *)

Lemma normalized_or_empty_str x :
  Py.normalized_or_empty (Some (Json.JStr x)) = Ok (PyStr.lower (PyStr.strip x)).
Proof. by destruct x. Qed.

(** The loop only adds. *)
Lemma absorb_mono l X X' err : absorb l X = (X', err) → X ⊆ X'.
Proof.
  revert X. induction l as [|it l IH]; intros X; simpl.
  { by intros [= <- _]. }
  destruct (x ← Py.get it "word"; Py.normalized_or_empty x) as [e|w].
  { by intros [= <- _]. }
  intros Habs. apply IH in Habs. destruct (PyStr.truthy w); set_solver.
Qed.

(** It completes exactly on the batches whose items it can read. *)
Lemma absorb_completes l X : Forall absorbable l → ∃ X', absorb l X = (X', None).
Proof.
  intros Hl. revert X. induction Hl as [|it l [w Hw] Hl IH]; intros X; simpl.
  { by eexists. }
  rewrite Hw. apply IH.
Qed.

Lemma absorb_cons_str it l X x :
  Py.get it "word" = Ok (Some (Json.JStr x)) →
  absorb (it :: l) X
  = absorb l (if PyStr.truthy (PyStr.lower (PyStr.strip x))
              then {[PyStr.lower (PyStr.strip x)]} ∪ X else X).
Proof. intros Hget. simpl. rewrite Hget. by destruct x. Qed.

(** When it completes, the normalized word of every item is in the set. *)
Lemma absorb_words l X X' it x :
  absorb l X = (X', None) → it ∈ l →
  Py.get it "word" = Ok (Some (Json.JStr x)) →
  PyStr.lower (PyStr.strip x) ≠ EmptyString →
  PyStr.lower (PyStr.strip x) ∈ X'.
Proof.
  intros Habs Hit Hget Hne. revert X Habs.
  induction Hit as [it l | it it' l Hit IH]; intros X.
  - rewrite (absorb_cons_str _ _ _ _ Hget).
    rewrite (proj2 (truthy_nonempty _) Hne).
    intros Habs. apply absorb_mono in Habs. set_solver.
  - simpl.
    destruct (x ← Py.get it' "word"; Py.normalized_or_empty x) as [e|w]; [done|].
    by apply IH.
Qed.

(** Whatever it adds is a normalized word. *)
Lemma absorb_normalized l X X' err w :
  absorb l X = (X', err) → w ∈ X' → w ∈ X ∨ normalized_word w.
Proof.
  revert X. induction l as [|it l IH]; intros X; simpl.
  { intros [= <- _]. by left. }
  destruct (x ← Py.get it "word"; Py.normalized_or_empty x) as [e|w0] eqn:E.
  { intros [= <- _]. by left. }
  intros Habs Hw. destruct (IH _ Habs Hw) as [Hin|?]; [|by right].
  destruct (PyStr.truthy w0) eqn:Ht; [|by left].
  apply elem_of_union in Hin as [Hin|?]; [|by left].
  apply elem_of_singleton in Hin as ->. right.
  destruct (Py.get it "word") as [e|[v|]]; simpl in E; try done.
  - unfold Py.normalized_or_empty in E.
    destruct (Py.truthy v); [|by simplify_eq].
    destruct v; try done. injection E as <-.
    split; [by apply truthy_nonempty|]. split; [apply strip_normalized|].
    clear. induction (PyStr.strip s) as [|c r IH]; simpl; [done|].
    rewrite IH. f_equal. clear. destruct c as [[] [] [] [] [] [] [] []]; reflexivity.
  - by simplify_eq.
Qed.

Section HistoryFacts.
Context `{Countable K}.
Implicit Types (history : gmap K (gset string)) (key : K).

(** When the loop completes, the key holds the set the loop left and no
    other key has changed. *)
Lemma update_history_completed key items history history' l :
  Py.iter items = Ok l →
  update_history key items history = (history', None) →
  ∃ X', absorb l (default ∅ (history !! key)) = (X', None) ∧
        history' = <[key := X']> history.
Proof.
  intros Hl. unfold update_history. rewrite Hl.
  destruct (absorb l (default ∅ (history !! key))) as [X' [e|]] eqn:E.
  - destruct (history !! key); done.
  - intros [= <-]. by eexists.
Qed.

Lemma update_history_completes key items history l :
  Py.iter items = Ok l → Forall absorbable l →
  ∃ history', update_history key items history = (history', None).
Proof.
  intros Hl Habs. unfold update_history. rewrite Hl.
  destruct (absorb_completes l (default ∅ (history !! key)) Habs) as [X' ->].
  by eexists.
Qed.

(** After the update, the forbidden list of the key holds the normalized
    word of every item, and all that it held before. *)
Lemma update_history_forbidden key items history history' l :
  Py.iter items = Ok l →
  update_history key items history = (history', None) →
  (∀ it x, it ∈ l → Py.get it "word" = Ok (Some (Json.JStr x)) →
     PyStr.lower (PyStr.strip x) ≠ EmptyString →
     PyStr.lower (PyStr.strip x) ∈ forbidden_words_of history' key) ∧
  (∀ w, w ∈ forbidden_words_of history key → w ∈ forbidden_words_of history' key) ∧
  (∀ key', key' ≠ key →
     forbidden_words_of history' key' = forbidden_words_of history key').
Proof.
  intros Hl Hup.
  destruct (update_history_completed _ _ _ _ _ Hl Hup) as (X' & Habs & ->).
  unfold forbidden_words_of. split; [|split].
  - intros it x Hit Hget Hne. rewrite lookup_insert_eq. simpl.
    rewrite elem_of_sorted, elem_of_elements.
    by eapply absorb_words.
  - intros w. rewrite lookup_insert_eq. simpl.
    rewrite !elem_of_sorted, !elem_of_elements.
    apply absorb_mono in Habs. set_solver.
  - intros key' Hne. by rewrite lookup_insert_ne.
Qed.

Lemma forbidden_words_of_strict history key :
  StronglySorted string_lt (forbidden_words_of history key).
Proof. apply sorted_elements_strict. Qed.

(** The history only ever holds normalized words. *)
Lemma update_history_normalized key items history history' err :
  normalized_history history →
  update_history key items history = (history', err) →
  normalized_history history'.
Proof.
  intros Hnorm. unfold update_history.
  destruct (Py.iter items) as [e|l]; [by intros [= <- _]|].
  destruct (absorb l (default ∅ (history !! key))) as [X' oe] eqn:Habs.
  assert (normalized_history (<[key := X']> history)) as Hins.
  { intros k X w. destruct (decide (k = key)) as [->|Hne].
    - rewrite lookup_insert_eq. intros [= <-] Hw.
      destruct (absorb_normalized _ _ _ _ _ Habs Hw) as [Hold|?]; [|done].
      destruct (history !! key) as [X0|] eqn:E; simpl in Hold; [|set_solver].
      by apply (Hnorm key X0).
    - rewrite lookup_insert_ne by done. apply Hnorm. }
  destruct oe as [e|]; [|by intros [= <- _]].
  destruct (history !! key); by intros [= <- _].
Qed.

(** What the request functions render of a forbidden list read from a
    normalized history is the list itself. *)
Lemma forbidden_words_of_rendered history key :
  normalized_history history →
  unique_forbidden (forbidden_words_of history key) = forbidden_words_of history key.
Proof.
  intros Hnorm. rewrite unique_forbidden_stripped.
  - apply sorted_elements_of_sorted, forbidden_words_of_strict.
  - apply Forall_forall. intros w Hw. unfold forbidden_words_of in Hw.
    rewrite elem_of_sorted, elem_of_elements in Hw.
    destruct (history !! key) as [X|] eqn:E; simpl in Hw; [|set_solver].
    destruct (Hnorm key X w E Hw) as (? & ? & _). done.
Qed.

End HistoryFacts.

(** ** Showing and saving leave the session alone *)

Lemma insert_vocab_items_session o items topic tag difficulty w :
  session (insert_vocab_items o items topic tag difficulty w).2 = session w.
Proof.
  unfold insert_vocab_items. destruct (negb (Py.truthy items)); [done|].
  destruct (l ← Py.iter items; insert_loop _ _ _ _ l _ _); done.
Qed.

Lemma show_item_session o topic tag difficulty clicked it w :
  session (show_item o topic tag difficulty clicked it w).2 = session w.
Proof.
  unfold show_item.
  destruct (_ ← Py.subscript it "word"; _); [done|].
  destruct clicked; [apply insert_vocab_items_session|done].
Qed.

Lemma show_items_session o topic tag difficulty add l i w :
  session (show_items o topic tag difficulty add l i w).2 = session w.
Proof.
  revert i w. induction l as [|it l IH]; intros i w; simpl; [done|].
  pose proof (show_item_session o topic tag difficulty (add i) it w) as Hs.
  destruct (show_item o topic tag difficulty (add i) it w) as [[e|[]] w']; simpl in *;
    [done|]. by rewrite IH.
Qed.

Lemma show_batch_session o ui items topic tag difficulty w :
  session (show_batch o ui items topic tag difficulty w).2 = session w.
Proof.
  unfold show_batch. destruct (Py.len items); [done|].
  assert (∀ r : result unit * world, session r.2 = session w →
            session (match r with
                     | (Raise e, w') => (Raised e, w')
                     | (Ok _, w') =>
                         if ui_save_all ui then
                           match insert_vocab_items o items (Some topic) (Some tag)
                                   (Some difficulty) w' with
                           | (Raise e, w'') => (Raised e, w'')
                           | (Ok _, w'') => (Finished, w'')
                           end
                         else (Finished, w')
                     end).2 = session w) as Hk.
  { intros [[e|[]] w'] Hs; simpl in *; [done|].
    destruct (ui_save_all ui); [|done].
    pose proof (insert_vocab_items_session o items (Some topic) (Some tag)
                  (Some difficulty) w') as Hi.
    destruct (insert_vocab_items _ _ _ _ _ w') as [[e|[]] w'']; simpl in *; congruence. }
  apply Hk. destruct (Py.iter items); [done|]. apply show_items_session.
Qed.

Lemma show_vocab_session o ui w : session (show_vocab o ui w).2 = session w.
Proof.
  unfold show_vocab. destruct (last_vocab_items (session w)); [|done].
  destruct (Py.truthy _); [apply show_batch_session|done].
Qed.

Lemma show_phrasal_session o ui w : session (show_phrasal o ui w).2 = session w.
Proof.
  unfold show_phrasal. destruct (last_phrasal_items (session w)); [|done].
  destruct (Py.truthy _); [apply show_batch_session|done].
Qed.

(** ** Generation rounds that succeed *)

(** After a round whose batch the history loop has read to the end, the
    session holds the updated history of the page and the batch as its last
    one; the other page's history is untouched. *)
Lemma page_generate_vocab_absorbs o ui w items history' :
  ui_generate ui = true → api_key_set o = true →
  (call_gpt_for_vocab o (ui_topic ui) (ui_num_items ui) (ui_difficulty ui)
     (vocab_forbidden (ui_topic ui) w) w).1 = Ok items →
  update_history (PyStr.lower (PyStr.strip (ui_topic ui))) items
    (default ∅ (vocab_history (session w))) = (history', None) →
  vocab_history (session (page_generate_vocab o ui w).2) = Some history' ∧
  phrasal_history (session (page_generate_vocab o ui w).2)
    = phrasal_history (session w) ∧
  last_vocab_items (session (page_generate_vocab o ui w).2) = Some items.
Proof.
  intros Hgen Hkey Hcall Hup. unfold page_generate_vocab.
  rewrite Hgen, Hkey. simpl negb. cbv iota.
  set (w0 := with_session _ w).
  fold (vocab_forbidden (ui_topic ui) w).
  rewrite (call_gpt_for_vocab_result _ _ _ _ _ w w0) in Hcall.
  destruct (call_gpt_for_vocab_world o (ui_topic ui) (ui_num_items ui)
              (ui_difficulty ui) (vocab_forbidden (ui_topic ui) w) w0) as [p Hw].
  destruct (call_gpt_for_vocab _ _ _ _ _ w0) as [[e|items'] w1]; simpl in *;
    [done|]. injection Hcall as ->. subst w1.
  rewrite Hup. rewrite show_vocab_session. done.
Qed.

Lemma page_generate_phrasal_verbs_absorbs o ui w items history' :
  ui_generate ui = true → api_key_set o = true →
  (call_gpt_for_phrasal_verbs o (ui_num_items ui) (ui_difficulty ui)
     (phrasal_forbidden (ui_difficulty ui) w) w).1 = Ok items →
  update_history (ui_difficulty ui) items
    (default ∅ (phrasal_history (session w))) = (history', None) →
  phrasal_history (session (page_generate_phrasal_verbs o ui w).2) = Some history' ∧
  vocab_history (session (page_generate_phrasal_verbs o ui w).2)
    = vocab_history (session w) ∧
  last_phrasal_items (session (page_generate_phrasal_verbs o ui w).2) = Some items.
Proof.
  intros Hgen Hkey Hcall Hup. unfold page_generate_phrasal_verbs.
  rewrite Hgen, Hkey. simpl negb. cbv iota.
  set (w0 := with_session _ w).
  fold (phrasal_forbidden (ui_difficulty ui) w).
  rewrite (call_gpt_for_phrasal_verbs_result _ _ _ _ w w0) in Hcall.
  destruct (call_gpt_for_phrasal_verbs_world o (ui_num_items ui)
              (ui_difficulty ui) (phrasal_forbidden (ui_difficulty ui) w) w0) as [p Hw].
  destruct (call_gpt_for_phrasal_verbs _ _ _ _ w0) as [[e|items'] w1]; simpl in *;
    [done|]. injection Hcall as ->. subst w1.
  rewrite Hup. rewrite show_phrasal_session. done.
Qed.

(** A run without a click on generate leaves both histories as they were,
    up to the empty dict that [setdefault] puts in. *)
Lemma page_generate_vocab_idle o ui w :
  ui_generate ui = false →
  session (page_generate_vocab o ui w).2
  = set_vocab_history (default ∅ (vocab_history (session w))) (session w).
Proof.
  intros Hgen. unfold page_generate_vocab. rewrite Hgen.
  by rewrite show_vocab_session.
Qed.

Lemma page_generate_phrasal_verbs_idle o ui w :
  ui_generate ui = false →
  session (page_generate_phrasal_verbs o ui w).2
  = set_phrasal_history (default ∅ (phrasal_history (session w))) (session w).
Proof.
  intros Hgen. unfold page_generate_phrasal_verbs. rewrite Hgen.
  by rewrite show_phrasal_session.
Qed.

(** C4.  Take a batch whose items the history loop can read.  After the
    round of the vocabulary page that absorbed it, the forbidden list read
    for the topic holds the word of every item, stripped and lower-cased,
    unless that is empty; it still holds all it held, and it is strictly
    ascending.  The same holds for the phrasal-verb page and its difficulty.
    A run of either page in which generate is not clicked absorbs nothing,
    and the forbidden list of every context read after it is the list read
    before it. *)
Theorem forbidden_list_round_trip (o : oracle) (ui : widgets) (w : world)
    (items : Json.json) (l : list Json.json) :
  Py.iter items = Ok l →
  Forall absorbable l →
  (ui_generate ui = true → api_key_set o = true →
   (call_gpt_for_vocab o (ui_topic ui) (ui_num_items ui) (ui_difficulty ui)
      (vocab_forbidden (ui_topic ui) w) w).1 = Ok items →
   (∀ it x, it ∈ l → Py.get it "word" = Ok (Some (Json.JStr x)) →
      PyStr.lower (PyStr.strip x) ≠ EmptyString →
      PyStr.lower (PyStr.strip x)
        ∈ vocab_forbidden (ui_topic ui) (page_generate_vocab o ui w).2) ∧
   (∀ x, x ∈ vocab_forbidden (ui_topic ui) w →
         x ∈ vocab_forbidden (ui_topic ui) (page_generate_vocab o ui w).2) ∧
   StronglySorted string_lt
     (vocab_forbidden (ui_topic ui) (page_generate_vocab o ui w).2)) ∧
  (ui_generate ui = true → api_key_set o = true →
   (call_gpt_for_phrasal_verbs o (ui_num_items ui) (ui_difficulty ui)
      (phrasal_forbidden (ui_difficulty ui) w) w).1 = Ok items →
   (∀ it x, it ∈ l → Py.get it "word" = Ok (Some (Json.JStr x)) →
      PyStr.lower (PyStr.strip x) ≠ EmptyString →
      PyStr.lower (PyStr.strip x)
        ∈ phrasal_forbidden (ui_difficulty ui) (page_generate_phrasal_verbs o ui w).2) ∧
   (∀ x, x ∈ phrasal_forbidden (ui_difficulty ui) w →
         x ∈ phrasal_forbidden (ui_difficulty ui)
               (page_generate_phrasal_verbs o ui w).2) ∧
   StronglySorted string_lt
     (phrasal_forbidden (ui_difficulty ui) (page_generate_phrasal_verbs o ui w).2)) ∧
  (ui_generate ui = false →
   ∀ topic difficulty,
     vocab_forbidden topic (page_generate_vocab o ui w).2 = vocab_forbidden topic w ∧
     phrasal_forbidden difficulty (page_generate_vocab o ui w).2
       = phrasal_forbidden difficulty w ∧
     vocab_forbidden topic (page_generate_phrasal_verbs o ui w).2
       = vocab_forbidden topic w ∧
     phrasal_forbidden difficulty (page_generate_phrasal_verbs o ui w).2
       = phrasal_forbidden difficulty w).
Proof.
  intros Hl Habs. split; [|split].
  - intros Hgen Hkey Hcall.
    destruct (update_history_completes (PyStr.lower (PyStr.strip (ui_topic ui)))
                items (default ∅ (vocab_history (session w))) l Hl Habs)
      as [history' Hup].
    destruct (page_generate_vocab_absorbs o ui w items history' Hgen Hkey Hcall Hup)
      as (Hh & _).
    destruct (update_history_forbidden _ _ _ _ _ Hl Hup) as (Hwords & Hmono & _).
    unfold vocab_forbidden. rewrite Hh. simpl.
    split; [done|]. split; [done|]. apply forbidden_words_of_strict.
  - intros Hgen Hkey Hcall.
    destruct (update_history_completes (ui_difficulty ui)
                items (default ∅ (phrasal_history (session w))) l Hl Habs)
      as [history' Hup].
    destruct (page_generate_phrasal_verbs_absorbs o ui w items history' Hgen Hkey
                Hcall Hup) as (Hh & _).
    destruct (update_history_forbidden _ _ _ _ _ Hl Hup) as (Hwords & Hmono & _).
    unfold phrasal_forbidden. rewrite Hh. simpl.
    split; [done|]. split; [done|]. apply forbidden_words_of_strict.
  - intros Hgen topic difficulty.
    unfold vocab_forbidden, phrasal_forbidden.
    rewrite (page_generate_vocab_idle o ui w Hgen).
    rewrite (page_generate_phrasal_verbs_idle o ui w Hgen). done.
Qed.

Lemma forbidden_list_round_trip_witness :
  Py.iter (Json.JArr two_items) = Ok two_items ∧
  Forall absorbable two_items ∧
  "checkup" ∈ vocab_forbidden "Doctor visit"
                (page_generate_vocab (example_oracle reply_two_items)
                   (generate_click "Doctor visit" 5 2) fresh_world).2 ∧
  "triage" ∈ phrasal_forbidden 2
               (page_generate_phrasal_verbs (example_oracle reply_two_items)
                  (generate_click "Doctor visit" 5 2) fresh_world).2 ∧
  vocab_forbidden "doctor visit"
    (page_generate_vocab (example_oracle reply_two_items)
       (no_click "Doctor visit" 5 2) session_world).2
  = vocab_forbidden "doctor visit" session_world.
Proof.
  assert (Forall absorbable two_items) as Habs.
  { repeat constructor; eexists; reflexivity. }
  destruct (forbidden_list_round_trip (example_oracle reply_two_items)
              (generate_click "Doctor visit" 5 2) fresh_world
              (Json.JArr two_items) two_items eq_refl Habs)
    as (Hvocab & Hphrasal & _).
  destruct (forbidden_list_round_trip (example_oracle reply_two_items)
              (no_click "Doctor visit" 5 2) session_world
              (Json.JArr two_items) two_items eq_refl Habs)
    as (_ & _ & Hidle).
  destruct (Hvocab eq_refl eq_refl ltac:(vm_compute; reflexivity)) as (Hv & _).
  destruct (Hphrasal eq_refl eq_refl ltac:(vm_compute; reflexivity)) as (Hp & _).
  destruct (Hidle eq_refl "doctor visit" 2) as (Hsame & _).
  split; [reflexivity|]. split; [exact Habs|]. split; [|split].
  - apply (Hv (vocab_item " Checkup " "a medical examination" "体检"
                 "I scheduled a checkup.") " Checkup ").
    + left.
    + reflexivity.
    + discriminate.
  - apply (Hp (vocab_item "triage" "sorting patients by urgency" "分诊"
                 "Triage took an hour.") "triage").
    + right. left.
    + reflexivity.
    + discriminate.
  - exact Hsame.
Defined.

(** ** Sampling *)

Lemma order_by_random_permutation {A : Type} (random : nat → Z) (rows : list A) :
  order_by_random random rows ≡ₚ rows.
Proof.
  unfold order_by_random. rewrite merge_sort_Permutation.
  rewrite snd_zip; [done|]. by rewrite length_fmap, length_seq.
Qed.

Lemma limit_length {A : Type} (n : Z) (rows : list A) :
  0 <= n → length (limit n rows) = Nat.min (Z.to_nat n) (length rows).
Proof.
  intros Hn. unfold limit.
  replace (n <? 0) with false by (symmetry; apply Z.ltb_ge; lia).
  apply length_take.
Qed.

Lemma limit_submseteq {A : Type} (n : Z) (rows : list A) : limit n rows ⊆+ rows.
Proof. unfold limit. destruct (n <? 0); [done|apply submseteq_take]. Qed.

(** A negative limit is no limit. *)
Lemma limit_negative {A : Type} (n : Z) (rows : list A) :
  n < 0 → limit n rows = rows.
Proof.
  intros Hn. unfold limit.
  by replace (n <? 0) with true by (symmetry; apply Z.ltb_lt; lia).
Qed.

Lemma bind_int_in_range n :
  - 2 ^ 63 <= n < 2 ^ 63 → bind_int (Some n) = Ok (PInt n).
Proof.
  intros Hn. unfold bind_int, in_int64.
  replace (- 2 ^ 63 <=? n) with true by (symmetry; apply Z.leb_le; lia).
  by replace (n <? 2 ^ 63) with true by (symmetry; apply Z.ltb_lt; lia).
Qed.

(** The difficulty is the eighth column a SELECT returns. *)
Lemma project_difficulty cols rows r d :
  Forall (difficulty_is cols d) rows →
  r ∈ project select_columns cols rows → r !! 7%nat = Some (SqlInt d).
Proof.
  intros Hall Hr. unfold project in Hr.
  apply list_elem_of_fmap in Hr as (row & -> & Hrow).
  rewrite Forall_forall in Hall. specialize (Hall row Hrow).
  unfold difficulty_is in Hall. simpl. by rewrite Hall.
Qed.

(** What the filtered query returns when nothing fails. *)
Lemma get_random_items_filtered o lim d w t :
  db w = Some t → prepare select_columns t = Ok tt →
  - 2 ^ 63 <= lim < 2 ^ 63 → - 2 ^ 63 <= d < 2 ^ 63 →
  get_random_items o lim (Some d) w
  = (Ok (project select_columns (tbl_columns t)
           (limit lim (order_by_random (sql_random o) (matching_rows d t)))),
     emit EvClose (emit EvConnect w)).
Proof.
  intros Hdb Hprep Hlim Hd. unfold get_random_items.
  change (db (emit EvConnect w)) with (db w). rewrite Hdb.
  cbn [mbind result_bind]. rewrite Hprep.
  cbn [mbind result_bind]. rewrite (bind_int_in_range d Hd).
  cbn [mbind result_bind]. rewrite (bind_int_in_range lim Hlim).
  done.
Qed.

(** C6.  On a store that has the columns of the query, for a limit from 0
    up and a difficulty that SQLite can bind, [get_random_items] with the
    difficulty [d] raises nothing; every entry it returns has difficulty
    [d]; the entries returned are entries of the store with difficulty [d],
    none of them twice; their number is the smaller of the limit and of the
    number of entries with difficulty [d], so that it never exceeds the
    limit and falls short of it only when fewer entries match; when none
    matches, the result is the empty list. *)
Theorem random_items_respect_filter (o : oracle) (lim d : Z) (w : world)
    (t : table) :
  db w = Some t →
  prepare select_columns t = Ok tt →
  0 <= lim < 2 ^ 63 →
  - 2 ^ 63 <= d < 2 ^ 63 →
  ∃ rows,
    (get_random_items o lim (Some d) w).1 = Ok rows ∧
    Forall (fun r => r !! 7%nat = Some (SqlInt d)) rows ∧
    rows ⊆+ project select_columns (tbl_columns t) (matching_rows d t) ∧
    length rows = Nat.min (Z.to_nat lim) (length (matching_rows d t)) ∧
    Z.of_nat (length rows) <= lim ∧
    (Z.of_nat (length rows) < lim →
       Z.of_nat (length (matching_rows d t)) < lim) ∧
    (matching_rows d t = [] → rows = []) ∧
    db (get_random_items o lim (Some d) w).2 = db w.
Proof.
  intros Hdb Hprep Hlim Hd.
  rewrite (get_random_items_filtered o lim d w t Hdb Hprep) by lia.
  cbn [fst snd].
  set (chosen := limit lim (order_by_random (sql_random o) (matching_rows d t))).
  assert (chosen ⊆+ matching_rows d t) as Hsub.
  { unfold chosen. etrans; [apply limit_submseteq|].
    apply Permutation_submseteq, order_by_random_permutation. }
  assert (length chosen = Nat.min (Z.to_nat lim) (length (matching_rows d t)))
    as Hlen.
  { unfold chosen. rewrite limit_length by lia.
    by rewrite order_by_random_permutation. }
  exists (project select_columns (tbl_columns t) chosen).
  assert (length (project select_columns (tbl_columns t) chosen) = length chosen)
    as Hplen by (unfold project; apply length_fmap).
  split; [done|]. split.
  { apply Forall_forall. intros r Hr.
    apply (project_difficulty (tbl_columns t) chosen); [|done].
    apply Forall_forall. intros row Hrow.
    assert (row ∈ matching_rows d t) as Hin.
    { pose proof (submseteq_Permutation _ _ Hsub) as [k Hk].
      rewrite Hk. apply elem_of_app. by left. }
    unfold matching_rows in Hin. by apply list_elem_of_filter in Hin as [? _]. }
  split; [by unfold project; apply fmap_submseteq|].
  split; [by rewrite Hplen|].
  split; [rewrite Hplen, Hlen; lia|].
  split; [rewrite Hplen, Hlen; lia|].
  split; [|done].
  intros Hnone. rewrite Hnone in Hlen. simpl in Hlen.
  rewrite Nat.min_0_r in Hlen. apply nil_length_inv. by rewrite Hplen.
Qed.

Lemma random_items_respect_filter_witness :
  db five_entries_world = Some five_entries_table ∧
  prepare select_columns five_entries_table = Ok tt ∧
  ∃ rows,
    (get_random_items (example_oracle EmptyString) 10 (Some 3) five_entries_world).1
      = Ok rows ∧
    length rows = 2%nat ∧
    Forall (fun r => r !! 7%nat = Some (SqlInt 3)) rows.
Proof.
  assert (db five_entries_world = Some five_entries_table) as Hdb
    by (vm_compute; reflexivity).
  assert (prepare select_columns five_entries_table = Ok tt) as Hprep
    by (vm_compute; reflexivity).
  destruct (random_items_respect_filter (example_oracle EmptyString) 10 3
              five_entries_world five_entries_table Hdb Hprep
              ltac:(lia) ltac:(lia))
    as (rows & Hres & Hall & _ & Hlen & _).
  split; [exact Hdb|]. split; [exact Hprep|].
  exists rows. split; [exact Hres|]. split; [|exact Hall].
  rewrite Hlen. vm_compute. reflexivity.
Defined.

(** ** The rows an insert appends *)

Lemma store_integer_bind_int difficulty p :
  bind_int difficulty = Ok p →
  store INTEGER p = match difficulty with Some n => SqlInt n | None => SqlNull end.
Proof.
  unfold bind_int. destruct difficulty as [n|]; [|by intros [= <-]].
  destruct (in_int64 n); [by intros [= <-]|done].
Qed.

Lemma new_row_vocab p1 p2 p3 p4 p5 p6 p7 rowid now :
  new_row insert_columns [p1; p2; p3; p4; p5; p6; p7] rowid now vocab_columns
  = [ SqlInt rowid; store TEXT p1; store TEXT p2; store TEXT p3; store TEXT p4;
      store TEXT p5; store TEXT p6; store INTEGER p7; SqlText now ].
Proof. reflexivity. Qed.

(** An INSERT that succeeds on the [vocab] table appends the entry of the
    item under the next id. *)
Lemma execute_insert_vocab it topic tag difficulty now t t' :
  tbl_columns t = vocab_columns →
  execute_insert it topic tag difficulty now (Some t) = Ok t' →
  t' = Table vocab_columns
         (tbl_rows t ++ [stored_row (tbl_seq t + 1) it topic tag difficulty now])
         (tbl_seq t + 1).
Proof.
  intros Hcols. unfold execute_insert, stored_row, stored_cell.
  destruct (Py.get it "word") as [e|x0]; cbn [mbind result_bind]; [done|].
  destruct (Py.get it "meaning_en") as [e|x1]; cbn [mbind result_bind]; [done|].
  destruct (Py.get it "meaning_zh") as [e|x2]; cbn [mbind result_bind]; [done|].
  destruct (Py.get it "example") as [e|x3]; cbn [mbind result_bind]; [done|].
  destruct (prepare insert_columns t) as [e|[]]; cbn [mbind result_bind]; [done|].
  destruct (bind_json x0) as [e|p1]; cbn [mbind result_bind]; [done|].
  destruct (bind_json x1) as [e|p2]; cbn [mbind result_bind]; [done|].
  destruct (bind_json x2) as [e|p3]; cbn [mbind result_bind]; [done|].
  destruct (bind_json x3) as [e|p4]; cbn [mbind result_bind]; [done|].
  destruct (bind_int difficulty) as [e|p7] eqn:Hd; cbn [mbind result_bind]; [done|].
  unfold insert_into. rewrite Hcols, new_row_vocab.
  destruct (negb (tbl_seq t + 1 <? 2 ^ 63)); [done|].
  match goal with |- context [violates_notnull ?c ?r] =>
    destruct (violates_notnull c r); [done|] end.
  intros [= <-]. by rewrite (store_integer_bind_int _ _ Hd).
Qed.

(** The loop appends the entries of the items in the order of the batch,
    under consecutive ids. *)
Lemma insert_loop_rows clk topic tag difficulty l i t conn :
  tbl_columns t = vocab_columns →
  insert_loop clk topic tag difficulty l i (Some t) = Ok conn →
  conn = Some (Table vocab_columns
                 (tbl_rows t ++
                    imap (fun j it => stored_row (tbl_seq t + Z.of_nat j + 1) it
                                        topic tag difficulty (clk (i + j)%nat)) l)
                 (tbl_seq t + Z.of_nat (length l))).
Proof.
  revert i t. induction l as [|it l IH]; intros i t Hcols; simpl.
  { intros [= <-]. rewrite app_nil_r, Z.add_0_r, <- Hcols. by destruct t. }
  destruct (execute_insert it topic tag difficulty (clk i) (Some t)) as [e|t'] eqn:E;
    cbn [mbind result_bind]; [done|].
  apply execute_insert_vocab in E; [|done]. subst t'.
  intros Hloop. apply IH in Hloop; [|done]. subst conn. simpl.
  f_equal. f_equal.
  - rewrite <- app_assoc. simpl. f_equal.
    rewrite Nat.add_0_r, Z.add_0_r. f_equal.
    apply imap_ext. intros j x _. simpl.
    replace (i + S j)%nat with (S i + j)%nat by lia.
    f_equal. lia.
  - lia.
Qed.

Lemma numbered_app n l1 l2 :
  numbered n (l1 ++ l2) ↔ numbered n l1 ∧ numbered (n + Z.of_nat (length l1)) l2.
Proof.
  revert n. induction l1 as [|row l1 IH]; intros n; simpl.
  - rewrite Z.add_0_r. tauto.
  - rewrite IH. replace (n + 1 + Z.of_nat (length l1)) with (n + Z.pos (Pos.of_succ_nat (length l1))) by lia.
    tauto.
Qed.

Lemma numbered_stored_rows o total l topic tag difficulty :
  numbered (Z.of_nat total + 1) (stored_rows o total l topic tag difficulty).
Proof.
  unfold stored_rows. generalize (clock o). intros clk.
  assert (∀ n (f : nat → string),
            numbered n (imap (fun j it => stored_row (n + Z.of_nat j) it topic tag
                                            difficulty (f j)) l)) as Hgen.
  { induction l as [|it l IH]; intros n f; simpl; [done|].
    split; [done|]. split; [by rewrite Z.add_0_r|].
    erewrite imap_ext; [apply (IH (n + 1) (f ∘ S))|].
    intros j x _. simpl. f_equal. lia. }
  erewrite imap_ext; [apply (Hgen (Z.of_nat total + 1) clk)|].
  intros j x _. simpl. f_equal. lia.
Qed.

Lemma numbered_ids n rows : numbered n rows → entry_id <$> rows = seqZ n (Z.of_nat (length rows)).
Proof.
  revert n. induction rows as [|row rows IH]; intros n; simpl; [done|].
  intros (_ & Hid & Hrest). rewrite seqZ_cons by lia. csimpl.
  f_equal.
  - unfold entry_id. by rewrite Hid.
  - etrans; [apply (IH _ Hrest)|]. f_equal; lia.
Qed.

Lemma numbered_bounds n rows row :
  numbered n rows → row ∈ rows → n <= entry_id row < n + Z.of_nat (length rows).
Proof.
  revert n. induction rows as [|r rows IH]; intros n Hn Hin; [by inv Hin|].
  destruct Hn as (_ & Hid & Hrest). simpl length.
  apply elem_of_cons in Hin as [-> | Hin].
  - unfold entry_id. rewrite Hid. lia.
  - specialize (IH _ Hrest Hin). lia.
Qed.

(** Rows with the same id are the same row. *)
Lemma numbered_inj n rows r1 r2 :
  numbered n rows → r1 ∈ rows → r2 ∈ rows → entry_id r1 = entry_id r2 → r1 = r2.
Proof.
  revert n. induction rows as [|r rows IH]; intros n Hn H1 H2 Heq; [by inv H1|].
  destruct Hn as (_ & Hid & Hrest).
  assert (entry_id r = n) as Hr by (unfold entry_id; by rewrite Hid).
  apply elem_of_cons in H1 as [-> | H1]; apply elem_of_cons in H2 as [-> | H2].
  - done.
  - pose proof (numbered_bounds _ _ _ Hrest H2). lia.
  - pose proof (numbered_bounds _ _ _ Hrest H1). lia.
  - by eapply IH.
Qed.

(** Read backwards, numbered rows have strictly descending ids. *)
Lemma numbered_reverse_sorted n rows :
  numbered n rows → StronglySorted id_gt (reverse rows).
Proof.
  revert n. induction rows as [|r rows IH]; intros n Hn; [constructor|].
  destruct Hn as (_ & Hid & Hrest). rewrite reverse_cons.
  apply StronglySorted_app. split; [|split].
  - intros x1 x2 Hx1 Hx2. apply list_elem_of_singleton in Hx2 as ->.
    rewrite elem_of_reverse in Hx1.
    pose proof (numbered_bounds _ _ _ Hrest Hx1).
    unfold id_gt, entry_id at 1. rewrite Hid. lia.
  - by eapply IH.
  - repeat constructor.
Qed.

(** ** Recent items *)

#[local] Instance id_desc_transitive cols : Transitive (id_desc cols).
Proof. intros r1 r2 r3. unfold id_desc. lia. Qed.

#[local] Instance id_desc_total cols : Total (id_desc cols).
Proof. intros r1 r2. unfold id_desc. lia. Qed.

Lemma rowid_key_vocab row : rowid_key vocab_columns row = entry_id row.
Proof.
  unfold rowid_key, entry_id, read, cell.
  change (col_index "id" vocab_columns) with (Some 0%nat). simpl.
  by destruct (row !! 0%nat) as [[]|].
Qed.

(** On numbered rows, ORDER BY id DESC is the reverse of insertion order. *)
Lemma order_by_id_desc_numbered n rows :
  numbered n rows → order_by_id_desc vocab_columns rows = reverse rows.
Proof.
  intros Hn. unfold order_by_id_desc.
  apply (StronglySorted_unique_strong (id_desc vocab_columns)).
  - intros x1 x2 Hx1 Hx2 H12 H21.
    rewrite merge_sort_Permutation in Hx1. rewrite elem_of_reverse in Hx2.
    apply (numbered_inj n rows); [done..|].
    unfold id_desc in *. rewrite !rowid_key_vocab in *. lia.
  - apply StronglySorted_merge_sort; apply _.
  - pose proof (numbered_reverse_sorted n rows Hn) as Hs.
    induction Hs as [|x l Hl IH Hx]; constructor; [done|].
    eapply Forall_impl; [exact Hx|].
    intros y Hy. unfold id_desc, id_gt in *. rewrite !rowid_key_vocab. lia.
  - by rewrite merge_sort_Permutation, reverse_Permutation.
Qed.

(** A row of nine cells is returned as it is stored. *)
Lemma project_vocab_row row :
  length row = 9%nat → read vocab_columns row <$> select_columns = row.
Proof.
  intros Hlen.
  destruct row as [|c0 [|c1 [|c2 [|c3 [|c4 [|c5 [|c6 [|c7 [|c8 [|c9 row]]]]]]]]]];
    try discriminate.
  reflexivity.
Qed.

Lemma numbered_length n rows row : numbered n rows → row ∈ rows → length row = 9%nat.
Proof.
  revert n. induction rows as [|r rows IH]; intros n Hn Hin; [by inv Hin|].
  destruct Hn as (Hlen & _ & Hrest).
  apply elem_of_cons in Hin as [-> | Hin]; [done|by eapply IH].
Qed.

Lemma project_vocab n rows sel :
  numbered n rows → sel ⊆ rows → project select_columns vocab_columns sel = sel.
Proof.
  intros Hn Hsub. unfold project.
  induction sel as [|row sel IH]; [done|]. rewrite fmap_cons.
  rewrite project_vocab_row.
  - f_equal. apply IH. set_solver.
  - apply (numbered_length n rows); [done|]. set_solver.
Qed.

(** What [get_recent_items] returns on a store that only inserts have
    written to, for a limit from 0 up. *)
Lemma get_recent_items_store_ok lim w t :
  db w = Some t → store_ok t → 0 <= lim < 2 ^ 63 →
  get_recent_items lim w
  = (Ok (reverse (drop (length (tbl_rows t) - Z.to_nat lim) (tbl_rows t))),
     emit EvClose (emit EvConnect w)).
Proof.
  intros Hdb (Hcols & Hnum & _) Hlim. unfold get_recent_items.
  change (db (emit EvConnect w)) with (db w). rewrite Hdb.
  cbn [mbind result_bind].
  assert (prepare select_columns t = Ok tt) as ->.
  { unfold prepare, has_column. by rewrite Hcols. }
  cbn [mbind result_bind]. rewrite (bind_int_in_range lim) by lia.
  cbn [mbind result_bind]. rewrite Hcols.
  rewrite (order_by_id_desc_numbered 1 _ Hnum).
  unfold limit. replace (lim <? 0) with false by (symmetry; apply Z.ltb_ge; lia).
  rewrite take_reverse.
  rewrite (project_vocab 1 (tbl_rows t)); [done|done|].
  intros x. rewrite elem_of_reverse. apply subseteq_drop.
Qed.

(** A negative limit is no limit to SQLite: all rows come back. *)
Lemma get_recent_items_negative_limit lim w t :
  db w = Some t → store_ok t → - 2 ^ 63 <= lim < 0 →
  (get_recent_items lim w).1 = Ok (reverse (tbl_rows t)).
Proof.
  intros Hdb (Hcols & Hnum & _) Hlim. unfold get_recent_items.
  change (db (emit EvConnect w)) with (db w). rewrite Hdb.
  cbn [mbind result_bind].
  assert (prepare select_columns t = Ok tt) as ->.
  { unfold prepare, has_column. by rewrite Hcols. }
  cbn [mbind result_bind]. rewrite (bind_int_in_range lim) by lia.
  cbn [mbind result_bind fst]. rewrite Hcols.
  rewrite (order_by_id_desc_numbered 1 _ Hnum).
  rewrite limit_negative by lia.
  rewrite (project_vocab 1 (tbl_rows t)); [done|done|].
  intros x. by rewrite elem_of_reverse.
Qed.

Lemma fresh_world_store_ok :
  db fresh_world = Some (Table vocab_columns [] 0) ∧ store_ok (Table vocab_columns [] 0).
Proof. split; [reflexivity|]. by repeat split. Qed.

Lemma numbered_drop n rows k :
  numbered n rows → numbered (n + Z.of_nat (Nat.min k (length rows))) (drop k rows).
Proof.
  intros Hn. rewrite <- (take_drop k rows) in Hn.
  apply numbered_app in Hn as [_ Hn]. by rewrite length_take in Hn.
Qed.

(** On a store that only inserts have written to, an insert that succeeds
    appends the entries of its batch, in the order of the batch and under
    the next ids; one that raises leaves the table as it was. *)
Lemma insert_vocab_items_store_ok o items topic tag difficulty w t :
  db w = Some t → store_ok t →
  ∃ t', db (insert_vocab_items o items topic tag difficulty w).2 = Some t' ∧
        store_ok t' ∧
        (∀ e, (insert_vocab_items o items topic tag difficulty w).1 = Raise e →
              t' = t) ∧
        (∀ l, items = Json.JArr l →
              (insert_vocab_items o items topic tag difficulty w).1 = Ok tt →
              tbl_rows t' = tbl_rows t ++
                stored_rows o (length (tbl_rows t)) l topic tag difficulty).
Proof.
  intros Hdb Hok. unfold insert_vocab_items.
  destruct (Py.truthy items) eqn:Htr; simpl negb; cbv iota.
  2:{ exists t. split; [done|]. split; [done|]. split; [done|].
      intros l -> _. destruct l; [|done]. by rewrite app_nil_r. }
  change (db (emit EvConnect w)) with (db w). rewrite Hdb.
  destruct (Py.iter items) as [e|l0] eqn:Hiter; cbn [mbind result_bind].
  { exists t. split; [done|]. split; [done|]. split; done. }
  destruct (insert_loop (clock o) topic tag difficulty l0 0 (Some t))
    as [e|conn] eqn:Hloop.
  { exists t. split; [done|]. split; [done|]. split; done. }
  destruct Hok as (Hcols & Hnum & Hseq).
  apply insert_loop_rows in Hloop; [|done]. subst conn.
  assert (imap (fun j it => stored_row (tbl_seq t + Z.of_nat j + 1) it topic tag
                              difficulty (clock o (0 + j)%nat)) l0
          = stored_rows o (length (tbl_rows t)) l0 topic tag difficulty) as Himap.
  { unfold stored_rows. apply imap_ext. intros j x _. simpl. by rewrite Hseq. }
  rewrite Himap.
  eexists. split; [reflexivity|]. split; [|split].
  - split; [done|]. simpl. split.
    + apply numbered_app. split; [done|]. rewrite Z.add_comm.
      apply numbered_stored_rows.
    + rewrite length_app. unfold stored_rows. rewrite length_imap. lia.
  - done.
  - intros l -> _. simpl in Hiter. by injection Hiter as <-.
Qed.

Lemma run_inserts_store_ok calls w t :
  db w = Some t → store_ok t →
  ∃ t', db (run_inserts calls w) = Some t' ∧ store_ok t'.
Proof.
  revert w t. induction calls as [|c calls IH]; intros w t Hdb Hok; simpl.
  { by exists t. }
  destruct (insert_vocab_items_store_ok (call_oracle c) (call_items c)
              (call_topic c) (call_tag c) (call_difficulty c) w t Hdb Hok)
    as (t' & Hdb' & Hok' & _).
  by apply (IH (run_insert w c) t').
Qed.

(** C5.  Take the store after any sequence of inserts into a fresh store.
    Its entries, in the order they were inserted, have the ids 1, 2, ...,
    total: every insert that succeeds appends the entries of its batch
    after all others, and one that raises appends nothing.  For a limit from
    0 up, [get_recent_items] returns the last min(limit, total) of these
    entries, the last inserted first, so that their ids are strictly
    descending. *)
Theorem recent_items_are_last_inserted (calls : list insert_call) (lim : Z) :
  0 <= lim < 2 ^ 63 →
  let w := run_inserts calls fresh_world in
  let total := length (store_rows w) in
  let recent := reverse (drop (total - Z.to_nat lim) (store_rows w)) in
  (get_recent_items lim w).1 = Ok recent ∧
  length recent = Nat.min (Z.to_nat lim) total ∧
  StronglySorted id_gt recent ∧
  entry_id <$> store_rows w = seqZ 1 (Z.of_nat total) ∧
  (∀ o l topic tag difficulty,
     ((insert_vocab_items o (Json.JArr l) topic tag difficulty w).1 = Ok tt →
      store_rows (insert_vocab_items o (Json.JArr l) topic tag difficulty w).2
      = store_rows w ++ stored_rows o total l topic tag difficulty) ∧
     (∀ e, (insert_vocab_items o (Json.JArr l) topic tag difficulty w).1 = Raise e →
      store_rows (insert_vocab_items o (Json.JArr l) topic tag difficulty w).2
      = store_rows w)).
Proof.
  intros Hlim w total recent.
  destruct fresh_world_store_ok as [Hfresh Hok0].
  destruct (run_inserts_store_ok calls fresh_world _ Hfresh Hok0) as (t & Hdb & Hok).
  fold w in Hdb.
  assert (store_rows w = tbl_rows t) as Hrows by (unfold store_rows; by rewrite Hdb).
  pose proof Hok as (Hcols & Hnum & Hseq).
  split.
  { rewrite (get_recent_items_store_ok lim w t Hdb Hok Hlim).
    unfold recent, total. by rewrite Hrows. }
  split.
  { unfold recent. rewrite length_reverse, length_drop. fold total. lia. }
  split.
  { unfold recent. rewrite Hrows.
    eapply numbered_reverse_sorted, numbered_drop, Hnum. }
  split.
  { unfold total. rewrite Hrows. by apply numbered_ids. }
  intros o l topic tag difficulty.
  destruct (insert_vocab_items_store_ok o (Json.JArr l) topic tag difficulty w t
              Hdb Hok) as (t' & Hdb' & _ & Hfail & Hsucc).
  unfold store_rows at 1 3. rewrite Hdb'. split.
  - intros Hres. rewrite (Hsucc l eq_refl Hres). unfold total. by rewrite Hrows.
  - intros e Hres. rewrite (Hfail e Hres). by rewrite Hrows.
Qed.

Lemma recent_items_are_last_inserted_witness :
  0 <= 1 < 2 ^ 63 ∧
  (get_recent_items 1 (run_inserts doctor_visit_calls fresh_world)).1
  = Ok [ [ SqlInt 3; SqlText "checkup"; SqlText "a medical examination";
           SqlText "体检"; SqlText "I scheduled a checkup."; SqlText "doctor visit";
           SqlText "daily_vocab_2"; SqlInt 2; SqlText "2024-05-01 09:30:00" ] ].
Proof.
  assert (0 <= 1 < 2 ^ 63) as Hlim by lia.
  destruct (recent_items_are_last_inserted doctor_visit_calls 1 Hlim) as (Hres & _).
  split; [exact Hlim|]. rewrite Hres. vm_compute. reflexivity.
Defined.

(** What a batch that the history loop cannot read to the end leaves
    behind: the reply is valid JSON, so the round goes on; the batch becomes
    the last one of the session; the loop adds the word of the first item to
    the set of the topic, which the history already holds, and raises at the
    bare string. *)
Example unreadable_batch_is_partly_absorbed :
  (page_generate_vocab (example_oracle reply_item_then_bare)
     (generate_click "Doctor visit" 5 2) session_world).1 = Raised AttributeError ∧
  vocab_forbidden "Doctor visit" session_world = ["checkup"; "triage"] ∧
  vocab_forbidden "Doctor visit"
    (page_generate_vocab (example_oracle reply_item_then_bare)
       (generate_click "Doctor visit" 5 2) session_world).2
  = ["checkup"; "gown"; "triage"] ∧
  store_rows (page_generate_vocab (example_oracle reply_item_then_bare)
                (generate_click "Doctor visit" 5 2) session_world).2
  = store_rows session_world.
Proof. repeat split; vm_compute; reflexivity. Qed.

(** * Further properties *)

(** ** Queries *)

Lemma project_lengths names cols rows :
  Forall (fun r => length r = length names) (project names cols rows).
Proof.
  unfold project. apply Forall_forall. intros r Hr.
  apply list_elem_of_fmap in Hr as (row & -> & _). by rewrite length_fmap.
Qed.

Lemma bind_int_out_of_range n :
  ¬ (- 2 ^ 63 <= n < 2 ^ 63) → bind_int (Some n) = Raise OverflowError.
Proof.
  intros Hn. unfold bind_int, in_int64.
  destruct (- 2 ^ 63 <=? n) eqn:H1; destruct (n <? 2 ^ 63) eqn:H2; simpl; try done.
  apply Z.leb_le in H1. apply Z.ltb_lt in H2. lia.
Qed.

Lemma prepare_missing_column names t name :
  name ∈ names → has_column name t = false → prepare names t = Raise OperationalError.
Proof.
  intros Hin Hmiss. unfold prepare.
  destruct (forallb (fun n => has_column n t) names) eqn:E; [|done].
  rewrite forallb_forall in E. apply list_elem_of_In in Hin.
  specialize (E name Hin). simpl in E. congruence.
Qed.

(** What the unfiltered query returns when nothing fails. *)
Lemma get_random_items_unfiltered o lim w t :
  db w = Some t → prepare select_columns t = Ok tt →
  - 2 ^ 63 <= lim < 2 ^ 63 →
  get_random_items o lim None w
  = (Ok (project select_columns (tbl_columns t)
           (limit lim (order_by_random (sql_random o) (tbl_rows t)))),
     emit EvClose (emit EvConnect w)).
Proof.
  intros Hdb Hprep Hlim. unfold get_random_items.
  change (db (emit EvConnect w)) with (db w). rewrite Hdb.
  cbn [mbind result_bind]. rewrite Hprep.
  cbn [mbind result_bind]. rewrite (bind_int_in_range lim Hlim).
  done.
Qed.

Lemma get_recent_items_ok lim w t :
  db w = Some t → prepare select_columns t = Ok tt →
  - 2 ^ 63 <= lim < 2 ^ 63 →
  get_recent_items lim w
  = (Ok (project select_columns (tbl_columns t)
           (limit lim (order_by_id_desc (tbl_columns t) (tbl_rows t)))),
     emit EvClose (emit EvConnect w)).
Proof.
  intros Hdb Hprep Hlim. unfold get_recent_items.
  change (db (emit EvConnect w)) with (db w). rewrite Hdb.
  cbn [mbind result_bind]. rewrite Hprep.
  cbn [mbind result_bind]. rewrite (bind_int_in_range lim Hlim).
  done.
Qed.

(** X1.  Without a difficulty, [get_random_items] samples the whole store:
    on a table that has the selected columns, for a limit from 0 up, it
    raises nothing and returns min(limit, total) entries of nine cells, each
    an entry of the store and none twice; when the limit is not below the
    total, every entry comes back.  The store is not changed. *)
Theorem random_items_unfiltered (o : oracle) (lim : Z) (w : world) (t : table) :
  db w = Some t →
  prepare select_columns t = Ok tt →
  0 <= lim < 2 ^ 63 →
  ∃ rows,
    (get_random_items o lim None w).1 = Ok rows ∧
    rows ⊆+ project select_columns (tbl_columns t) (tbl_rows t) ∧
    length rows = Nat.min (Z.to_nat lim) (length (tbl_rows t)) ∧
    ((length (tbl_rows t) <= Z.to_nat lim)%nat →
       rows ≡ₚ project select_columns (tbl_columns t) (tbl_rows t)) ∧
    Forall (fun r => length r = 9%nat) rows ∧
    db (get_random_items o lim None w).2 = db w.
Proof.
  intros Hdb Hprep Hlim.
  rewrite (get_random_items_unfiltered o lim w t Hdb Hprep) by lia.
  cbn [fst snd].
  eexists. split; [reflexivity|].
  split.
  { unfold project. apply fmap_submseteq. etrans; [apply limit_submseteq|].
    apply Permutation_submseteq, order_by_random_permutation. }
  split.
  { unfold project. rewrite length_fmap, limit_length by lia.
    by rewrite order_by_random_permutation. }
  split.
  { intros Hall. unfold project, limit.
    replace (lim <? 0) with false by (symmetry; apply Z.ltb_ge; lia).
    rewrite take_ge by (rewrite order_by_random_permutation; lia).
    by rewrite order_by_random_permutation. }
  split; [apply (project_lengths select_columns)|done].
Qed.

Lemma random_items_unfiltered_witness :
  db five_entries_world = Some five_entries_table ∧
  prepare select_columns five_entries_table = Ok tt ∧
  ∃ rows,
    (get_random_items (example_oracle EmptyString) 3 None five_entries_world).1
      = Ok rows ∧
    length rows = 3%nat.
Proof.
  assert (db five_entries_world = Some five_entries_table) as Hdb
    by (vm_compute; reflexivity).
  assert (prepare select_columns five_entries_table = Ok tt) as Hprep
    by (vm_compute; reflexivity).
  destruct (random_items_unfiltered (example_oracle EmptyString) 3
              five_entries_world five_entries_table Hdb Hprep ltac:(lia))
    as (rows & Hres & _ & Hlen & _).
  split; [exact Hdb|]. split; [exact Hprep|].
  exists rows. split; [exact Hres|]. rewrite Hlen. vm_compute. reflexivity.
Defined.

(** X2.  When there is no [vocab] table, or the table lacks one of the
    selected columns (an old table on which [init_db] has not run lacks
    [difficulty]), both queries raise [OperationalError], with and without a
    difficulty; the connection was opened and is left open, and nothing else
    has happened. *)
Theorem queries_need_the_columns (o : oracle) (lim : Z) (difficulty : option Z)
    (w : world) :
  (db w = None ∨
   ∃ t name, db w = Some t ∧ name ∈ select_columns ∧ has_column name t = false) →
  get_recent_items lim w = (Raise OperationalError, emit EvConnect w) ∧
  get_random_items o lim difficulty w = (Raise OperationalError, emit EvConnect w).
Proof.
  intros Hcase. unfold get_recent_items, get_random_items.
  change (db (emit EvConnect w)) with (db w).
  destruct Hcase as [-> | (t & name & -> & Hin & Hmiss)].
  - by destruct difficulty.
  - cbn [mbind result_bind].
    rewrite (prepare_missing_column _ _ _ Hin Hmiss).
    by destruct difficulty.
Qed.

Lemma queries_need_the_columns_witness :
  (∃ t name, db legacy_world = Some t ∧ name ∈ select_columns ∧
             has_column name t = false) ∧
  (get_recent_items 20 legacy_world).1 = Raise OperationalError ∧
  (get_random_items (example_oracle EmptyString) 10 (Some 2) legacy_world).1
    = Raise OperationalError.
Proof.
  assert (∃ t name, db legacy_world = Some t ∧ name ∈ select_columns ∧
                    has_column name t = false) as Hcase.
  { exists legacy_table, "difficulty". split; [reflexivity|].
    split; [|reflexivity]. apply list_elem_of_In. vm_compute. tauto. }
  destruct (queries_need_the_columns (example_oracle EmptyString) 20 (Some 2)
              legacy_world (or_intror Hcase)) as [H1 _].
  destruct (queries_need_the_columns (example_oracle EmptyString) 10 (Some 2)
              legacy_world (or_intror Hcase)) as [_ H2].
  split; [exact Hcase|]. split.
  - rewrite H1. reflexivity.
  - rewrite H2. reflexivity.
Defined.

(** X3.  A negative limit is no limit: on a table that has the selected
    columns, [get_recent_items] then returns every entry, and
    [get_random_items] every entry (of the difficulty asked for, when one is
    given); the number of entries returned exceeds the limit. *)
Theorem negative_limit_returns_all (o : oracle) (lim d : Z) (w : world)
    (t : table) :
  db w = Some t →
  prepare select_columns t = Ok tt →
  - 2 ^ 63 <= lim < 0 →
  - 2 ^ 63 <= d < 2 ^ 63 →
  ∃ recent sample matching,
    (get_recent_items lim w).1 = Ok recent ∧
    (get_random_items o lim None w).1 = Ok sample ∧
    (get_random_items o lim (Some d) w).1 = Ok matching ∧
    recent ≡ₚ project select_columns (tbl_columns t) (tbl_rows t) ∧
    sample ≡ₚ project select_columns (tbl_columns t) (tbl_rows t) ∧
    matching ≡ₚ project select_columns (tbl_columns t) (matching_rows d t) ∧
    length recent = length (tbl_rows t) ∧
    length matching = length (matching_rows d t).
Proof.
  intros Hdb Hprep Hlim Hd.
  rewrite (get_recent_items_ok lim w t Hdb Hprep) by lia.
  rewrite (get_random_items_unfiltered o lim w t Hdb Hprep) by lia.
  rewrite (get_random_items_filtered o lim d w t Hdb Hprep) by lia.
  cbn [fst]. rewrite !limit_negative by lia.
  do 3 eexists. split; [reflexivity|]. split; [reflexivity|]. split; [reflexivity|].
  unfold project, order_by_id_desc.
  split; [apply fmap_Permutation, merge_sort_Permutation|].
  split; [apply fmap_Permutation, order_by_random_permutation|].
  split; [apply fmap_Permutation, order_by_random_permutation|].
  rewrite !length_fmap. split.
  - apply Permutation_length, merge_sort_Permutation.
  - apply Permutation_length, order_by_random_permutation.
Qed.

Lemma negative_limit_returns_all_witness :
  db five_entries_world = Some five_entries_table ∧
  prepare select_columns five_entries_table = Ok tt ∧
  ∃ recent,
    (get_recent_items (-1) five_entries_world).1 = Ok recent ∧
    length recent = 5%nat.
Proof.
  assert (db five_entries_world = Some five_entries_table) as Hdb
    by (vm_compute; reflexivity).
  assert (prepare select_columns five_entries_table = Ok tt) as Hprep
    by (vm_compute; reflexivity).
  destruct (negative_limit_returns_all (example_oracle EmptyString) (-1) 3
              five_entries_world five_entries_table Hdb Hprep
              ltac:(lia) ltac:(lia))
    as (recent & sample & matching & Hres & _ & _ & _ & _ & _ & Hlen & _).
  split; [exact Hdb|]. split; [exact Hprep|].
  exists recent. split; [exact Hres|]. rewrite Hlen. vm_compute. reflexivity.
Defined.

(** X4.  A limit or a difficulty that does not fit 64 bits cannot be bound:
    on a table that has the selected columns, both queries then raise
    [OverflowError] and return no rows. *)
Theorem queries_reject_huge_numbers (o : oracle) (lim d : Z) (w : world)
    (t : table) :
  db w = Some t →
  prepare select_columns t = Ok tt →
  (¬ (- 2 ^ 63 <= lim < 2 ^ 63) →
     (get_recent_items lim w).1 = Raise OverflowError ∧
     (get_random_items o lim None w).1 = Raise OverflowError ∧
     (get_random_items o lim (Some d) w).1 = Raise OverflowError) ∧
  (¬ (- 2 ^ 63 <= d < 2 ^ 63) →
     (get_random_items o lim (Some d) w).1 = Raise OverflowError).
Proof.
  intros Hdb Hprep. unfold get_recent_items, get_random_items.
  change (db (emit EvConnect w)) with (db w). rewrite Hdb.
  cbn [mbind result_bind]. rewrite Hprep. cbn [mbind result_bind].
  split.
  - intros Hlim. rewrite (bind_int_out_of_range lim Hlim).
    split; [done|]. split; [done|].
    destruct (decide (- 2 ^ 63 <= d < 2 ^ 63)) as [Hd|Hd].
    + by rewrite (bind_int_in_range d Hd).
    + by rewrite (bind_int_out_of_range d Hd).
  - intros Hd. by rewrite (bind_int_out_of_range d Hd).
Qed.

Lemma queries_reject_huge_numbers_witness :
  db five_entries_world = Some five_entries_table ∧
  prepare select_columns five_entries_table = Ok tt ∧
  (get_recent_items (2 ^ 63) five_entries_world).1 = Raise OverflowError.
Proof.
  assert (db five_entries_world = Some five_entries_table) as Hdb
    by (vm_compute; reflexivity).
  assert (prepare select_columns five_entries_table = Ok tt) as Hprep
    by (vm_compute; reflexivity).
  destruct (queries_reject_huge_numbers (example_oracle EmptyString) (2 ^ 63) 3
              five_entries_world five_entries_table Hdb Hprep) as [Hlim _].
  destruct (Hlim ltac:(lia)) as [Hres _].
  split; [exact Hdb|]. split; [exact Hprep|]. exact Hres.
Defined.

(** ** Inserts that succeed *)

Lemma store_text_not_null p : p ≠ PNull → is_null (store TEXT p) = false.
Proof. by destruct p. Qed.

Lemma execute_insert_succeeds it topic tag difficulty now t :
  tbl_columns t = vocab_columns →
  storable it → word_supplied it → (∃ p, bind_int difficulty = Ok p) →
  tbl_seq t + 1 < 2 ^ 63 →
  ∃ t', execute_insert it topic tag difficulty now (Some t) = Ok t'.
Proof.
  intros Hcols Hst (x & p1 & Hget & Hbind & Hp1) [p7 Hp7] Hroom.
  destruct it; simpl in Hst; try done.
  unfold item_fields in Hst.
  apply Forall_cons in Hst as [_ Hst].
  apply Forall_cons in Hst as [[p2 H2] Hst].
  apply Forall_cons in Hst as [[p3 H3] Hst].
  apply Forall_cons in Hst as [[p4 H4] _].
  simpl in Hget. injection Hget as <-.
  unfold execute_insert. cbn [Py.get mbind result_bind].
  assert (prepare insert_columns t = Ok tt) as ->.
  { unfold prepare, has_column. by rewrite Hcols. }
  cbn [mbind result_bind]. rewrite Hbind, H2, H3, H4, Hp7.
  cbn [mbind result_bind]. unfold insert_into.
  replace (tbl_seq t + 1 <? 2 ^ 63) with true by (symmetry; apply Z.ltb_lt; lia).
  rewrite Hcols, new_row_vocab. simpl negb. cbv iota.
  assert (violates_notnull vocab_columns
            [SqlInt (tbl_seq t + 1); store TEXT p1; store TEXT p2; store TEXT p3;
             store TEXT p4; store TEXT (bind_str topic); store TEXT (bind_str tag);
             store INTEGER p7; SqlText now] = false) as ->.
  { simpl. by rewrite (store_text_not_null p1 Hp1). }
  by eexists.
Qed.

Lemma insert_loop_succeeds clk topic tag difficulty l i t :
  tbl_columns t = vocab_columns →
  Forall storable l → Forall word_supplied l →
  (∃ p, bind_int difficulty = Ok p) →
  tbl_seq t + Z.of_nat (length l) < 2 ^ 63 →
  ∃ conn, insert_loop clk topic tag difficulty l i (Some t) = Ok conn.
Proof.
  intros Hcols Hst. revert i t Hcols.
  induction Hst as [|it l Hit Hst IH]; intros i t Hcols Hws Hd Hroom; simpl.
  { by eexists. }
  apply Forall_cons in Hws as [Hw Hws]. simpl in Hroom.
  destruct (execute_insert_succeeds it topic tag difficulty (clk i) t Hcols Hit Hw Hd)
    as [t' E]; [lia|].
  rewrite E. cbn [mbind result_bind].
  apply execute_insert_vocab in E; [|done]. subst t'.
  apply IH; [done|done|done|]. simpl. lia.
Qed.

Lemma insert_vocab_items_ok o l topic tag difficulty w t :
  db w = Some t → store_ok t →
  Forall storable l → Forall word_supplied l →
  (∃ p, bind_int difficulty = Ok p) →
  tbl_seq t + Z.of_nat (length l) < 2 ^ 63 →
  l ≠ [] →
  ∃ t', insert_vocab_items o (Json.JArr l) topic tag difficulty w
        = (Ok tt, emit EvClose (emit EvCommit
                    (World (Some t') (session w) (EvConnect :: log w)))) ∧
        store_ok t' ∧
        tbl_rows t' = tbl_rows t ++
                      stored_rows o (length (tbl_rows t)) l topic tag difficulty.
Proof.
  intros Hdb Hok Hst Hws Hd Hroom Hne.
  pose proof Hok as (Hcols & _).
  destruct (insert_loop_succeeds (clock o) topic tag difficulty l 0 t Hcols Hst Hws
              Hd Hroom) as [conn Hloop].
  destruct (insert_vocab_items_store_ok o (Json.JArr l) topic tag difficulty w t
              Hdb Hok) as (t' & Hdb' & Hok' & _ & Hrows).
  assert (insert_vocab_items o (Json.JArr l) topic tag difficulty w
          = (Ok tt, emit EvClose (emit EvCommit
                      (World conn (session w) (EvConnect :: log w))))) as E.
  { unfold insert_vocab_items. destruct l; [done|]. simpl negb. cbv iota.
    cbn [Py.iter mbind result_bind].
    change (db (emit EvConnect w)) with (db w). rewrite Hdb, Hloop. done. }
  rewrite E in Hdb'. cbn [snd emit db] in Hdb'. subst conn.
  exists t'. split; [done|]. split; [done|].
  apply (Hrows l eq_refl). by rewrite E.
Qed.

Lemma text_item_storable it : text_item it → storable it ∧ word_supplied it.
Proof.
  destruct it as [| | | | | |d]; try done. intros [(s & Hw & _) Hfields]. split.
  - simpl. eapply Forall_impl; [exact Hfields|].
    intros k Hk. cbv beta in Hk |- *.
    destruct (Json.dict_get k d) as [[| | | | | |]|]; simpl in *; try done;
      by eexists.
  - exists (Some (Json.JStr s)), (PText s). simpl. by rewrite Hw.
Qed.

Lemma no_open_connection_closed l :
  no_open_connection l → no_open_connection (EvClose :: EvCommit :: EvConnect :: l).
Proof.
  unfold no_open_connection, connections, closes. intros H. csimpl.
  by rewrite H.
Qed.

(** X5.  On a store that only inserts have written to, in a world in which
    no earlier call has left its connection open, a batch of items in the
    format of the prompt is inserted whole: dicts whose [word] is a str and
    whose other fields are absent, [None] or a str, every str being one
    that UTF-8 can encode, as are the topic and the tag.  Provided the
    difficulty fits 64 bits and the ids do not run out, the call returns
    normally; the store holds the entries it held followed by one entry per
    item, in the order of the batch and under the next ids, with the topic,
    tag and difficulty of the call; the connection was opened, committed and
    closed, so that none is open afterwards either; and the session is
    untouched. *)
Theorem insert_vocab_items_succeeds (o : oracle) (l : list Json.json)
    (topic tag : option string) (difficulty : option Z) (w : world) (t : table) :
  db w = Some t →
  store_ok t →
  no_open_connection (log w) →
  Forall text_item l →
  encodable_opt topic →
  encodable_opt tag →
  (∃ p, bind_int difficulty = Ok p) →
  tbl_seq t + Z.of_nat (length l) < 2 ^ 63 →
  l ≠ [] →
  (insert_vocab_items o (Json.JArr l) topic tag difficulty w).1 = Ok tt ∧
  store_rows (insert_vocab_items o (Json.JArr l) topic tag difficulty w).2
    = store_rows w ++ stored_rows o (length (store_rows w)) l topic tag difficulty ∧
  log (insert_vocab_items o (Json.JArr l) topic tag difficulty w).2
    = EvClose :: EvCommit :: EvConnect :: log w ∧
  no_open_connection (log (insert_vocab_items o (Json.JArr l) topic tag difficulty w).2) ∧
  session (insert_vocab_items o (Json.JArr l) topic tag difficulty w).2 = session w ∧
  (∃ t', db (insert_vocab_items o (Json.JArr l) topic tag difficulty w).2 = Some t' ∧
         store_ok t').
Proof.
  intros Hdb Hok Hclosed Hitems _ _ Hd Hroom Hne.
  assert (Forall storable l) as Hst.
  { eapply Forall_impl; [exact Hitems|]. intros it Hit. by apply text_item_storable. }
  assert (Forall word_supplied l) as Hws.
  { eapply Forall_impl; [exact Hitems|]. intros it Hit. by apply text_item_storable. }
  destruct (insert_vocab_items_ok o l topic tag difficulty w t Hdb Hok Hst Hws Hd
              Hroom Hne) as (t' & E & Hok' & Hrows).
  rewrite E. cbn [fst snd]. split; [done|]. split.
  { unfold store_rows. cbn [db emit]. by rewrite Hdb, Hrows. }
  split; [done|]. split; [by apply no_open_connection_closed|].
  split; [done|]. by exists t'.
Qed.

Lemma insert_vocab_items_succeeds_witness :
  db fresh_world = Some (Table vocab_columns [] 0) ∧
  no_open_connection (log fresh_world) ∧
  Forall text_item two_items ∧
  (insert_vocab_items (example_oracle EmptyString) (Json.JArr two_items)
     (Some "doctor visit") (Some "daily_vocab_2") (Some 2) fresh_world).1 = Ok tt ∧
  store_rows (insert_vocab_items (example_oracle EmptyString) (Json.JArr two_items)
                (Some "doctor visit") (Some "daily_vocab_2") (Some 2) fresh_world).2
  = [ [ SqlInt 1; SqlText " Checkup "; SqlText "a medical examination";
        SqlText "体检"; SqlText "I scheduled a checkup."; SqlText "doctor visit";
        SqlText "daily_vocab_2"; SqlInt 2; SqlText "2024-05-01 09:30:00" ];
      [ SqlInt 2; SqlText "triage"; SqlText "sorting patients by urgency";
        SqlText "分诊"; SqlText "Triage took an hour."; SqlText "doctor visit";
        SqlText "daily_vocab_2"; SqlInt 2; SqlText "2024-05-01 09:30:00" ] ].
Proof.
  destruct fresh_world_store_ok as [Hdb Hok].
  assert (no_open_connection (log fresh_world)) as Hclosed by reflexivity.
  assert (Forall text_item two_items) as Hitems.
  { repeat constructor; by eexists. }
  destruct (insert_vocab_items_succeeds (example_oracle EmptyString) two_items
              (Some "doctor visit") (Some "daily_vocab_2") (Some 2) fresh_world
              (Table vocab_columns [] 0) Hdb Hok Hclosed Hitems eq_refl eq_refl
              (ex_intro _ (PInt 2) eq_refl) ltac:(simpl; lia) ltac:(discriminate))
    as (Hres & Hrows & _).
  split; [exact Hdb|]. split; [exact Hclosed|]. split; [exact Hitems|].
  split; [exact Hres|].
  rewrite Hrows. vm_compute. reflexivity.
Defined.

(** ** Opening the store, in general *)

(** X6.  [init_db] settles the store whatever it finds: it raises nothing,
    leaves a table that has the [difficulty] column, does not touch the
    session, and adds a connect, a commit and a close to the log; run again
    it changes nothing; and a table that already has the column comes out
    as it went in. *)
Theorem init_db_settles (w : world) :
  (init_db w).1 = Ok tt ∧
  (∃ t', db (init_db w).2 = Some t' ∧ has_column "difficulty" t' = true) ∧
  session (init_db w).2 = session w ∧
  log (init_db w).2 = EvClose :: EvCommit :: EvConnect :: log w ∧
  db (init_db (init_db w).2).2 = db (init_db w).2 ∧
  (∀ t, db w = Some t → has_column "difficulty" t = true →
        db (init_db w).2 = Some t).
Proof.
  destruct (init_db_spec w) as (Hok & Hdb & Hsess).
  split; [done|]. split.
  { eexists. split; [exact Hdb|]. apply migrate_has_difficulty. }
  split; [done|]. split.
  { unfold init_db, alter_table_add_column.
    destruct (has_column _ _); done. }
  split; [apply init_db_idempotent|].
  intros t Ht Hhas. rewrite Hdb, Ht. simpl.
  unfold migrate, alter_table_add_column. simpl col_name. by rewrite Hhas.
Qed.

(** X7.  On a machine that has no [vocab] table yet, [init_db] creates the
    table with its nine columns and no row, and the queries on it return
    the empty list rather than an error, for a limit and a difficulty that
    fit 64 bits. *)
Theorem first_run_store_is_empty (o : oracle) (lim d : Z) (w : world) :
  db w = None →
  - 2 ^ 63 <= lim < 2 ^ 63 →
  - 2 ^ 63 <= d < 2 ^ 63 →
  db (init_db w).2 = Some (Table vocab_columns [] 0) ∧
  (get_recent_items lim (init_db w).2).1 = Ok [] ∧
  (get_random_items o lim None (init_db w).2).1 = Ok [] ∧
  (get_random_items o lim (Some d) (init_db w).2).1 = Ok [].
Proof.
  intros Hdb Hlim Hd.
  assert (db (init_db w).2 = Some (Table vocab_columns [] 0)) as Hnew.
  { destruct (init_db_spec w) as (_ & -> & _). by rewrite Hdb. }
  split; [done|].
  rewrite (get_recent_items_ok lim _ _ Hnew eq_refl Hlim).
  rewrite (get_random_items_unfiltered o lim _ _ Hnew eq_refl Hlim).
  rewrite (get_random_items_filtered o lim d _ _ Hnew eq_refl Hlim Hd).
  cbn [fst tbl_rows tbl_columns].
  assert (∀ rows, rows = [] →
            project select_columns vocab_columns (limit lim rows) = []) as Hemp.
  { intros ? ->. unfold limit. destruct (lim <? 0); [done|]. by rewrite take_nil. }
  repeat split; f_equal; apply Hemp; reflexivity.
Qed.

Lemma first_run_store_is_empty_witness :
  db empty_world = None ∧
  (get_recent_items 100 (init_db empty_world).2).1 = Ok [] ∧
  (get_random_items (example_oracle EmptyString) 10 (Some 3)
     (init_db empty_world).2).1 = Ok [].
Proof.
  destruct (first_run_store_is_empty (example_oracle EmptyString) 100 3 empty_world
              eq_refl ltac:(lia) ltac:(lia)) as (_ & H1 & _).
  destruct (first_run_store_is_empty (example_oracle EmptyString) 10 3 empty_world
              eq_refl ltac:(lia) ltac:(lia)) as (_ & _ & _ & H2).
  split; [reflexivity|]. split; [exact H1|exact H2].
Defined.

(** ** What a run of a generation page stores *)

Lemma show_item_displayable o topic tag d c it w :
  displayable it →
  show_item o topic tag d c it w
  = if c then insert_vocab_items o (Json.JArr [it]) (Some topic) (Some tag) (Some d) w
    else (Ok tt, w).
Proof.
  intros Hd. unfold displayable, item_fields in Hd.
  apply Forall_cons in Hd as [[x1 H1] Hd].
  apply Forall_cons in Hd as [[x2 H2] Hd].
  apply Forall_cons in Hd as [[x3 H3] Hd].
  apply Forall_cons in Hd as [[x4 H4] _].
  unfold show_item. rewrite H1, H2, H3, H4. done.
Qed.




Lemma stored_rows_length o n l topic tag d :
  length (stored_rows o n l topic tag d) = length l.
Proof. unfold stored_rows. by rewrite length_imap. Qed.








(** ** A batch with an item that cannot be displayed *)

Lemma show_item_not_displayable it :
  ¬ displayable it →
  ∃ e, ∀ o topic tag d c w, show_item o topic tag d c it w = (Raise e, w).
Proof.
  intros Hnot. destruct it as [| | | | |?|dict];
    try (by exists TypeError).
  unfold show_item, Py.subscript.
  destruct (Json.dict_get "word" dict) as [x1|] eqn:H1;
    [|by exists (KeyError "word")].
  destruct (Json.dict_get "meaning_en" dict) as [x2|] eqn:H2;
    [|by exists (KeyError "meaning_en")].
  destruct (Json.dict_get "meaning_zh" dict) as [x3|] eqn:H3;
    [|by exists (KeyError "meaning_zh")].
  destruct (Json.dict_get "example" dict) as [x4|] eqn:H4;
    [|by exists (KeyError "example")].
  destruct Hnot. unfold displayable, item_fields, Py.subscript.
  repeat constructor; eexists.
  - by rewrite H1.
  - by rewrite H2.
  - by rewrite H3.
  - by rewrite H4.
Qed.

Lemma show_items_blocked l1 it l2 add i :
  (∀ j, (i ≤ j < i + length l1)%nat → add j = false) →
  Forall displayable l1 → ¬ displayable it →
  ∃ e, ∀ o topic tag d w,
    show_items o topic tag d add (l1 ++ it :: l2) i w = (Raise e, w).
Proof.
  intros Hadd Hdis Hnot.
  destruct (show_item_not_displayable it Hnot) as [e He]. exists e.
  revert i Hadd.
  induction Hdis as [|it1 l1 Hit1 Hdis IH]; intros i Hadd o topic tag d w.
  - cbn [app show_items]. by rewrite He.
  - cbn [app show_items].
    rewrite (show_item_displayable _ _ _ _ _ _ _ Hit1).
    rewrite (Hadd i) by (simpl; lia).
    apply IH. intros j Hj. apply Hadd. simpl. lia.
Qed.

Lemma show_batch_blocked o ui l1 it l2 topic tag d w :
  (∀ j, (1 ≤ j ≤ length l1)%nat → ui_add ui j = false) →
  Forall displayable l1 → ¬ displayable it →
  ∃ e, show_batch o ui (Json.JArr (l1 ++ it :: l2)) topic tag d w = (Raised e, w).
Proof.
  intros Hadd Hdis Hnot.
  destruct (show_items_blocked l1 it l2 (ui_add ui) 1) as [e He]; [|done|done|].
  { intros j Hj. apply Hadd. lia. }
  exists e. unfold show_batch.
  change (Py.len (Json.JArr (l1 ++ it :: l2)))
    with (Ok (length (l1 ++ it :: l2)) : result nat).
  change (Py.iter (Json.JArr (l1 ++ it :: l2)))
    with (Ok (l1 ++ it :: l2) : result (list Json.json)).
  cbv iota. by rewrite He.
Qed.

(** X10.  While the last batch holds an item that lacks one of the four
    fields, or that is no dict, a run without a new generation in which no
    add button of an item before that one is clicked ends with the
    exception of the display loop, whatever else is clicked: a click on
    save-all, or on the add button of that item or of a later one, stores
    nothing, since the loop fails on the item before its button and the
    save are reached.  The store and the log are as before.  (A clicked add
    button of an earlier item saves that item before the loop fails.) *)
Theorem incomplete_batch_is_never_saved (o : oracle) (ui : widgets) (w : world)
    (l1 l2 : list Json.json) (it : Json.json) :
  ui_generate ui = false →
  (∀ j, (1 ≤ j ≤ length l1)%nat → ui_add ui j = false) →
  Forall displayable l1 →
  ¬ displayable it →
  (last_vocab_items (session w) = Some (Json.JArr (l1 ++ it :: l2)) →
   ∃ e, (page_generate_vocab o ui w).1 = Raised e ∧
        db (page_generate_vocab o ui w).2 = db w ∧
        log (page_generate_vocab o ui w).2 = log w) ∧
  (last_phrasal_items (session w) = Some (Json.JArr (l1 ++ it :: l2)) →
   ∃ e, (page_generate_phrasal_verbs o ui w).1 = Raised e ∧
        db (page_generate_phrasal_verbs o ui w).2 = db w ∧
        log (page_generate_phrasal_verbs o ui w).2 = log w).
Proof.
  intros Hgen Hadd Hdis Hnot. split; intros Hitems.
  - unfold page_generate_vocab. rewrite Hgen. cbv zeta.
    set (w0 := with_session _ w). unfold show_vocab.
    change (last_vocab_items (session w0)) with (last_vocab_items (session w)).
    rewrite Hitems.
    replace (Py.truthy (Json.JArr (l1 ++ it :: l2))) with true by (by destruct l1).
    cbv zeta.
    match goal with
    | |- context [show_batch o ui _ ?topic ?tag ?d w0] =>
        destruct (show_batch_blocked o ui l1 it l2 topic tag d w0 Hadd Hdis Hnot)
          as [e ->]
    end.
    by exists e.
  - unfold page_generate_phrasal_verbs. rewrite Hgen. cbv zeta.
    set (w0 := with_session _ w). unfold show_phrasal.
    change (last_phrasal_items (session w0)) with (last_phrasal_items (session w)).
    rewrite Hitems.
    replace (Py.truthy (Json.JArr (l1 ++ it :: l2))) with true by (by destruct l1).
    cbv zeta.
    match goal with
    | |- context [show_batch o ui _ ?topic ?tag ?d w0] =>
        destruct (show_batch_blocked o ui l1 it l2 topic tag d w0 Hadd Hdis Hnot)
          as [e ->]
    end.
    by exists e.
Qed.

Lemma incomplete_batch_is_never_saved_witness :
  ∃ e, (page_generate_vocab (example_oracle EmptyString)
          (Widgets "doctor visit" 5 2 false true (fun j => Nat.eqb j 2))
          incomplete_batch_world).1 = Raised e ∧
       db (page_generate_vocab (example_oracle EmptyString)
             (Widgets "doctor visit" 5 2 false true (fun j => Nat.eqb j 2))
             incomplete_batch_world).2 = db incomplete_batch_world ∧
       log (page_generate_vocab (example_oracle EmptyString)
              (Widgets "doctor visit" 5 2 false true (fun j => Nat.eqb j 2))
              incomplete_batch_world).2 = log incomplete_batch_world.
Proof.
  refine (proj1 (incomplete_batch_is_never_saved (example_oracle EmptyString)
                   (Widgets "doctor visit" 5 2 false true (fun j => Nat.eqb j 2))
                   incomplete_batch_world
                   [vocab_item "checkup" "a medical examination" "体检"
                      "I scheduled a checkup."]
                   [] (Json.JObj [("meaning_en", Json.JStr "no word here")])
                   eq_refl _ _ _) eq_refl).
  - intros j Hj. simpl in Hj. assert (j = 1%nat) as -> by lia. reflexivity.
  - repeat constructor; eexists; reflexivity.
  - intros Hd. apply Forall_cons in Hd as [[x Hx] _]. discriminate Hx.
Defined.

(** ** What the generation pages never do *)

Lemma insert_vocab_items_requests o items topic tag difficulty w :
  requests (log (insert_vocab_items o items topic tag difficulty w).2)
  = requests (log w).
Proof.
  unfold insert_vocab_items. destruct (negb _); [done|].
  by destruct (mbind _ _).
Qed.

Lemma show_item_requests o topic tag d c it w :
  requests (log (show_item o topic tag d c it w).2) = requests (log w).
Proof.
  unfold show_item. destruct (mbind _ _); [done|].
  destruct c; [apply insert_vocab_items_requests|done].
Qed.

Lemma show_items_requests o topic tag d add l i w :
  requests (log (show_items o topic tag d add l i w).2) = requests (log w).
Proof.
  revert i w. induction l as [|it l IH]; intros i w; [done|].
  cbn [show_items].
  pose proof (show_item_requests o topic tag d (add i) it w) as Hit.
  destruct (show_item o topic tag d (add i) it w) as [[e|[]] w1]; [done|].
  rewrite IH. done.
Qed.

Lemma show_batch_requests o ui items topic tag d w :
  requests (log (show_batch o ui items topic tag d w).2) = requests (log w).
Proof.
  unfold show_batch. destruct (Py.len items); [done|].
  assert (requests (log (match Py.iter items with
                         | Raise e => (Raise e, w)
                         | Ok l => show_items o topic tag d (ui_add ui) l 1 w
                         end).2) = requests (log w)) as Hloop.
  { destruct (Py.iter items); [done|apply show_items_requests]. }
  destruct (match Py.iter items with Raise e => _ | Ok l => _ end) as [[e|[]] w1];
    [done|].
  cbn [snd] in Hloop.
  destruct (ui_save_all ui); [|done].
  pose proof (insert_vocab_items_requests o items (Some topic) (Some tag) (Some d) w1)
    as Hsave.
  destruct (insert_vocab_items o items (Some topic) (Some tag) (Some d) w1)
    as [[e|[]] w2]; cbn [snd] in *; congruence.
Qed.

Lemma show_vocab_requests o ui w :
  requests (log (show_vocab o ui w).2) = requests (log w).
Proof.
  unfold show_vocab. destruct (last_vocab_items (session w)); [|done].
  destruct (Py.truthy _); [apply show_batch_requests|done].
Qed.

Lemma show_phrasal_requests o ui w :
  requests (log (show_phrasal o ui w).2) = requests (log w).
Proof.
  unfold show_phrasal. destruct (last_phrasal_items (session w)); [|done].
  destruct (Py.truthy _); [apply show_batch_requests|done].
Qed.

Lemma page_generate_vocab_requests o ui w :
  requests (log (page_generate_vocab o ui w).2)
  = (if ui_generate ui && api_key_set o
     then [vocab_prompt (ui_topic ui) (ui_num_items ui) (ui_difficulty ui)
             (vocab_forbidden_block (vocab_forbidden (ui_topic ui) w))
             (randint o 1 1000000)]
     else []) ++ requests (log w).
Proof.
  unfold page_generate_vocab. cbv zeta.
  destruct (ui_generate ui); [|by rewrite show_vocab_requests].
  destruct (api_key_set o); [|done]. cbn [andb negb].
  unfold call_gpt_for_vocab. cbv zeta.
  destruct (mbind _ _) as [e|items]; [done|].
  destruct (update_history _ _ _) as [history' [e|]]; [done|].
  by rewrite show_vocab_requests.
Qed.

Lemma page_generate_phrasal_verbs_requests o ui w :
  requests (log (page_generate_phrasal_verbs o ui w).2)
  = (if ui_generate ui && api_key_set o
     then [phrasal_prompt (ui_num_items ui) (ui_difficulty ui)
             (phrasal_forbidden_block (phrasal_forbidden (ui_difficulty ui) w))
             (randint o 1 1000000)]
     else []) ++ requests (log w).
Proof.
  unfold page_generate_phrasal_verbs. cbv zeta.
  destruct (ui_generate ui); [|by rewrite show_phrasal_requests].
  destruct (api_key_set o); [|done]. cbn [andb negb].
  unfold call_gpt_for_phrasal_verbs. cbv zeta.
  destruct (mbind _ _) as [e|items]; [done|].
  destruct (update_history _ _ _) as [history' [e|]]; [done|].
  by rewrite show_phrasal_requests.
Qed.



(** X11.  A run of a generation page sends a request only when the
    generate button was clicked and the API key is set, and then exactly
    one: its prompt is built from the topic and the sliders of this run and
    from the forbidden list the history held for the context when the run
    began.  Saving, displaying and failing send nothing. *)
Theorem one_request_per_generation (o : oracle) (ui : widgets) (w : world) :
  requests (log (page_generate_vocab o ui w).2)
  = (if ui_generate ui && api_key_set o
     then [vocab_prompt (ui_topic ui) (ui_num_items ui) (ui_difficulty ui)
             (vocab_forbidden_block (vocab_forbidden (ui_topic ui) w))
             (randint o 1 1000000)]
     else []) ++ requests (log w) ∧
  requests (log (page_generate_phrasal_verbs o ui w).2)
  = (if ui_generate ui && api_key_set o
     then [phrasal_prompt (ui_num_items ui) (ui_difficulty ui)
             (phrasal_forbidden_block (phrasal_forbidden (ui_difficulty ui) w))
             (randint o 1 1000000)]
     else []) ++ requests (log w).
Proof.
  split; [apply page_generate_vocab_requests|apply page_generate_phrasal_verbs_requests].
Qed.

Lemma show_item_no_click o topic tag d it w :
  (show_item o topic tag d false it w).2 = w.
Proof. unfold show_item. by destruct (mbind _ _). Qed.

Lemma show_items_no_click o topic tag d add l i w :
  (∀ j, add j = false) → (show_items o topic tag d add l i w).2 = w.
Proof.
  intros Hadd. revert i. induction l as [|it l IH]; intros i; [done|].
  cbn [show_items]. rewrite Hadd.
  pose proof (show_item_no_click o topic tag d it w) as Hit.
  destruct (show_item o topic tag d false it w) as [[e|[]] w1];
    cbn [snd] in Hit; subst w1; [done|apply IH].
Qed.

Lemma show_batch_no_click o ui items topic tag d w :
  ui_save_all ui = false → (∀ j, ui_add ui j = false) →
  (show_batch o ui items topic tag d w).2 = w.
Proof.
  intros Hsave Hadd. unfold show_batch. destruct (Py.len items); [done|].
  rewrite Hsave.
  destruct (Py.iter items) as [e|l]; [done|].
  pose proof (show_items_no_click o topic tag d (ui_add ui) l 1 w Hadd) as Hl.
  by destruct (show_items o topic tag d (ui_add ui) l 1 w) as [[e|[]] w1].
Qed.

Lemma show_vocab_no_click o ui w :
  ui_save_all ui = false → (∀ j, ui_add ui j = false) → (show_vocab o ui w).2 = w.
Proof.
  intros Hsave Hadd. unfold show_vocab.
  destruct (last_vocab_items (session w)); [|done].
  destruct (Py.truthy _); [by apply show_batch_no_click|done].
Qed.

Lemma show_phrasal_no_click o ui w :
  ui_save_all ui = false → (∀ j, ui_add ui j = false) → (show_phrasal o ui w).2 = w.
Proof.
  intros Hsave Hadd. unfold show_phrasal.
  destruct (last_phrasal_items (session w)); [|done].
  destruct (Py.truthy _); [by apply show_batch_no_click|done].
Qed.

(** X12.  Generating saves nothing: in a run in which no save button was
    clicked, neither generation page writes the store or even connects to
    it, whatever the model replies and however the run ends. *)
Theorem generation_alone_leaves_the_store (o : oracle) (ui : widgets) (w : world) :
  ui_save_all ui = false →
  (∀ j, ui_add ui j = false) →
  db (page_generate_vocab o ui w).2 = db w ∧
  connections (log (page_generate_vocab o ui w).2) = connections (log w) ∧
  db (page_generate_phrasal_verbs o ui w).2 = db w ∧
  connections (log (page_generate_phrasal_verbs o ui w).2) = connections (log w).
Proof.
  intros Hsave Hadd.
  assert (∀ w', (show_vocab o ui w').2 = w') as Hv
    by (intros; by apply show_vocab_no_click).
  assert (∀ w', (show_phrasal o ui w').2 = w') as Hp
    by (intros; by apply show_phrasal_no_click).
  unfold page_generate_vocab, page_generate_phrasal_verbs. cbv zeta.
  destruct (ui_generate ui); [|by rewrite Hv, Hp].
  destruct (api_key_set o); [|done]. cbn [negb].
  unfold call_gpt_for_vocab, call_gpt_for_phrasal_verbs. cbv zeta.
  split; [|split; [|split]].
  - destruct (mbind _ _) as [e|items]; [done|].
    destruct (update_history _ _ _) as [history' [e|]]; [done|]. by rewrite Hv.
  - destruct (mbind _ _) as [e|items]; [done|].
    destruct (update_history _ _ _) as [history' [e|]]; [done|]. by rewrite Hv.
  - destruct (mbind _ _) as [e|items]; [done|].
    destruct (update_history _ _ _) as [history' [e|]]; [done|]. by rewrite Hp.
  - destruct (mbind _ _) as [e|items]; [done|].
    destruct (update_history _ _ _) as [history' [e|]]; [done|]. by rewrite Hp.
Qed.

Lemma generation_alone_leaves_the_store_witness :
  last_vocab_items
    (session (page_generate_vocab (example_oracle reply_two_items)
                (generate_click "Doctor visit" 5 2) fresh_world).2)
  = Some (Json.JArr two_items) ∧
  db (page_generate_vocab (example_oracle reply_two_items)
        (generate_click "Doctor visit" 5 2) fresh_world).2
  = Some (Table vocab_columns [] 0).
Proof.
  split; [vm_compute; reflexivity|].
  rewrite (proj1 (generation_alone_leaves_the_store (example_oracle reply_two_items)
                    (generate_click "Doctor visit" 5 2) fresh_world
                    eq_refl (fun _ => eq_refl))).
  reflexivity.
Defined.

(** ** The history across runs *)

Section HistoryFrame.
Context `{Countable K}.

Lemma update_history_frame (key : K) items history history' err :
  update_history key items history = (history', err) →
  (∀ key', key' ≠ key → history' !! key' = history !! key') ∧
  default ∅ (history !! key) ⊆ default ∅ (history' !! key).
Proof.
  unfold update_history. destruct (Py.iter items) as [e|l]; [by intros [= <- _]|].
  destruct (absorb l (default ∅ (history !! key))) as [X' oe] eqn:Habs.
  apply absorb_mono in Habs.
  assert ((∀ key', key' ≠ key → <[key := X']> history !! key' = history !! key') ∧
          default ∅ (history !! key) ⊆ default ∅ (<[key := X']> history !! key))
    as Hins.
  { split; [intros; by rewrite lookup_insert_ne|]. by rewrite lookup_insert_eq. }
  destruct oe as [e|]; [|by intros [= <- _]].
  destruct (history !! key); by intros [= <- _].
Qed.

Lemma forbidden_words_of_frame (key : K) history history' :
  history' !! key = history !! key →
  forbidden_words_of history' key = forbidden_words_of history key.
Proof. unfold forbidden_words_of. by intros ->. Qed.

Lemma forbidden_words_of_mono (key : K) history history' x :
  default ∅ (history !! key) ⊆ default ∅ (history' !! key) →
  x ∈ forbidden_words_of history key → x ∈ forbidden_words_of history' key.
Proof.
  unfold forbidden_words_of. rewrite !elem_of_sorted, !elem_of_elements. set_solver.
Qed.

Lemma absorb_app l1 l2 (X X1 : gset string) :
  absorb l1 X = (X1, None) → absorb (l1 ++ l2) X = absorb l2 X1.
Proof.
  revert X. induction l1 as [|it l1 IH]; intros X; simpl.
  { by intros [= ->]. }
  destruct (mbind _ _) as [e|w]; [done|]. apply IH.
Qed.

Lemma update_history_interrupted (key : K) l1 it l2 history X1 e :
  absorb l1 (default ∅ (history !! key)) = (X1, None) →
  (x ← Py.get it "word"; Py.normalized_or_empty x) = Raise e →
  update_history key (Json.JArr (l1 ++ it :: l2)) history
  = (match history !! key with
     | Some _ => <[key := X1]> history
     | None => history
     end, Some e).
Proof.
  intros Habs Hit. unfold update_history.
  change (Py.iter (Json.JArr (l1 ++ it :: l2)))
    with (Ok (l1 ++ it :: l2) : result (list Json.json)).
  cbv iota. rewrite (absorb_app _ _ _ _ Habs). cbn [absorb]. by rewrite Hit.
Qed.

End HistoryFrame.

Lemma page_generate_vocab_history o ui w :
  phrasal_history (session (page_generate_vocab o ui w).2)
    = phrasal_history (session w) ∧
  ∃ history',
    vocab_history (session (page_generate_vocab o ui w).2) = Some history' ∧
    (history' = default ∅ (vocab_history (session w)) ∨
     ∃ items err,
       update_history (PyStr.lower (PyStr.strip (ui_topic ui))) items
         (default ∅ (vocab_history (session w))) = (history', err)).
Proof.
  unfold page_generate_vocab. cbv zeta.
  destruct (ui_generate ui).
  2:{ rewrite show_vocab_session. split; [done|]. eexists. split; [done|by left]. }
  destruct (negb (api_key_set o)).
  { split; [done|]. eexists. split; [done|by left]. }
  unfold call_gpt_for_vocab. cbv zeta.
  destruct (mbind _ _) as [e|items].
  { split; [done|]. eexists. split; [done|by left]. }
  destruct (update_history _ items _) as [history' err] eqn:E.
  destruct err as [e|].
  - split; [done|]. exists history'. split; [done|]. right. by exists items, (Some e).
  - rewrite show_vocab_session. split; [done|]. exists history'. split; [done|].
    right. by exists items, None.
Qed.

Lemma page_generate_phrasal_verbs_history o ui w :
  vocab_history (session (page_generate_phrasal_verbs o ui w).2)
    = vocab_history (session w) ∧
  ∃ history',
    phrasal_history (session (page_generate_phrasal_verbs o ui w).2) = Some history' ∧
    (history' = default ∅ (phrasal_history (session w)) ∨
     ∃ items err,
       update_history (ui_difficulty ui) items
         (default ∅ (phrasal_history (session w))) = (history', err)).
Proof.
  unfold page_generate_phrasal_verbs. cbv zeta.
  destruct (ui_generate ui).
  2:{ rewrite show_phrasal_session. split; [done|]. eexists. split; [done|by left]. }
  destruct (negb (api_key_set o)).
  { split; [done|]. eexists. split; [done|by left]. }
  unfold call_gpt_for_phrasal_verbs. cbv zeta.
  destruct (mbind _ _) as [e|items].
  { split; [done|]. eexists. split; [done|by left]. }
  destruct (update_history _ items _) as [history' err] eqn:E.
  destruct err as [e|].
  - split; [done|]. exists history'. split; [done|]. right. by exists items, (Some e).
  - rewrite show_phrasal_session. split; [done|]. exists history'. split; [done|].
    right. by exists items, None.
Qed.

(** X13.  The forbidden lists are kept apart and never shrink.  A run of
    the vocabulary page, however it ends, can change the list of one
    context only, the topic typed in this run in stripped lower case; the
    list of every other topic and of every phrasal-verb difficulty stays
    as it was, and no word leaves any list.  The phrasal-verb page does the
    same with the difficulty of its slider and leaves the topics alone. *)
Theorem forbidden_lists_are_kept_apart (o : oracle) (ui : widgets) (w : world) :
  (∀ topic,
     PyStr.lower (PyStr.strip topic) ≠ PyStr.lower (PyStr.strip (ui_topic ui)) →
     vocab_forbidden topic (page_generate_vocab o ui w).2 = vocab_forbidden topic w) ∧
  (∀ topic x, x ∈ vocab_forbidden topic w →
              x ∈ vocab_forbidden topic (page_generate_vocab o ui w).2) ∧
  (∀ d, phrasal_forbidden d (page_generate_vocab o ui w).2 = phrasal_forbidden d w) ∧
  (∀ d, d ≠ ui_difficulty ui →
        phrasal_forbidden d (page_generate_phrasal_verbs o ui w).2
        = phrasal_forbidden d w) ∧
  (∀ d x, x ∈ phrasal_forbidden d w →
          x ∈ phrasal_forbidden d (page_generate_phrasal_verbs o ui w).2) ∧
  (∀ topic, vocab_forbidden topic (page_generate_phrasal_verbs o ui w).2
            = vocab_forbidden topic w).
Proof.
  destruct (page_generate_vocab_history o ui w) as (Hp & hv & Hv & Hvs).
  destruct (page_generate_phrasal_verbs_history o ui w) as (Hv' & hp & Hp' & Hps).
  unfold vocab_forbidden, phrasal_forbidden.
  rewrite Hp, Hv, Hv', Hp'. cbn [default from_option id].
  split; [|split; [|split; [|split; [|split]]]]; try done.
  - intros topic Hne. destruct Hvs as [->|(items & err & E)]; [done|].
    apply update_history_frame in E as [E _].
    apply forbidden_words_of_frame. by apply E.
  - intros topic x. destruct Hvs as [->|(items & err & E)]; [done|].
    apply update_history_frame in E as [E1 E2].
    destruct (decide (PyStr.lower (PyStr.strip topic)
                      = PyStr.lower (PyStr.strip (ui_topic ui)))) as [->|Hne].
    + by apply forbidden_words_of_mono.
    + by rewrite (forbidden_words_of_frame _ _ _ (E1 _ Hne)).
  - intros d Hne. destruct Hps as [->|(items & err & E)]; [done|].
    apply update_history_frame in E as [E _].
    apply forbidden_words_of_frame. by apply E.
  - intros d x. destruct Hps as [->|(items & err & E)]; [done|].
    apply update_history_frame in E as [E1 E2].
    destruct (decide (d = ui_difficulty ui)) as [->|Hne].
    + by apply forbidden_words_of_mono.
    + by rewrite (forbidden_words_of_frame _ _ _ (E1 _ Hne)).
Qed.

Lemma not_absorbable it :
  ¬ absorbable it →
  (x ← Py.get it "word"; Py.normalized_or_empty x) = Raise AttributeError.
Proof.
  intros Hnot.
  destruct (x ← Py.get it "word"; Py.normalized_or_empty x) as [e|s] eqn:E;
    [|destruct Hnot; by exists s].
  f_equal. destruct it; try (by injection E as <-).
  cbn [Py.get mbind result_bind] in E. unfold Py.normalized_or_empty in E.
  repeat case_match; congruence.
Qed.

(** X14.  A reply whose items cannot all be read ends the run of the
    vocabulary page with [AttributeError] at the first item that is no
    dict or whose [word] is a true value other than a str.  The batch is
    nevertheless kept as the last batch.  Of the words of the items before
    it, those of a topic that already had a forbidden list are in the list
    from then on, while those of a topic seen for the first time are lost:
    its list stays empty.  Nothing is stored. *)
Theorem interrupted_round_is_partly_absorbed (o : oracle) (ui : widgets) (w : world)
    (l1 l2 : list Json.json) (it : Json.json) :
  ui_generate ui = true →
  api_key_set o = true →
  (call_gpt_for_vocab o (ui_topic ui) (ui_num_items ui) (ui_difficulty ui)
     (vocab_forbidden (ui_topic ui) w) w).1 = Ok (Json.JArr (l1 ++ it :: l2)) →
  Forall absorbable l1 →
  ¬ absorbable it →
  (page_generate_vocab o ui w).1 = Raised AttributeError ∧
  last_vocab_items (session (page_generate_vocab o ui w).2)
    = Some (Json.JArr (l1 ++ it :: l2)) ∧
  db (page_generate_vocab o ui w).2 = db w ∧
  (∀ X, default ∅ (vocab_history (session w))
          !! PyStr.lower (PyStr.strip (ui_topic ui)) = Some X →
     ∀ it' x, it' ∈ l1 → Py.get it' "word" = Ok (Some (Json.JStr x)) →
       PyStr.lower (PyStr.strip x) ≠ EmptyString →
       PyStr.lower (PyStr.strip x)
         ∈ vocab_forbidden (ui_topic ui) (page_generate_vocab o ui w).2) ∧
  (default ∅ (vocab_history (session w))
     !! PyStr.lower (PyStr.strip (ui_topic ui)) = None →
   vocab_forbidden (ui_topic ui) (page_generate_vocab o ui w).2 = []).
Proof.
  intros Hgen Hkey Hcall Habs Hnot.
  destruct (absorb_completes l1
              (default ∅ (default ∅ (vocab_history (session w))
                            !! PyStr.lower (PyStr.strip (ui_topic ui)))) Habs)
    as [X1 HX1].
  pose proof (update_history_interrupted (PyStr.lower (PyStr.strip (ui_topic ui)))
                l1 it l2 (default ∅ (vocab_history (session w))) X1 AttributeError
                HX1 (not_absorbable it Hnot)) as Hupd.
  unfold page_generate_vocab. cbv zeta. rewrite Hgen, Hkey. cbn [negb].
  unfold call_gpt_for_vocab in Hcall |- *. cbv zeta in Hcall |- *.
  cbn [fst] in Hcall. unfold vocab_forbidden in Hcall. rewrite Hcall.
  rewrite Hupd. cbn [fst snd].
  split; [done|]. split; [done|]. split; [done|].
  unfold vocab_forbidden. cbn [session with_session set_vocab_history vocab_history
                                 default from_option id].
  split.
  - intros X HX it' x Hit' Hget Hne. rewrite HX.
    unfold forbidden_words_of. rewrite elem_of_sorted, elem_of_elements.
    rewrite lookup_insert_eq. cbn [default from_option id].
    rewrite HX in HX1. cbn [default from_option id] in HX1.
    by apply (absorb_words l1 X X1 it' x).
  - intros HX. rewrite HX. unfold forbidden_words_of. rewrite HX. reflexivity.
Qed.

Lemma interrupted_round_is_partly_absorbed_witness :
  (page_generate_vocab (example_oracle reply_item_then_bare)
     (generate_click "Doctor visit" 5 2) session_world).1 = Raised AttributeError ∧
  "gown" ∈ vocab_forbidden "Doctor visit"
             (page_generate_vocab (example_oracle reply_item_then_bare)
                (generate_click "Doctor visit" 5 2) session_world).2 ∧
  vocab_forbidden "Doctor visit"
    (page_generate_vocab (example_oracle reply_item_then_bare)
       (generate_click "Doctor visit" 5 2) fresh_world).2 = [].
Proof.
  assert (∀ w, (call_gpt_for_vocab (example_oracle reply_item_then_bare)
                  "Doctor visit" 5 2 (vocab_forbidden "Doctor visit" w) w).1
               = Ok (Json.JArr
                       ([vocab_item "gown" "a loose garment for patients" "病号服"
                           "Put on this gown."] ++ Json.JStr "bare" :: []))) as Hcall.
  { intros w. unfold call_gpt_for_vocab. cbv zeta. cbn [fst example_oracle reply].
    vm_compute. reflexivity. }
  assert (Forall absorbable
            [vocab_item "gown" "a loose garment for patients" "病号服"
               "Put on this gown."]) as Habs.
  { repeat constructor. eexists. reflexivity. }
  assert (¬ absorbable (Json.JStr "bare")) as Hnot.
  { intros [x Hx]. discriminate Hx. }
  destruct (interrupted_round_is_partly_absorbed (example_oracle reply_item_then_bare)
              (generate_click "Doctor visit" 5 2) session_world _ _ _
              eq_refl eq_refl (Hcall session_world) Habs Hnot)
    as (H1 & _ & _ & H2 & _).
  destruct (interrupted_round_is_partly_absorbed (example_oracle reply_item_then_bare)
              (generate_click "Doctor visit" 5 2) fresh_world _ _ _
              eq_refl eq_refl (Hcall fresh_world) Habs Hnot)
    as (_ & _ & _ & _ & H3).
  split; [exact H1|]. split.
  - destruct (default ∅ (vocab_history (session session_world))
                !! PyStr.lower
                     (PyStr.strip (ui_topic (generate_click "Doctor visit" 5 2))))
      as [X|] eqn:HX.
    + apply (H2 X eq_refl
                (vocab_item "gown" "a loose garment for patients" "病号服"
                   "Put on this gown.") "gown");
        [apply list_elem_of_here|reflexivity|discriminate].
    + vm_compute in HX. discriminate HX.
  - apply H3. vm_compute. reflexivity.
Defined.

(** ** Export *)

#[local] Instance id_asc_transitive cols : Transitive (id_asc cols).
Proof. intros r1 r2 r3. unfold id_asc. lia. Qed.

#[local] Instance id_asc_total cols : Total (id_asc cols).
Proof. intros r1 r2. unfold id_asc. lia. Qed.

Lemma numbered_sorted n rows :
  numbered n rows → StronglySorted (fun r1 r2 => entry_id r1 < entry_id r2) rows.
Proof.
  revert n. induction rows as [|r rows IH]; intros n Hn; [constructor|].
  destruct Hn as (_ & Hid & Hrest). constructor; [by eapply IH|].
  apply Forall_forall. intros r' Hr'.
  pose proof (numbered_bounds _ _ _ Hrest Hr').
  unfold entry_id at 1. rewrite Hid. lia.
Qed.

Lemma order_by_id_numbered n rows :
  numbered n rows → order_by_id vocab_columns rows = rows.
Proof.
  intros Hn. unfold order_by_id.
  apply (StronglySorted_unique_strong (id_asc vocab_columns)).
  - intros x1 x2 Hx1 Hx2 H12 H21.
    rewrite merge_sort_Permutation in Hx1.
    apply (numbered_inj n rows); [done..|].
    unfold id_asc in *. rewrite !rowid_key_vocab in *. lia.
  - apply StronglySorted_merge_sort; apply _.
  - pose proof (numbered_sorted n rows Hn) as Hs. clear Hn.
    induction Hs as [|x l Hl IH Hx]; [constructor|].
    constructor; [done|].
    eapply Forall_impl; [exact Hx|].
    intros y Hy. unfold id_asc. rewrite !rowid_key_vocab. cbv beta in Hy. lia.
  - by rewrite merge_sort_Permutation.
Qed.

Lemma project_export_row row :
  length row = 9%nat → read vocab_columns row <$> export_columns = drop 1 row.
Proof.
  intros Hlen.
  destruct row as [|c0 [|c1 [|c2 [|c3 [|c4 [|c5 [|c6 [|c7 [|c8 [|c9 row]]]]]]]]]];
    try discriminate.
  reflexivity.
Qed.

Lemma project_export n rows :
  numbered n rows → project export_columns vocab_columns rows = drop 1 <$> rows.
Proof.
  intros Hn. unfold project. apply list_fmap_ext. intros i row Hrow.
  apply project_export_row. apply (numbered_length n rows); [done|].
  by eapply list_elem_of_lookup_2.
Qed.

Lemma export_to_csv_store_ok filename a t :
  db (app_world a) = Some t → store_ok t →
  export_to_csv filename a
  = (Ok filename,
     AppState (emit EvClose (emit EvConnect (app_world a)))
              (<[filename := csv_file (drop 1 <$> tbl_rows t)]> (app_files a))).
Proof.
  intros Hdb (Hcols & Hnum & _). unfold export_to_csv. cbv zeta.
  change (db (emit EvConnect (app_world a))) with (db (app_world a)).
  rewrite Hdb. cbn [mbind result_bind].
  assert (prepare ("id" :: export_columns) t = Ok tt) as ->.
  { unfold prepare, has_column. by rewrite Hcols. }
  cbn [mbind result_bind].
  by rewrite Hcols, (order_by_id_numbered 1 _ Hnum), (project_export 1 _ Hnum).
Qed.

Lemma export_to_csv_fails filename a :
  (db (app_world a) = None ∨
   ∃ t name, db (app_world a) = Some t ∧ name ∈ "id" :: export_columns ∧
             has_column name t = false) →
  export_to_csv filename a
  = (Raise OperationalError, with_world (emit EvConnect (app_world a)) a).
Proof.
  intros Hmiss. unfold export_to_csv. cbv zeta.
  change (db (emit EvConnect (app_world a))) with (db (app_world a)).
  destruct Hmiss as [-> | (t & name & -> & Hin & Hhas)]; [done|].
  cbn [mbind result_bind]. by rewrite (prepare_missing_column _ _ _ Hin Hhas).
Qed.

(** X15.  On a store that only inserts have written to, the export under
    its default name, which is how the program calls it, returns the name
    [vocab_export.csv] and writes to that file the header line followed by
    one line per entry, in the order of insertion, made of the eight
    columns after the id: NULL as the empty field, the difficulty in
    decimal, a field with a comma, a quote or a line break in quotes.  The
    file replaces what it held before; every other file of the working
    directory, the store and the session are untouched. *)
Theorem export_lists_every_entry (a : app_state) (t : table) :
  db (app_world a) = Some t →
  store_ok t →
  (export_to_csv "vocab_export.csv" a).1 = Ok "vocab_export.csv" ∧
  app_files (export_to_csv "vocab_export.csv" a).2 !! "vocab_export.csv"
  = Some (csv_row export_headers
          +:+ PyStr.join EmptyString
                ((fun row => csv_row (csv_text <$> drop 1 row)) <$> tbl_rows t)) ∧
  (∀ other, other ≠ "vocab_export.csv" →
     app_files (export_to_csv "vocab_export.csv" a).2 !! other
     = app_files a !! other) ∧
  db (app_world (export_to_csv "vocab_export.csv" a).2) = Some t ∧
  session (app_world (export_to_csv "vocab_export.csv" a).2)
  = session (app_world a) ∧
  log (app_world (export_to_csv "vocab_export.csv" a).2)
  = EvClose :: EvConnect :: log (app_world a).
Proof.
  intros Hdb Hok. rewrite (export_to_csv_store_ok "vocab_export.csv" a t Hdb Hok).
  cbn [fst snd app_files app_world]. split; [done|]. split.
  { rewrite lookup_insert_eq. unfold csv_file. by rewrite <- list_fmap_compose. }
  split; [intros other Hne; by rewrite lookup_insert_ne|].
  done.
Qed.

Lemma export_lists_every_entry_witness :
  app_files (export_to_csv "vocab_export.csv" two_entries_state).2
    !! "vocab_export.csv"
  = Some ("word,meaning_en,meaning_zh,example,topic,tag,difficulty,created_at"
          +:+ crlf
          +:+ quoted "check-up, annual"
          +:+ ",a yearly examination,年度体检,Book your check-up.,doctor visit,"
          +:+ "daily_vocab_2,2,2024-05-01 09:30:00" +:+ crlf
          +:+ "triage,sorting patients by urgency,分诊,Triage took an hour.,"
          +:+ "doctor visit,daily_vocab_2,2,2024-05-01 09:30:00" +:+ crlf) ∧
  app_files (export_to_csv "vocab_export.csv" two_entries_state).2 !! "notes.txt"
  = Some "keep".
Proof.
  destruct (insert_vocab_items_store_ok (example_oracle EmptyString)
              (Json.JArr [ vocab_item "check-up, annual" "a yearly examination"
                             "年度体检" "Book your check-up.";
                           vocab_item "triage" "sorting patients by urgency" "分诊"
                             "Triage took an hour." ])
              (Some "doctor visit") (Some "daily_vocab_2") (Some 2) fresh_world
              _ (proj1 fresh_world_store_ok) (proj2 fresh_world_store_ok))
    as (t & Hdb & Hok & _ & Hrows).
  destruct (export_lists_every_entry two_entries_state t Hdb Hok)
    as (_ & Hfile & Hother & _).
  split.
  - rewrite Hfile. f_equal.
    rewrite (Hrows _ eq_refl ltac:(vm_compute; reflexivity)).
    vm_compute. reflexivity.
  - rewrite Hother by discriminate. reflexivity.
Defined.

(** X16.  When the store has no [vocab] table, or the table lacks one of
    the exported columns or the id, the export raises [OperationalError]
    before it opens the file: no file is created and none is changed. *)
Theorem failed_export_writes_no_file (filename : string) (a : app_state) :
  (db (app_world a) = None ∨
   ∃ t name, db (app_world a) = Some t ∧ name ∈ "id" :: export_columns ∧
             has_column name t = false) →
  (export_to_csv filename a).1 = Raise OperationalError ∧
  app_files (export_to_csv filename a).2 = app_files a ∧
  db (app_world (export_to_csv filename a).2) = db (app_world a).
Proof. intros Hmiss. by rewrite (export_to_csv_fails filename a Hmiss). Qed.

Lemma failed_export_writes_no_file_witness :
  (export_to_csv "vocab_export.csv"
     (AppState legacy_world (<["vocab_export.csv" := "older export"]> ∅))).1
  = Raise OperationalError ∧
  app_files (export_to_csv "vocab_export.csv"
               (AppState legacy_world (<["vocab_export.csv" := "older export"]> ∅))).2
    !! "vocab_export.csv" = Some "older export".
Proof.
  destruct (failed_export_writes_no_file "vocab_export.csv"
              (AppState legacy_world (<["vocab_export.csv" := "older export"]> ∅)))
    as (Hres & Hfiles & _).
  { right. exists legacy_table, "difficulty". split; [reflexivity|].
    split; [|reflexivity]. apply (bool_decide_unpack _). vm_compute. exact I. }
  split; [exact Hres|]. rewrite Hfiles. reflexivity.
Defined.

(** ** The review page *)

Lemma drawn_rows_nil names cols lim random (pool : list (list sqlval)) :
  0 < lim →
  project names cols (limit lim (order_by_random random pool)) = [] ↔ pool = [].
Proof.
  intros Hlim. rewrite <- !length_zero_iff_nil. unfold project.
  rewrite length_fmap, limit_length by lia.
  rewrite (Permutation_length (order_by_random_permutation random pool)). lia.
Qed.

Lemma review_choice_int choice :
  choice ∈ review_options → choice ≠ "全部" →
  1 <= int_of_choice choice <= 5 ∧ PyStr.of_int (int_of_choice choice) = choice.
Proof.
  unfold review_options. intros Hin Hne.
  repeat (apply elem_of_cons in Hin as [->|Hin];
          [first [done | split; [split; by vm_compute|by vm_compute]]|]).
  by apply elem_of_nil in Hin.
Qed.

Lemma page_review_quiz_ok o ui w t :
  rv_start ui = true →
  rv_difficulty_choice ui ∈ review_options →
  5 <= rv_num_items ui <= 30 →
  db w = Some t → prepare select_columns t = Ok tt →
  page_review_quiz o ui w
  = (match (if decide (rv_difficulty_choice ui = "全部") then tbl_rows t
            else matching_rows (int_of_choice (rv_difficulty_choice ui)) t) with
     | [] => Stopped
     | _ => Finished
     end, emit EvClose (emit EvConnect w)).
Proof.
  intros Hstart Hin Hn Hdb Hprep. unfold page_review_quiz. rewrite Hstart.
  cbv zeta. destruct (decide (rv_difficulty_choice ui = "全部")) as [Hall|Hone].
  - rewrite (get_random_items_unfiltered o _ w t Hdb Hprep) by lia.
    pose proof (drawn_rows_nil select_columns (tbl_columns t) (rv_num_items ui)
                  (sql_random o) (tbl_rows t) ltac:(lia)) as Hnil.
    destruct (project _ _ _) as [|row rows]; destruct (tbl_rows t) as [|p pool];
      try done.
    + discriminate (proj1 Hnil eq_refl).
    + discriminate (proj2 Hnil eq_refl).
  - destruct (review_choice_int _ Hin Hone) as [Hd _].
    rewrite (get_random_items_filtered o _ _ w t Hdb Hprep) by lia.
    pose proof (drawn_rows_nil select_columns (tbl_columns t) (rv_num_items ui)
                  (sql_random o)
                  (matching_rows (int_of_choice (rv_difficulty_choice ui)) t)
                  ltac:(lia)) as Hnil.
    destruct (project _ _ _) as [|row rows];
      destruct (matching_rows _ t) as [|p pool]; try done.
    + discriminate (proj1 Hnil eq_refl).
    + discriminate (proj2 Hnil eq_refl).
Qed.

(** X17.  A click on the review page's button draws from the whole store
    when the selectbox shows its first option and from the entries of the
    chosen level otherwise, the option's text being the decimal of a level
    from 1 to 5.  The run stops with the warning exactly when that pool is
    empty, and finishes otherwise.  The page only reads: the store and
    the session are as before. *)
Theorem review_page_draws_or_stops (o : oracle) (ui : review_widgets) (w : world)
    (t : table) :
  rv_start ui = true →
  rv_difficulty_choice ui ∈ review_options →
  5 <= rv_num_items ui <= 30 →
  db w = Some t →
  prepare select_columns t = Ok tt →
  (page_review_quiz o ui w).1
  = (match (if decide (rv_difficulty_choice ui = "全部") then tbl_rows t
            else matching_rows (int_of_choice (rv_difficulty_choice ui)) t) with
     | [] => Stopped
     | _ => Finished
     end) ∧
  (rv_difficulty_choice ui ≠ "全部" →
   1 <= int_of_choice (rv_difficulty_choice ui) <= 5 ∧
   PyStr.of_int (int_of_choice (rv_difficulty_choice ui)) = rv_difficulty_choice ui) ∧
  db (page_review_quiz o ui w).2 = db w ∧
  session (page_review_quiz o ui w).2 = session w.
Proof.
  intros Hstart Hin Hn Hdb Hprep.
  rewrite (page_review_quiz_ok o ui w t Hstart Hin Hn Hdb Hprep).
  split; [done|]. split; [by apply review_choice_int|]. done.
Qed.

Lemma review_page_draws_or_stops_witness :
  (page_review_quiz (example_oracle EmptyString) (ReviewWidgets 10 "3" true)
     five_entries_world).1 = Finished ∧
  (page_review_quiz (example_oracle EmptyString) (ReviewWidgets 10 "4" true)
     five_entries_world).1 = Stopped ∧
  (page_review_quiz (example_oracle EmptyString) (ReviewWidgets 10 "全部" true)
     fresh_world).1 = Stopped.
Proof.
  assert (db five_entries_world = Some five_entries_table) as Hdb
    by (vm_compute; reflexivity).
  assert (prepare select_columns five_entries_table = Ok tt) as Hprep
    by (vm_compute; reflexivity).
  destruct (review_page_draws_or_stops (example_oracle EmptyString)
              (ReviewWidgets 10 "3" true) five_entries_world five_entries_table
              eq_refl ltac:(repeat constructor) ltac:(simpl; lia) Hdb Hprep)
    as (H3 & _).
  destruct (review_page_draws_or_stops (example_oracle EmptyString)
              (ReviewWidgets 10 "4" true) five_entries_world five_entries_table
              eq_refl ltac:(repeat constructor) ltac:(simpl; lia) Hdb Hprep)
    as (H4 & _).
  destruct (review_page_draws_or_stops (example_oracle EmptyString)
              (ReviewWidgets 10 "全部" true) fresh_world (Table vocab_columns [] 0)
              eq_refl ltac:(repeat constructor) ltac:(simpl; lia)
              (proj1 fresh_world_store_ok) eq_refl)
    as (H0 & _).
  split; [|split].
  - rewrite H3. vm_compute. reflexivity.
  - rewrite H4. vm_compute. reflexivity.
  - rewrite H0. reflexivity.
Defined.

(** ** Runs of the app *)

Lemma has_column_migrate name t :
  has_column name t = true → has_column name (migrate t) = true.
Proof.
  intros Hn. unfold migrate, alter_table_add_column.
  destruct (has_column (col_name difficulty_column) t); [done|].
  apply has_column_true in Hn as [i Hi]. apply has_column_true. simpl.
  rewrite (col_index_app_l _ _ _ _ Hi). by eexists.
Qed.

Lemma migrate_current t : has_column "difficulty" t = true → migrate t = t.
Proof.
  intros Hd. unfold migrate, alter_table_add_column. simpl col_name. by rewrite Hd.
Qed.

Lemma usable_store_prepare d names :
  usable_store d → names ⊆ select_columns →
  prepare names (migrate (create_table_if_not_exists vocab_columns d)) = Ok tt.
Proof.
  intros Hu Hsub. unfold prepare.
  assert (forallb
            (fun n => has_column n
                        (migrate (create_table_if_not_exists vocab_columns d)))
            names = true) as ->; [|done].
  apply forallb_forall. intros n Hn. apply list_elem_of_In, Hsub in Hn.
  destruct (decide (n = "difficulty")) as [->|Hne]; [apply migrate_has_difficulty|].
  apply has_column_migrate. destruct d as [t|]; simpl.
  - by apply Hu.
  - unfold select_columns in Hn.
    repeat (apply elem_of_cons in Hn as [->|Hn]; [reflexivity|]).
    by apply elem_of_nil in Hn.
Qed.

Lemma export_columns_selected : "id" :: export_columns ⊆ select_columns.
Proof.
  intros n Hn. unfold export_columns in Hn. unfold select_columns.
  repeat (apply elem_of_cons in Hn as [->|Hn]; [by repeat constructor|]).
  by apply elem_of_nil in Hn.
Qed.

Lemma export_to_csv_ok filename a t :
  db (app_world a) = Some t → prepare ("id" :: export_columns) t = Ok tt →
  export_to_csv filename a
  = (Ok filename,
     AppState (emit EvClose (emit EvConnect (app_world a)))
       (<[filename := csv_file (project export_columns (tbl_columns t)
                                  (order_by_id (tbl_columns t) (tbl_rows t)))]>
          (app_files a))).
Proof.
  intros Hdb Hprep. unfold export_to_csv. cbv zeta.
  change (db (emit EvConnect (app_world a))) with (db (app_world a)).
  rewrite Hdb. cbn [mbind result_bind]. by rewrite Hprep.
Qed.

(** X18.  [main] opens the store before it runs a page, so the two pages
    that only read never fail for want of a table or of the [difficulty]
    column: on a machine without a database, or with a database of the
    time before [difficulty], a run of the review page finishes or stops
    with its warning, and a run of the recent-and-export page finishes; a
    click on export leaves the file [vocab_export.csv], and without the
    click no file is touched. *)
Theorem reading_pages_work_from_the_first_run (o : oracle) (ui : app_widgets)
    (a : app_state) :
  usable_store (db (app_world a)) →
  5 <= rv_num_items (aw_review ui) <= 30 →
  rv_difficulty_choice (aw_review ui) ∈ review_options →
  20 <= rc_limit (aw_recent ui) <= 1000 →
  (aw_page ui = "复习 / 小测验" →
   ((main o ui a).1 = Finished ∨ (main o ui a).1 = Stopped) ∧
   app_files (main o ui a).2 = app_files a) ∧
  (aw_page ui = "查看最近 & 导出 CSV" →
   (main o ui a).1 = Finished ∧
   (rc_export (aw_recent ui) = true →
    is_Some (app_files (main o ui a).2 !! "vocab_export.csv")) ∧
   (rc_export (aw_recent ui) = false → app_files (main o ui a).2 = app_files a)).
Proof.
  intros Hu Hn Hc Hl.
  destruct (init_db_spec (app_world a)) as (Hres & Hdb & _).
  pose proof (usable_store_prepare _ select_columns Hu ltac:(done)) as Hprep.
  pose proof (usable_store_prepare _ _ Hu export_columns_selected) as Hprep2.
  unfold main. destruct (init_db (app_world a)) as [r w1].
  cbn [fst snd] in Hres, Hdb. subst r.
  split; intros Hpage; rewrite Hpage; cbv zeta.
  - rewrite !decide_False by done. rewrite decide_True by done.
    unfold lift_page.
    destruct (rv_start (aw_review ui)) eqn:Hstart.
    + rewrite (page_review_quiz_ok o _ w1 _ Hstart Hc Hn Hdb Hprep).
      cbn [fst snd with_world app_files]. split; [|done].
      by destruct (if decide _ then _ else _); [right|left].
    + unfold page_review_quiz. rewrite Hstart. cbn [fst snd with_world app_files].
      split; [by left|done].
  - rewrite !decide_False by done. rewrite decide_True by done.
    unfold page_recent_and_export.
    change (app_world (with_world w1 a)) with w1.
    rewrite (get_recent_items_ok _ w1 _ Hdb Hprep) by lia.
    destruct (rc_export (aw_recent ui)).
    + match goal with
      | |- context [export_to_csv ?f ?a'] =>
          rewrite (export_to_csv_ok f a' _ Hdb Hprep2)
      end.
      cbn [fst snd app_files with_world]. split; [done|]. split; [|done].
      intros _. rewrite lookup_insert_eq. by eexists.
    + cbn [fst snd app_files with_world]. done.
Qed.

Lemma reading_pages_work_from_the_first_run_witness :
  (export_to_csv "vocab_export.csv" (AppState legacy_world ∅)).1
  = Raise OperationalError ∧
  (main (example_oracle EmptyString) export_click (AppState legacy_world ∅)).1
  = Finished ∧
  is_Some (app_files (main (example_oracle EmptyString) export_click
                        (AppState legacy_world ∅)).2 !! "vocab_export.csv").
Proof.
  destruct (reading_pages_work_from_the_first_run (example_oracle EmptyString)
              export_click (AppState legacy_world ∅)) as (_ & Hrecent).
  - intros name Hin Hne. unfold select_columns in Hin.
    repeat (apply elem_of_cons in Hin as [->|Hin]; [first [reflexivity|done]|]).
    by apply elem_of_nil in Hin.
  - simpl. lia.
  - by repeat constructor.
  - simpl. lia.
  - destruct (Hrecent eq_refl) as (Hfin & Hfile & _).
    split; [reflexivity|]. split; [exact Hfin|exact (Hfile eq_refl)].
Defined.

(** ** What every run keeps *)

Lemma show_item_store_ok o topic tag d c it w t :
  db w = Some t → store_ok t →
  ∃ t', db (show_item o topic tag d c it w).2 = Some t' ∧ store_ok t'.
Proof.
  intros Hdb Hok. unfold show_item. destruct (mbind _ _); [by exists t|].
  destruct c; [|by exists t].
  destruct (insert_vocab_items_store_ok o (Json.JArr [it]) (Some topic) (Some tag)
              (Some d) w t Hdb Hok) as (t' & ? & ? & _).
  by exists t'.
Qed.

Lemma show_items_store_ok o topic tag d add l i w t :
  db w = Some t → store_ok t →
  ∃ t', db (show_items o topic tag d add l i w).2 = Some t' ∧ store_ok t'.
Proof.
  revert i w t. induction l as [|it l IH]; intros i w t Hdb Hok; [by exists t|].
  cbn [show_items].
  destruct (show_item_store_ok o topic tag d (add i) it w t Hdb Hok)
    as (t1 & Hdb1 & Hok1).
  destruct (show_item o topic tag d (add i) it w) as [[e|[]] w1];
    [by exists t1|by apply (IH _ _ t1)].
Qed.

Lemma show_batch_store_ok o ui items topic tag d w t :
  db w = Some t → store_ok t →
  ∃ t', db (show_batch o ui items topic tag d w).2 = Some t' ∧ store_ok t'.
Proof.
  intros Hdb Hok. unfold show_batch. destruct (Py.len items); [by exists t|].
  assert (∃ t1, db (match Py.iter items with
                    | Raise e => (Raise e, w)
                    | Ok l => show_items o topic tag d (ui_add ui) l 1 w
                    end).2 = Some t1 ∧ store_ok t1) as (t1 & Hdb1 & Hok1).
  { destruct (Py.iter items); [by exists t|by apply (show_items_store_ok _ _ _ _ _ _ _ _ t)]. }
  destruct (match Py.iter items with Raise e => _ | Ok l => _ end) as [[e|[]] w1];
    [by exists t1|].
  cbn [snd] in Hdb1. destruct (ui_save_all ui); [|by exists t1].
  destruct (insert_vocab_items_store_ok o items (Some topic) (Some tag) (Some d)
              w1 t1 Hdb1 Hok1) as (t2 & Hdb2 & Hok2 & _).
  destruct (insert_vocab_items o items (Some topic) (Some tag) (Some d) w1)
    as [[e|[]] w2]; by exists t2.
Qed.

Lemma show_vocab_store_ok o ui w t :
  db w = Some t → store_ok t →
  ∃ t', db (show_vocab o ui w).2 = Some t' ∧ store_ok t'.
Proof.
  intros Hdb Hok. unfold show_vocab.
  destruct (last_vocab_items (session w)); [|by exists t].
  destruct (Py.truthy _); [by apply (show_batch_store_ok _ _ _ _ _ _ _ t)|by exists t].
Qed.

Lemma show_phrasal_store_ok o ui w t :
  db w = Some t → store_ok t →
  ∃ t', db (show_phrasal o ui w).2 = Some t' ∧ store_ok t'.
Proof.
  intros Hdb Hok. unfold show_phrasal.
  destruct (last_phrasal_items (session w)); [|by exists t].
  destruct (Py.truthy _); [by apply (show_batch_store_ok _ _ _ _ _ _ _ t)|by exists t].
Qed.

Lemma page_generate_vocab_store_ok o ui w t :
  db w = Some t → store_ok t →
  ∃ t', db (page_generate_vocab o ui w).2 = Some t' ∧ store_ok t'.
Proof.
  intros Hdb Hok. unfold page_generate_vocab. cbv zeta.
  destruct (ui_generate ui); [|by apply (show_vocab_store_ok _ _ _ t)].
  destruct (negb (api_key_set o)); [by exists t|].
  unfold call_gpt_for_vocab. cbv zeta.
  destruct (mbind _ _) as [e|items]; [by exists t|].
  destruct (update_history _ _ _) as [history' [e|]]; [by exists t|].
  by apply (show_vocab_store_ok _ _ _ t).
Qed.

Lemma page_generate_phrasal_verbs_store_ok o ui w t :
  db w = Some t → store_ok t →
  ∃ t', db (page_generate_phrasal_verbs o ui w).2 = Some t' ∧ store_ok t'.
Proof.
  intros Hdb Hok. unfold page_generate_phrasal_verbs. cbv zeta.
  destruct (ui_generate ui); [|by apply (show_phrasal_store_ok _ _ _ t)].
  destruct (negb (api_key_set o)); [by exists t|].
  unfold call_gpt_for_phrasal_verbs. cbv zeta.
  destruct (mbind _ _) as [e|items]; [by exists t|].
  destruct (update_history _ _ _) as [history' [e|]]; [by exists t|].
  by apply (show_phrasal_store_ok _ _ _ t).
Qed.

Lemma page_generate_vocab_normalized o ui w :
  session_normalized w → session_normalized (page_generate_vocab o ui w).2.
Proof.
  intros [Hv Hp].
  destruct (page_generate_vocab_history o ui w) as (Hp' & h & Hh & Hcase).
  unfold session_normalized. rewrite Hp', Hh. split; [|done].
  cbn [default from_option id].
  destruct Hcase as [->|(items & err & E)]; [done|].
  by apply (update_history_normalized _ _ _ _ _ Hv E).
Qed.

Lemma page_generate_phrasal_verbs_normalized o ui w :
  session_normalized w → session_normalized (page_generate_phrasal_verbs o ui w).2.
Proof.
  intros [Hv Hp].
  destruct (page_generate_phrasal_verbs_history o ui w) as (Hv' & h & Hh & Hcase).
  unfold session_normalized. rewrite Hv', Hh. split; [done|].
  cbn [default from_option id].
  destruct Hcase as [->|(items & err & E)]; [done|].
  by apply (update_history_normalized _ _ _ _ _ Hp E).
Qed.

Lemma page_review_quiz_world o ui w :
  db (page_review_quiz o ui w).2 = db w ∧
  session (page_review_quiz o ui w).2 = session w.
Proof.
  unfold page_review_quiz. destruct (rv_start ui); [|done].
  cbv zeta. unfold get_random_items. cbv zeta.
  destruct (mbind _ _) as [e|rows]; [done|]. by destruct rows.
Qed.

Lemma export_to_csv_world filename a :
  db (app_world (export_to_csv filename a).2) = db (app_world a) ∧
  session (app_world (export_to_csv filename a).2) = session (app_world a).
Proof. unfold export_to_csv. cbv zeta. by destruct (mbind _ _). Qed.

Lemma page_recent_and_export_world ui a :
  db (app_world (page_recent_and_export ui a).2) = db (app_world a) ∧
  session (app_world (page_recent_and_export ui a).2) = session (app_world a).
Proof.
  unfold page_recent_and_export, get_recent_items. cbv zeta.
  destruct (mbind _ _) as [e|rows]; [done|].
  destruct (rc_export ui); [|done].
  match goal with
  | |- context [export_to_csv ?f ?a'] =>
      pose proof (export_to_csv_world f a') as Hw;
      destruct (export_to_csv f a') as [[e|s] a'']
  end; exact Hw.
Qed.

Lemma main_keeps_app_ok o ui a :
  app_ok (app_world a) →
  app_ok (app_world (main o ui a).2) ∧ is_Some (db (app_world (main o ui a).2)).
Proof.
  intros [Hstore Hnorm].
  destruct (init_db_spec (app_world a)) as (Hres & Hdb & Hsess).
  assert (∃ t, db (init_db (app_world a)).2 = Some t ∧ store_ok t) as (t & Ht & Hok).
  { rewrite Hdb. destruct (db (app_world a)) as [t|]; simpl.
    - exists t. split; [|done]. f_equal. apply migrate_current.
      destruct Hstore as (Hcols & _). unfold has_column. by rewrite Hcols.
    - eexists. split; [reflexivity|]. by repeat split. }
  assert (session_normalized (init_db (app_world a)).2) as Hnorm1.
  { unfold session_normalized. by rewrite Hsess. }
  clear Hdb Hsess.
  unfold main. destruct (init_db (app_world a)) as [r w1].
  cbn [fst snd] in Hres, Ht, Hnorm1. subst r. cbv zeta.
  assert (∀ w', (∃ t', db w' = Some t' ∧ store_ok t') → session_normalized w' →
                app_ok w' ∧ is_Some (db w')) as Hfin.
  { intros w' (t' & Hdb' & Hok') Hn'. unfold app_ok. rewrite Hdb'. eauto. }
  unfold lift_page.
  repeat case_decide; cbn [fst snd app_world with_world].
  - apply Hfin; [by apply (page_generate_vocab_store_ok _ _ _ t)|].
    by apply page_generate_vocab_normalized.
  - apply Hfin; [by apply (page_generate_phrasal_verbs_store_ok _ _ _ t)|].
    by apply page_generate_phrasal_verbs_normalized.
  - destruct (page_review_quiz_world o (aw_review ui) w1) as [Hd Hs].
    apply Hfin; [exists t; by rewrite Hd|].
    unfold session_normalized. by rewrite Hs.
  - destruct (page_recent_and_export_world (aw_recent ui) (with_world w1 a))
      as [Hd Hs].
    apply Hfin; [exists t; by rewrite Hd|].
    unfold session_normalized. by rewrite Hs.
  - apply Hfin; [by exists t|done].
Qed.

Lemma run_app_keeps_app_ok steps a :
  app_ok (app_world a) → is_Some (db (app_world a)) →
  app_ok (app_world (run_app steps a)) ∧ is_Some (db (app_world (run_app steps a))).
Proof.
  revert a. induction steps as [|s steps IH]; intros a Hok Hsome; [done|].
  cbn [run_app foldl]. destruct (main_keeps_app_ok s.1 s.2 a Hok) as [Hok' Hsome'].
  by apply IH.
Qed.

(** X19.  However a session goes, the store and the histories stay in
    order.  Start on a machine without a database and with an empty
    session, and run [main] any number of times, each run on any page, with
    any buttons clicked, any field values and any replies of the model,
    also after runs that ended in an exception.  Then the store holds a
    table with the nine columns whose entries have nine cells and the ids
    1, 2, ... in the order of insertion, without gaps; the most recent
    entries are always the last ones inserted, newest first; every word
    in a forbidden list is non-empty, stripped and lower case; and the
    request functions, which strip, drop, deduplicate and sort the list
    they are given, send each list as the history holds it. *)
Theorem every_session_keeps_the_store_in_order (s : oracle * app_widgets)
    (steps : list (oracle * app_widgets)) (files : gmap string string) :
  let w := app_world (run_app (s :: steps) (AppState empty_world files)) in
  (∃ t, db w = Some t ∧ store_ok t) ∧
  entry_id <$> store_rows w = seqZ 1 (Z.of_nat (length (store_rows w))) ∧
  Forall (fun row => length row = 9%nat) (store_rows w) ∧
  (∀ lim, 0 <= lim < 2 ^ 63 →
     (get_recent_items lim w).1
     = Ok (reverse (drop (length (store_rows w) - Z.to_nat lim) (store_rows w)))) ∧
  (∀ topic x, x ∈ vocab_forbidden topic w → normalized_word x) ∧
  (∀ d x, x ∈ phrasal_forbidden d w → normalized_word x) ∧
  (∀ topic, unique_forbidden (vocab_forbidden topic w) = vocab_forbidden topic w) ∧
  (∀ d, unique_forbidden (phrasal_forbidden d w) = phrasal_forbidden d w).
Proof.
  intros w.
  assert (app_ok w ∧ is_Some (db w)) as [[Hstore [Hv Hp]] [t Ht]].
  { unfold w. cbn [run_app foldl].
    destruct (main_keeps_app_ok s.1 s.2 (AppState empty_world files)) as [Hok Hsome].
    { split; [done|]. split; intros key X x; cbn; by rewrite lookup_empty. }
    by apply run_app_keeps_app_ok. }
  rewrite Ht in Hstore.
  assert (store_rows w = tbl_rows t) as Hrows by (unfold store_rows; by rewrite Ht).
  rewrite Hrows. pose proof Hstore as (Hcols & Hnum & Hseq).
  split; [by exists t|]. split; [by apply numbered_ids|]. split.
  { apply Forall_forall. intros row Hrow. by apply (numbered_length 1 (tbl_rows t)). }
  split.
  { intros lim Hlim. by rewrite (get_recent_items_store_ok lim w t Ht Hstore Hlim). }
  assert (∀ `{Countable K} (h : gmap K (gset string)) key x,
            normalized_history h → x ∈ forbidden_words_of h key → normalized_word x)
    as Hwords.
  { intros K ? ? h key x Hh. unfold forbidden_words_of.
    rewrite elem_of_sorted, elem_of_elements.
    destruct (h !! key) as [X|] eqn:E; [by apply (Hh key X)|set_solver]. }
  split; [intros topic x; by apply Hwords|].
  split; [intros d x; by apply Hwords|].
  split; intros; by apply forbidden_words_of_rendered.
Qed.

(** ** Replies that do not begin like JSON *)

Lemma is_ws_is_space c : Json.is_ws c = true → PyStr.is_space c = true.
Proof. by destruct c as [[] [] [] [] [] [] [] []]. Qed.

Lemma lstrip_head s c r : PyStr.lstrip s = String c r → PyStr.is_space c = false.
Proof.
  induction s as [|c0 s IH]; simpl; [done|].
  destruct (PyStr.is_space c0) eqn:E; [done|]. by intros [= <- _].
Qed.

Lemma rstrip_head c r :
  PyStr.is_space c = false → ∃ r', PyStr.rstrip (String c r) = String c r'.
Proof.
  intros Hc. cbn [PyStr.rstrip]. destruct (PyStr.rstrip r); rewrite ?Hc; eauto.
Qed.

Lemma rstrip_nil s : s = EmptyString → PyStr.rstrip s = EmptyString.
Proof. by intros ->. Qed.

Lemma loads_bad_start c r :
  PyStr.is_space c = false → json_start c = false → Json.loads (String c r) = None.
Proof.
  intros Hsp Hc. unfold json_start in Hc.
  apply orb_false_iff in Hc as [Hc Hd]. apply bool_decide_eq_false in Hc.
  assert (Json.is_ws c = false) as Hws.
  { destruct (Json.is_ws c) eqn:E; [|done].
    apply is_ws_is_space in E. congruence. }
  unfold Json.loads. cbn [Json.skip_ws]. rewrite Hws.
  replace (2 * String.length (String c r) + 2)%nat
    with (S (2 * String.length (String c r) + 1)) by lia.
  cbn [Json.scan_once].
  unfold Json.value_body, Json.scan_number, Json.scan_int_part.
  repeat (destruct (decide _) as [->|_];
          [exfalso; first [by vm_compute in Hd | apply Hc; by repeat constructor]|]).
  by rewrite Hd.
Qed.

(** X20.  A reply is decoded as it stands, after stripping white space: a
    reply that is empty, or whose first character after the white space
    cannot begin a JSON value, such as the backtick of a markdown fence or
    the first letter of a sentence before the list, is rejected with
    [JSONDecodeError] by both request functions. *)
Theorem replies_must_begin_like_json (content : string) :
  (PyStr.lstrip content = EmptyString ∨
   ∃ c r, PyStr.lstrip content = String c r ∧ json_start c = false) →
  decode_reply content = Raise JSONDecodeError ∧
  (∀ o topic num_items difficulty forbidden_words w,
     (∀ prompt, reply o prompt = Ok content) →
     (call_gpt_for_vocab o topic num_items difficulty forbidden_words w).1
       = Raise JSONDecodeError ∧
     (call_gpt_for_phrasal_verbs o num_items difficulty forbidden_words w).1
       = Raise JSONDecodeError).
Proof.
  intros Hstart.
  assert (decode_reply content = Raise JSONDecodeError) as Hdec.
  { unfold decode_reply, PyStr.strip.
    destruct Hstart as [-> | (c & r & Hl & Hc)]; [done|].
    rewrite Hl. pose proof (lstrip_head _ _ _ Hl) as Hsp.
    destruct (rstrip_head c r Hsp) as [r' ->].
    by rewrite (loads_bad_start c r' Hsp Hc). }
  split; [done|].
  intros o topic num_items difficulty forbidden_words w Hreply.
  unfold call_gpt_for_vocab, call_gpt_for_phrasal_verbs. cbv zeta. cbn [fst].
  rewrite !Hreply. cbn [mbind result_bind]. by rewrite Hdec.
Qed.

Lemma replies_must_begin_like_json_witness :
  decode_reply reply_two_items = Ok (Json.JArr two_items) ∧
  decode_reply fenced_reply = Raise JSONDecodeError ∧
  decode_reply EmptyString = Raise JSONDecodeError.
Proof.
  split; [vm_compute; reflexivity|]. split.
  - apply (replies_must_begin_like_json fenced_reply). right.
    eexists _, _. split; [vm_compute; reflexivity|reflexivity].
  - apply (replies_must_begin_like_json EmptyString). by left.
Defined.

(** ** From the history to the request *)

Lemma contains_trans a b c : contains a b → contains b c → contains a c.
Proof.
  intros (x & y & ->) (u & v & ->). exists (x +:+ u), (v +:+ y).
  by rewrite !string_app_assoc.
Qed.

Lemma vocab_prompt_contains_block topic n d block seed :
  contains (vocab_prompt topic n d block seed) block.
Proof. apply (lines_contains [_; _; _; _; _; _; _; _; _; _; _; _]). Qed.

Lemma phrasal_prompt_contains_block n d block seed :
  contains (phrasal_prompt n d block seed) block.
Proof. apply (lines_contains [_; _; _; _; _; _; _; _; _; _; _]). Qed.

Lemma block_of_rendered_list fw :
  fw ≠ [] → unique_forbidden fw = fw →
  vocab_forbidden_block fw = vocab_forbidden_clause (PyStr.join ", " (take 200 fw)) ∧
  phrasal_forbidden_block fw = phrasal_forbidden_clause (PyStr.join ", " (take 200 fw)).
Proof.
  intros Hne Hu. unfold vocab_forbidden_block, phrasal_forbidden_block.
  rewrite Hu. by destruct fw.
Qed.

(** X21.  What the history holds for a context is what the next request
    for that context forbids.  In a session whose histories hold normalized
    words, which is every session, a click on generate with the key set
    sends one prompt, and when the context has a forbidden list the prompt
    carries the line made of its words, in ascending order and separated by
    a comma and a space: all of them up to 200, the first 200 beyond. *)
Theorem request_names_the_forbidden_list (o : oracle) (ui : widgets) (w : world) :
  session_normalized w →
  ui_generate ui = true →
  api_key_set o = true →
  (vocab_forbidden (ui_topic ui) w ≠ [] →
   ∃ prompt,
     requests (log (page_generate_vocab o ui w).2) = prompt :: requests (log w) ∧
     contains prompt
       ("  " +:+ PyStr.join ", " (take 200 (vocab_forbidden (ui_topic ui) w)))) ∧
  (phrasal_forbidden (ui_difficulty ui) w ≠ [] →
   ∃ prompt,
     requests (log (page_generate_phrasal_verbs o ui w).2)
       = prompt :: requests (log w) ∧
     contains prompt
       ("  " +:+ PyStr.join ", " (take 200 (phrasal_forbidden (ui_difficulty ui) w)))).
Proof.
  intros [Hv Hp] Hgen Hkey. split; intros Hne.
  - rewrite page_generate_vocab_requests, Hgen, Hkey. cbn [andb app].
    eexists. split; [reflexivity|].
    eapply contains_trans; [apply vocab_prompt_contains_block|].
    destruct (block_of_rendered_list _ Hne) as [-> _];
      [by apply forbidden_words_of_rendered|].
    apply (proj1 (clause_contains_joined _)).
  - rewrite page_generate_phrasal_verbs_requests, Hgen, Hkey. cbn [andb app].
    eexists. split; [reflexivity|].
    eapply contains_trans; [apply phrasal_prompt_contains_block|].
    destruct (block_of_rendered_list _ Hne) as [_ ->];
      [by apply forbidden_words_of_rendered|].
    apply (proj2 (clause_contains_joined _)).
Qed.

Lemma request_names_the_forbidden_list_witness :
  vocab_forbidden "Doctor visit" session_world = ["checkup"; "triage"] ∧
  ∃ prompt,
    requests (log (page_generate_vocab (example_oracle reply_two_items)
                     (generate_click " doctor VISIT" 5 2) session_world).2)
      = prompt :: requests (log session_world) ∧
    contains prompt "  checkup, triage".
Proof.
  assert (vocab_forbidden " doctor VISIT" session_world = ["checkup"; "triage"])
    as Hlist by (vm_compute; reflexivity).
  assert (session_normalized session_world) as Hnorm.
  { unfold session_world. do 2 apply page_generate_vocab_normalized.
    unfold session_normalized. change (session fresh_world) with empty_session.
    split; intros key X x; cbn; by rewrite lookup_empty. }
  destruct (request_names_the_forbidden_list (example_oracle reply_two_items)
              (generate_click " doctor VISIT" 5 2) session_world Hnorm
              eq_refl eq_refl) as [Hvocab _].
  split; [vm_compute; reflexivity|].
  destruct Hvocab as (prompt & Hreq & Hcont).
  { cbn [ui_topic generate_click]. by rewrite Hlist. }
  exists prompt. split; [exact Hreq|].
  cbn [ui_topic generate_click] in Hcont. rewrite Hlist in Hcont. exact Hcont.
Defined.
